(** * The AST analyzer and the security scanner of the WASM playground

    A shallow embedding of [examples/wasm/src/python/ast_analyzer.py] and
    [examples/wasm/src/python/security_scanner.py], and the properties the
    specification states about them.

    - A syntax tree is a [node]: a class name, a position and named fields,
      as [ast.iter_fields] shows it; [isinstance] compares class names.
    - Reading an attribute can raise: expressions are computations in
      [result], and an exception ends the function that runs them, unless
      the source catches it.
    - [self.issues] is passed from statement to statement; [_add_issue]
      returns the list with the new entry at its end.
    - The functions of the Python library the code calls are written after
      their behaviour in CPython: [ast.walk], [ast.get_docstring],
      [str.splitlines], [str.strip], [re.search], [list.sort], [json.dumps].
      The parser [ast.parse], [ast.unparse] and [str()] of an object are not
      written out: they are the fields of a [runtime] the analyzer is given.
    - The interpreter's limits on the depth of recursion and on the digits
      of an [int] turned into text are not part of the embedding: the
      recursive functions and [str()] are total.  Where a property says that
      the analysis succeeds, it is stated for the trees [within_limits].
    - The definitions come first, then the lemmas, then the properties the
      specification states, in the order of their numbers, then further
      properties of the two files, each group after its lemmas. *)

From Stdlib Require Import List String Ascii ZArith Arith Bool Lia.
From Stdlib Require Import Permutation Sorted DecimalString.
Import ListNotations.
Local Open Scope string_scope.
Local Open Scope list_scope.
Local Open Scope nat_scope.
#[local] Set Warnings "-register-all".

(** Concatenation of texts, as in an f-string. *)
Infix "+++" := String.append (right associativity, at level 60).

(** ** Python values found in a syntax tree *)

(** A constant stored in a field of a node.  A float or a complex number is
    kept by the text [str()] gives for it and by its truth value, a [bytes]
    object by its bytes. *)
Inductive prim : Type :=
| PNone
| PBool (b : bool)
| PInt (z : Z)
| PStr (s : string)
| PBytes (s : string)
| PFloat (text : string) (nonzero : bool)
| PComplex (text : string) (nonzero : bool)
| PEllipsis.

(** An [ast.AST] object: its class name, the [lineno] and [col_offset]
    attributes when it has them, and its fields in the order of [_fields].
    A field holds a node, a list, or a constant. *)
Inductive node : Type :=
| Node (cls : string) (lineno col_offset : option Z)
       (fields : list (string * value))
with value : Type :=
| VNode (n : node)
| VList (items : list value)
| VPrim (p : prim).

Definition node_cls (n : node) : string :=
  match n with Node c _ _ _ => c end.

Definition node_lineno (n : node) : option Z :=
  match n with Node _ l _ _ => l end.

Definition node_col_offset (n : node) : option Z :=
  match n with Node _ _ c _ => c end.

Definition node_fields (n : node) : list (string * value) :=
  match n with Node _ _ _ fs => fs end.

(** [ast.iter_fields]. *)
Definition iter_fields (n : node) : list (string * value) := node_fields n.

(** The nodes a field yields in [ast.iter_child_nodes]: the field itself when
    it is a node, its items that are nodes when it is a list. *)
Definition field_child_nodes (v : value) : list node :=
  match v with
  | VNode c => [c]
  | VList items =>
      flat_map (fun item => match item with VNode c => [c] | _ => [] end) items
  | VPrim _ => []
  end.

(** [ast.iter_child_nodes]. *)
Definition iter_child_nodes (n : node) : list node :=
  flat_map (fun f => field_child_nodes (snd f)) (iter_fields n).

(** The number of nodes of a tree; it bounds the steps of [ast.walk]. *)
Fixpoint node_size (n : node) : nat :=
  match n with
  | Node _ _ _ fields =>
      S (list_sum (map (fun f => value_size (snd f)) fields))
  end
with value_size (v : value) : nat :=
  match v with
  | VNode c => node_size c
  | VList items => list_sum (map value_size items)
  | VPrim _ => 0
  end.

Definition queue_size (todo : list node) : nat :=
  list_sum (map node_size todo).

(** [ast.walk]: the queue [todo] is emptied from the left, and the children
    of the node taken are put at its right end.  One unit of [fuel] is one
    turn of the [while] loop. *)
Fixpoint walk_queue (fuel : nat) (todo : list node) : list node :=
  match fuel with
  | O => []
  | S fuel' =>
      match todo with
      | [] => []
      | n :: rest => n :: walk_queue fuel' (rest ++ iter_child_nodes n)
      end
  end.

(** The size of the tree is fuel enough for the loop to end (lemmas
    [walk_queue_fuel] and [walk_permutation]). *)
Definition walk (n : node) : list node :=
  walk_queue (node_size n) [n].

(** ** Text

    A character is a code point below 256; a text is a [string] of them. *)

(** The line boundaries of [str.splitlines]: LF, VT, FF, CR, FS, GS, RS and
    NEL; CR followed by LF is one boundary. *)
Definition is_line_boundary (c : ascii) : bool :=
  let k := nat_of_ascii c in
  ((10 <=? k) && (k <=? 13)) || ((28 <=? k) && (k <=? 30)) || (k =? 133).

Definition is_CR (c : ascii) : bool := nat_of_ascii c =? 13.
Definition is_LF (c : ascii) : bool := nat_of_ascii c =? 10.

(** [str.splitlines], with the line read so far in [line]: a boundary ends the
    line, and the end of the text ends a line that is not empty. *)
Fixpoint splitlines_from (line s : string) : list string :=
  match s with
  | EmptyString =>
      match line with EmptyString => [] | _ => [line] end
  | String c rest =>
      if is_line_boundary c then
        match rest with
        | String d rest' =>
            if is_CR c && is_LF d
            then line :: splitlines_from "" rest'
            else line :: splitlines_from "" rest
        | EmptyString => line :: splitlines_from "" rest
        end
      else splitlines_from (line +++ String c "") rest
  end.

Definition splitlines (s : string) : list string := splitlines_from "" s.

(** [str.isspace] of one character: what [str.strip] removes and what [\s]
    matches. *)
Definition is_space (c : ascii) : bool :=
  let k := nat_of_ascii c in
  ((9 <=? k) && (k <=? 13)) || ((28 <=? k) && (k <=? 32))
  || (k =? 133) || (k =? 160).

Fixpoint lstrip (s : string) : string :=
  match s with
  | EmptyString => EmptyString
  | String c rest => if is_space c then lstrip rest else s
  end.

Definition reverse (s : string) : string :=
  string_of_list_ascii (rev (list_ascii_of_string s)).

Definition rstrip (s : string) : string := reverse (lstrip (reverse s)).

(** [str.strip]. *)
Definition strip (s : string) : string := lstrip (rstrip s).

(** [s.startswith(p)]. *)
Definition startswith (s p : string) : bool := String.prefix p s.

(** The truth value of a [str]. *)
Definition nonempty (s : string) : bool :=
  match s with EmptyString => false | _ => true end.

Definition is_upper (c : ascii) : bool :=
  (65 <=? nat_of_ascii c) && (nat_of_ascii c <=? 90).

Definition is_lower (c : ascii) : bool :=
  (97 <=? nat_of_ascii c) && (nat_of_ascii c <=? 122).

Definition to_lower (c : ascii) : ascii :=
  if is_upper c then ascii_of_nat (nat_of_ascii c + 32) else c.

Definition to_upper (c : ascii) : ascii :=
  if is_lower c then ascii_of_nat (nat_of_ascii c - 32) else c.

(** [str.upper] on the letters a to z, the only ones the scanner applies it
    to. *)
Fixpoint upper (s : string) : string :=
  match s with
  | EmptyString => EmptyString
  | String c rest => String (to_upper c) (upper rest)
  end.

(** [str()] of an [int]. *)
Definition str_of_Z (z : Z) : string := NilZero.string_of_int (Z.to_int z).

(** [s1 in s2] for two texts. *)
Fixpoint contains (s sub : string) : bool :=
  String.prefix sub s
  || match s with
     | EmptyString => false
     | String _ rest => contains rest sub
     end.

(** ** Exceptions

    A computation either returns a value or raises; [str(e)] of the exception
    is the message it carries. *)
Inductive exc : Type :=
| AttributeError (msg : string)
| TypeError (msg : string)
| IndexError (msg : string).

Definition exc_str (e : exc) : string :=
  match e with
  | AttributeError m | TypeError m | IndexError m => m
  end.

Inductive result (A : Type) : Type :=
| Ok (a : A)
| Raise (e : exc).

Arguments Ok {A} a.
Arguments Raise {A} e.

Definition bind {A B : Type} (c : result A) (k : A -> result B) : result B :=
  match c with
  | Ok a => k a
  | Raise e => Raise e
  end.

Notation "x <- c ;; k" := (bind c (fun x => k))
  (at level 61, c at next level, right associativity).

(** A [for] loop over [xs] whose body updates a state; an exception raised by
    the body ends the loop. *)
Fixpoint for_each {A S : Type} (xs : list A) (body : A -> S -> result S)
    (s : S) : result S :=
  match xs with
  | [] => Ok s
  | x :: rest => s' <- body x s ;; for_each rest body s'
  end.

(** A list comprehension whose element expression may raise. *)
Fixpoint map_result {A B : Type} (f : A -> result B) (xs : list A)
    : result (list B) :=
  match xs with
  | [] => Ok []
  | x :: rest => y <- f x ;; ys <- map_result f rest ;; Ok (y :: ys)
  end.

(** ** Dynamic operations on values *)

Definition type_name (v : value) : string :=
  match v with
  | VNode n => node_cls n
  | VList _ => "list"
  | VPrim PNone => "NoneType"
  | VPrim (PBool _) => "bool"
  | VPrim (PInt _) => "int"
  | VPrim (PStr _) => "str"
  | VPrim (PBytes _) => "bytes"
  | VPrim (PFloat _ _) => "float"
  | VPrim (PComplex _ _) => "complex"
  | VPrim PEllipsis => "ellipsis"
  end.

Definition no_attribute (v : value) (name : string) : exc :=
  AttributeError
    ("'" +++ type_name v +++ "' object has no attribute '" +++ name +++ "'").

(** [node.name] for a field of the node. *)
Definition getattr (n : node) (name : string) : result value :=
  match find (fun f => fst f =? name)%string (node_fields n) with
  | Some f => Ok (snd f)
  | None => Raise (no_attribute (VNode n) name)
  end.

(** [v.name] for any value.  The names read by the analyzer and the scanner
    ([func], [id], [attr], [args], [value], [op], [keywords], [arg], [name],
    [body], ...) are attributes of no list and of no constant. *)
Definition attr (v : value) (name : string) : result value :=
  match v with
  | VNode n => getattr n name
  | _ => Raise (no_attribute v name)
  end.

(** [node.lineno]. *)
Definition lineno_of (n : node) : result Z :=
  match node_lineno n with
  | Some l => Ok l
  | None => Raise (no_attribute (VNode n) "lineno")
  end.

(** [isinstance(v, ast.cls)]. *)
Definition isinstance (v : value) (cls : string) : bool :=
  match v with
  | VNode n => (node_cls n =? cls)%string
  | _ => false
  end.

(** [isinstance(v, str)]. *)
Definition is_str (v : value) : bool :=
  match v with VPrim (PStr _) => true | _ => false end.

(** [v == s] for a text [s]. *)
Definition eq_str (v : value) (s : string) : bool :=
  match v with VPrim (PStr t) => (t =? s)%string | _ => false end.

(** [v in (s1, s2, ...)]: the tuple is searched with [==]. *)
Definition in_tuple (v : value) (t : list string) : bool :=
  existsb (eq_str v) t.

(** [v is True]. *)
Definition is_True (v : value) : bool :=
  match v with VPrim (PBool true) => true | _ => false end.

(** The truth value of a value, as [if v], [v and ...] read it. *)
Definition truthy (v : value) : bool :=
  match v with
  | VNode _ => true
  | VList items => match items with [] => false | _ => true end
  | VPrim PNone => false
  | VPrim (PBool b) => b
  | VPrim (PInt z) => negb (z =? 0)%Z
  | VPrim (PStr s) => nonempty s
  | VPrim (PBytes s) => nonempty s
  | VPrim (PFloat _ nz) => nz
  | VPrim (PComplex _ nz) => nz
  | VPrim PEllipsis => true
  end.

Definition not_subscriptable (v : value) : exc :=
  TypeError ("'" +++ type_name v +++ "' object is not subscriptable").

(** [v[0]]. *)
Definition first_item (v : value) : result value :=
  match v with
  | VList (x :: _) => Ok x
  | VList [] => Raise (IndexError "list index out of range")
  | VPrim (PStr (String c _)) => Ok (VPrim (PStr (String c "")))
  | VPrim (PStr EmptyString) => Raise (IndexError "string index out of range")
  | VPrim (PBytes (String c _)) => Ok (VPrim (PInt (Z.of_nat (nat_of_ascii c))))
  | VPrim (PBytes EmptyString) => Raise (IndexError "index out of range")
  | _ => Raise (not_subscriptable v)
  end.

(** The items a [for] loop over [v] visits. *)
Definition iterate (v : value) : result (list value) :=
  match v with
  | VList items => Ok items
  | VPrim (PStr s) =>
      Ok (map (fun c => VPrim (PStr (String c ""))) (list_ascii_of_string s))
  | VPrim (PBytes s) =>
      Ok (map (fun c => VPrim (PInt (Z.of_nat (nat_of_ascii c))))
              (list_ascii_of_string s))
  | _ => Raise (TypeError ("'" +++ type_name v +++ "' object is not iterable"))
  end.

(** [for child in ast.iter_child_nodes(node): body], the body updating a
    state. *)
Definition for_child_nodes {S : Type} (n : node) (body : node -> S -> S)
    (s : S) : S :=
  fold_left
    (fun s f =>
       match snd f with
       | VNode c => body c s
       | VList items =>
           fold_left
             (fun s item => match item with VNode c => body c s | _ => s end)
             items s
       | VPrim _ => s
       end)
    (iter_fields n) s.

(** ** Rendering constants *)

Definition quote_char : ascii := ascii_of_nat 39.
Definition dquote_char : ascii := ascii_of_nat 34.
Definition backslash_char : ascii := ascii_of_nat 92.

Definition hex_digit (k : nat) : ascii :=
  if k <? 10 then ascii_of_nat (48 + k) else ascii_of_nat (87 + k).

Definition has_char (c : ascii) (s : string) : bool :=
  existsb (Ascii.eqb c) (list_ascii_of_string s).

(** One byte inside the [repr] of a [bytes] object delimited by [q]. *)
Definition bytes_repr_char (q c : ascii) : string :=
  let k := nat_of_ascii c in
  if Ascii.eqb c q || Ascii.eqb c backslash_char
  then String backslash_char (String c "")
  else if k =? 9 then String backslash_char "t"
  else if k =? 10 then String backslash_char "n"
  else if k =? 13 then String backslash_char "r"
  else if (k <? 32) || (127 <=? k)
  then String backslash_char
         (String "x" (String (hex_digit (k / 16)) (String (hex_digit (k mod 16)) "")))
  else String c "".

(** [repr] of a [bytes] object: single quotes, unless the bytes hold a single
    quote and no double quote. *)
Definition bytes_repr (s : string) : string :=
  let q := if has_char quote_char s && negb (has_char dquote_char s)
           then dquote_char else quote_char in
  "b" +++ String q (concat "" (map (bytes_repr_char q) (list_ascii_of_string s)))
  +++ String q "".

(** [str(p)] of a constant. *)
Definition prim_str (p : prim) : string :=
  match p with
  | PNone => "None"
  | PBool true => "True"
  | PBool false => "False"
  | PInt z => str_of_Z z
  | PStr s => s
  | PBytes s => bytes_repr s
  | PFloat text _ => text
  | PComplex text _ => text
  | PEllipsis => "Ellipsis"
  end.

(** ** Objects handed to the JSON encoder

    A dict with text keys, a list, or a value as it stands. *)
Inductive obj : Type :=
| ODict (entries : list (string * obj))
| OList (items : list obj)
| ORaw (v : value).

(** [d[key] = v]: an entry with this key is replaced where it stands, a new
    key goes to the end. *)
Fixpoint dict_set {V : Type} (d : list (string * V)) (key : string) (v : V)
    : list (string * V) :=
  match d with
  | [] => [(key, v)]
  | (k, w) :: rest =>
      if (k =? key)%string then (k, v) :: rest
      else (k, w) :: dict_set rest key v
  end.

(** [d.get(key)]. *)
Fixpoint dict_get {V : Type} (d : list (string * V)) (key : string)
    : option V :=
  match d with
  | [] => None
  | (k, w) :: rest => if (k =? key)%string then Some w else dict_get rest key
  end.

(** What [json.dumps] accepts among values: [None], [bool], [int], [str],
    [float], and lists of them. *)
Fixpoint json_serializable (v : value) : bool :=
  match v with
  | VNode _ => false
  | VList items => forallb json_serializable items
  | VPrim (PBytes _) | VPrim (PComplex _ _) | VPrim PEllipsis => false
  | VPrim _ => true
  end.

Fixpoint obj_serializable (o : obj) : bool :=
  match o with
  | ODict entries => forallb (fun e => obj_serializable (snd e)) entries
  | OList items => forallb obj_serializable items
  | ORaw v => json_serializable v
  end.

Definition not_serializable : exc :=
  TypeError "Object is not JSON serializable".

(** ** The Python run time the analyzer calls

    What [ast.parse] does on a source text: it returns a tree, raises a
    [SyntaxError] with its [lineno] and [msg], or raises another exception
    with the text [str(e)]. *)
Inductive parse_outcome : Type :=
| Parsed (tree : node)
| SyntaxError (lineno : option Z) (msg : string)
| ParseException (text : string).

(** The library functions the analyzer receives as they are: the parser,
    [ast.unparse], and [str()] of an object that is no constant (it shows a
    memory address). *)
Record runtime : Type := {
  ast_parse : string -> parse_outcome;
  ast_unparse : value -> result string;
  object_str : value -> string
}.

(** The text an f-string puts for a value. *)
Definition format_value (py : runtime) (v : value) : string :=
  match v with
  | VPrim p => prim_str p
  | _ => object_str py v
  end.

Definition format_lineno (l : option Z) : string :=
  match l with
  | Some z => str_of_Z z
  | None => "None"
  end.

(** ** [ast_analyzer.py] *)

(** The records of the structure report. *)
Record function_info : Type := {
  fn_name : value;
  fn_lineno : Z;
  fn_args : list value;
  fn_returns : option string;
  fn_decorators : list string;
  fn_has_docstring : bool
}.

Record class_info : Type := {
  cl_name : value;
  cl_lineno : Z;
  cl_bases : list string;
  cl_methods : list value;
  cl_has_docstring : bool
}.

Record import_info : Type := {
  im_module : value;
  im_alias : value;
  im_lineno : Z
}.

Record structure : Type := {
  functions : list function_info;
  classes : list class_info;
  imports : list import_info;
  globals : list value
}.

Record metrics : Type := {
  total_lines : nat;
  code_lines : nat;
  comment_lines : nat;
  blank_lines : nat;
  function_count : nat;
  class_count : nat;
  import_count : nat;
  max_nesting_depth : nat
}.

(** What [get_structure] and [get_metrics] return: the report, or the dict
    [{"error": ...}] when there is no tree. *)
Inductive report (A : Type) : Type :=
| NoAst (error : string)
| Report (r : A).

Arguments NoAst {A} error.
Arguments Report {A} r.

(** The state of an [ASTAnalyzer]. *)
Record ASTAnalyzer : Type := {
  source_code : string;
  tree : option node;
  errors : list string
}.

(** [ASTAnalyzer.__init__]. *)
Definition init (source_code : string) : ASTAnalyzer :=
  {| source_code := source_code; tree := None; errors := [] |}.

(** [ast.get_docstring(node) is not None], for a node that is a function or
    a class definition. *)
Definition has_docstring (n : node) : result bool :=
  body <- getattr n "body" ;;
  if truthy body then
    first <- first_item body ;;
    if isinstance first "Expr" then
      v <- attr first "value" ;;
      if isinstance v "Constant" then
        text <- attr v "value" ;; Ok (is_str text)
      else Ok false
    else Ok false
  else Ok false.

Definition add_function (s : structure) (f : function_info) : structure :=
  {| functions := functions s ++ [f]; classes := classes s;
     imports := imports s; globals := globals s |}.

Definition add_class (s : structure) (c : class_info) : structure :=
  {| functions := functions s; classes := classes s ++ [c];
     imports := imports s; globals := globals s |}.

Definition add_import (s : structure) (i : import_info) : structure :=
  {| functions := functions s; classes := classes s;
     imports := imports s ++ [i]; globals := globals s |}.

Section Analyzer.

Variable py : runtime.

(** [ASTAnalyzer.parse]: the result and the analyzer afterwards. *)
Definition parse (self : ASTAnalyzer) : bool * ASTAnalyzer :=
  match ast_parse py (source_code self) with
  | Parsed t =>
      (true, {| source_code := source_code self; tree := Some t;
                errors := errors self |})
  | SyntaxError l msg =>
      (false, {| source_code := source_code self; tree := tree self;
                 errors := errors self
                   ++ ["Syntax error at line " +++ format_lineno l +++ ": " +++ msg] |})
  | ParseException text =>
      (false, {| source_code := source_code self; tree := tree self;
                 errors := errors self ++ ["Parse error: " +++ text] |})
  end.

(** The dict appended for a [FunctionDef]. *)
Definition function_record (n : node) : result function_info :=
  name <- getattr n "name" ;;
  lineno <- lineno_of n ;;
  arguments <- getattr n "args" ;;
  arg_list <- attr arguments "args" ;;
  arg_items <- iterate arg_list ;;
  args <- map_result (fun a => attr a "arg") arg_items ;;
  returns <- getattr n "returns" ;;
  returns_text <- (if truthy returns
                   then t <- ast_unparse py returns ;; Ok (Some t)
                   else Ok None) ;;
  decorator_list <- getattr n "decorator_list" ;;
  decorator_items <- iterate decorator_list ;;
  decorators <- map_result (ast_unparse py) decorator_items ;;
  doc <- has_docstring n ;;
  Ok {| fn_name := name; fn_lineno := lineno; fn_args := args;
        fn_returns := returns_text; fn_decorators := decorators;
        fn_has_docstring := doc |}.

(** The dict appended for a [ClassDef]. *)
Definition class_record (n : node) : result class_info :=
  name <- getattr n "name" ;;
  lineno <- lineno_of n ;;
  bases <- getattr n "bases" ;;
  base_items <- iterate bases ;;
  base_texts <- map_result (ast_unparse py) base_items ;;
  body <- getattr n "body" ;;
  body_items <- iterate body ;;
  methods <- map_result (fun item => attr item "name")
               (filter (fun item => isinstance item "FunctionDef") body_items) ;;
  doc <- has_docstring n ;;
  Ok {| cl_name := name; cl_lineno := lineno; cl_bases := base_texts;
        cl_methods := methods; cl_has_docstring := doc |}.

(** The dict appended for one alias of an [Import]. *)
Definition import_record (n : node) (alias : value) : result import_info :=
  name <- attr alias "name" ;;
  asname <- attr alias "asname" ;;
  lineno <- lineno_of n ;;
  Ok {| im_module := name; im_alias := asname; im_lineno := lineno |}.

(** The dict appended for one alias of an [ImportFrom]. *)
Definition import_from_record (n : node) (alias : value) : result import_info :=
  module <- getattr n "module" ;;
  name <- attr alias "name" ;;
  asname <- attr alias "asname" ;;
  lineno <- lineno_of n ;;
  Ok {| im_module :=
          VPrim (PStr (format_value py module +++ "." +++ format_value py name));
        im_alias := asname; im_lineno := lineno |}.

(** The body of the loop of [get_structure]. *)
Definition structure_step (n : node) (s : structure) : result structure :=
  if isinstance (VNode n) "FunctionDef" then
    f <- function_record n ;; Ok (add_function s f)
  else if isinstance (VNode n) "ClassDef" then
    c <- class_record n ;; Ok (add_class s c)
  else if isinstance (VNode n) "Import" || isinstance (VNode n) "ImportFrom" then
    if isinstance (VNode n) "Import" then
      names <- getattr n "names" ;;
      aliases <- iterate names ;;
      for_each aliases
        (fun alias s => i <- import_record n alias ;; Ok (add_import s i)) s
    else
      names <- getattr n "names" ;;
      aliases <- iterate names ;;
      for_each aliases
        (fun alias s => i <- import_from_record n alias ;; Ok (add_import s i)) s
  else Ok s.

(** [ASTAnalyzer.get_structure]. *)
Definition get_structure (self : ASTAnalyzer) : result (report structure) :=
  match tree self with
  | None => Ok (NoAst "No AST available. Call parse() first.")
  | Some t =>
      s <- for_each (walk t) structure_step
             {| functions := []; classes := []; imports := []; globals := [] |} ;;
      Ok (Report s)
  end.

(** The number of the lines that satisfy [p]: [sum(1 for line in lines if p)]. *)
Definition count_lines (p : string -> bool) (lines : list string) : nat :=
  List.length (filter p lines).

(** [ASTAnalyzer._count_code_lines]. *)
Definition _count_code_lines (self : ASTAnalyzer) : nat :=
  let lines := splitlines (source_code self) in
  count_lines
    (fun line => nonempty (strip line) && negb (startswith (strip line) "#"))
    lines.

(** [ASTAnalyzer._count_comment_lines]. *)
Definition _count_comment_lines (self : ASTAnalyzer) : nat :=
  let lines := splitlines (source_code self) in
  count_lines (fun line => startswith (strip line) "#") lines.

(** [ASTAnalyzer._count_blank_lines]. *)
Definition _count_blank_lines (self : ASTAnalyzer) : nat :=
  let lines := splitlines (source_code self) in
  count_lines (fun line => negb (nonempty (strip line))) lines.

(** The classes whose nodes open a level of nesting. *)
Definition nesting_classes : list string :=
  ["If"; "For"; "While"; "With"; "Try"; "FunctionDef"; "ClassDef"].

Definition is_nesting (n : node) : bool :=
  existsb (isinstance (VNode n)) nesting_classes.

(** [ASTAnalyzer._calculate_max_depth]. *)
Fixpoint _calculate_max_depth (node : node) (current_depth : nat)
    {struct node} : nat :=
  for_child_nodes node
    (fun child max_depth =>
       if is_nesting child
       then Nat.max max_depth (_calculate_max_depth child (current_depth + 1))
       else Nat.max max_depth (_calculate_max_depth child current_depth))
    current_depth.

(** The body of the counting loop of [get_metrics]. *)
Definition metrics_step (m : metrics) (n : node) : metrics :=
  if isinstance (VNode n) "FunctionDef" then
    {| total_lines := total_lines m; code_lines := code_lines m;
       comment_lines := comment_lines m; blank_lines := blank_lines m;
       function_count := function_count m + 1; class_count := class_count m;
       import_count := import_count m;
       max_nesting_depth := max_nesting_depth m |}
  else if isinstance (VNode n) "ClassDef" then
    {| total_lines := total_lines m; code_lines := code_lines m;
       comment_lines := comment_lines m; blank_lines := blank_lines m;
       function_count := function_count m; class_count := class_count m + 1;
       import_count := import_count m;
       max_nesting_depth := max_nesting_depth m |}
  else if isinstance (VNode n) "Import" || isinstance (VNode n) "ImportFrom" then
    {| total_lines := total_lines m; code_lines := code_lines m;
       comment_lines := comment_lines m; blank_lines := blank_lines m;
       function_count := function_count m; class_count := class_count m;
       import_count := import_count m + 1;
       max_nesting_depth := max_nesting_depth m |}
  else m.

Definition set_max_nesting_depth (m : metrics) (d : nat) : metrics :=
  {| total_lines := total_lines m; code_lines := code_lines m;
     comment_lines := comment_lines m; blank_lines := blank_lines m;
     function_count := function_count m; class_count := class_count m;
     import_count := import_count m; max_nesting_depth := d |}.

(** [ASTAnalyzer.get_metrics]. *)
Definition get_metrics (self : ASTAnalyzer) : report metrics :=
  match tree self with
  | None => NoAst "No AST available"
  | Some t =>
      let m := {| total_lines := List.length (splitlines (source_code self));
                  code_lines := _count_code_lines self;
                  comment_lines := _count_comment_lines self;
                  blank_lines := _count_blank_lines self;
                  function_count := 0; class_count := 0; import_count := 0;
                  max_nesting_depth := 0 |} in
      let m := fold_left metrics_step (walk t) m in
      Report (set_max_nesting_depth m (_calculate_max_depth t 0))
  end.

(** [ASTAnalyzer._ast_to_dict]. *)
Fixpoint _ast_to_dict (node : node) : list (string * obj) :=
  match node with
  | Node cls lineno col_offset fields =>
      let result := [("type", ORaw (VPrim (PStr cls)))] in
      let result :=
        match lineno with
        | Some l => dict_set result "lineno" (ORaw (VPrim (PInt l)))
        | None => result
        end in
      let result :=
        match col_offset with
        | Some c => dict_set result "col_offset" (ORaw (VPrim (PInt c)))
        | None => result
        end in
      fold_left
        (fun result f =>
           match snd f with
           | VList items =>
               dict_set result (fst f)
                 (OList (map (fun item =>
                                match item with
                                | VNode c => ODict (_ast_to_dict c)
                                | _ => ORaw item
                                end) items))
           | VNode c => dict_set result (fst f) (ODict (_ast_to_dict c))
           | VPrim PNone => dict_set result (fst f) (ORaw (VPrim PNone))
           | VPrim p => dict_set result (fst f) (ORaw (VPrim (PStr (prim_str p))))
           end)
        fields result
  end.

(** [ASTAnalyzer.get_ast_json]: the object whose JSON text is returned. *)
Definition get_ast_json (self : ASTAnalyzer) : result obj :=
  match tree self with
  | None => Ok (ODict [("error", ORaw (VPrim (PStr "No AST available")))])
  | Some t =>
      let d := ODict (_ast_to_dict t) in
      if obj_serializable d then Ok d else Raise not_serializable
  end.

(** The values of the dict [analyze_code] encodes. *)
Inductive entry : Type :=
| EBool (b : bool)
| EErrors (messages : list string)
| EStructure (s : report structure)
| EMetrics (m : report metrics)
| EAst (o : obj).

Definition structure_serializable (s : structure) : bool :=
  forallb (fun f => json_serializable (fn_name f)
                    && forallb json_serializable (fn_args f)) (functions s)
  && forallb (fun c => json_serializable (cl_name c)
                       && forallb json_serializable (cl_methods c)) (classes s)
  && forallb (fun i => json_serializable (im_module i)
                       && json_serializable (im_alias i)) (imports s)
  && forallb json_serializable (globals s).

(** [json.dumps(results)] accepts the dict. *)
Definition entry_serializable (e : entry) : bool :=
  match e with
  | EStructure (Report s) => structure_serializable s
  | EAst o => obj_serializable o
  | _ => true
  end.

(** [json.dumps(d)] for the dict of results: the dict whose text is returned,
    or the [TypeError] of the encoder. *)
Definition json_dumps (d : list (string * entry)) : result (list (string * entry)) :=
  if forallb (fun kv => entry_serializable (snd kv)) d
  then Ok d else Raise not_serializable.

(** [analyze_code]: the dict whose JSON text is returned. *)
Definition analyze_code (source_code : string) : list (string * entry) :=
  let analyzer := init source_code in
  let (parsed, analyzer) := parse analyzer in
  if negb parsed then
    [("success", EBool false); ("errors", EErrors (errors analyzer))]
  else
    match
      (structure <- get_structure analyzer ;;
       let metrics := get_metrics analyzer in
       ast <- get_ast_json analyzer ;;
       json_dumps [("success", EBool true);
                   ("structure", EStructure structure);
                   ("metrics", EMetrics metrics);
                   ("ast", EAst ast)])
    with
    | Ok results => results
    | Raise e => [("success", EBool false); ("errors", EErrors [exc_str e])]
    end.

End Analyzer.

(** ** Regular expressions

    The patterns of the scanner, as [re] compiles them: sets of characters,
    sequence, choice and repetition.  [re.search] only asks whether some part
    of the line matches, which derivatives decide. *)
Inductive regex : Type :=
| RFail
| REmpty
| RSet (p : ascii -> bool)
| RSeq (r1 r2 : regex)
| RAlt (r1 r2 : regex)
| RStar (r : regex).

Fixpoint nullable (r : regex) : bool :=
  match r with
  | RFail => false
  | REmpty => true
  | RSet _ => false
  | RSeq r1 r2 => nullable r1 && nullable r2
  | RAlt r1 r2 => nullable r1 || nullable r2
  | RStar _ => true
  end.

Definition seq (r1 r2 : regex) : regex :=
  match r1, r2 with
  | RFail, _ | _, RFail => RFail
  | REmpty, r | r, REmpty => r
  | _, _ => RSeq r1 r2
  end.

Definition alt (r1 r2 : regex) : regex :=
  match r1, r2 with
  | RFail, r | r, RFail => r
  | _, _ => RAlt r1 r2
  end.

(** What is left of [r] after the character [c]. *)
Fixpoint deriv (c : ascii) (r : regex) : regex :=
  match r with
  | RFail => RFail
  | REmpty => RFail
  | RSet p => if p c then REmpty else RFail
  | RSeq r1 r2 =>
      if nullable r1
      then alt (seq (deriv c r1) r2) (deriv c r2)
      else seq (deriv c r1) r2
  | RAlt r1 r2 => alt (deriv c r1) (deriv c r2)
  | RStar r1 => seq (deriv c r1) (RStar r1)
  end.

(** [re.match(r, s) is not None]: a prefix of [s] matches. *)
Fixpoint re_match (r : regex) (s : string) : bool :=
  nullable r
  || match s with
     | EmptyString => false
     | String c rest => re_match (deriv c r) rest
     end.

(** [re.search(r, s) is not None]. *)
Fixpoint re_search (r : regex) (s : string) : bool :=
  re_match r s
  || match s with
     | EmptyString => false
     | String _ rest => re_search r rest
     end.

(** One character of a pattern compiled with [re.IGNORECASE]. *)
Definition lit (c : ascii) : regex :=
  RSet (fun x => Ascii.eqb (to_lower x) (to_lower c)).

(** A literal word of a pattern compiled with [re.IGNORECASE]. *)
Fixpoint word (s : string) : regex :=
  match s with
  | EmptyString => REmpty
  | String c rest => RSeq (lit c) (word rest)
  end.

Definition opt (r : regex) : regex := RAlt REmpty r.
Definition plus (r : regex) : regex := RSeq r (RStar r).

(** [\w]: a letter, a digit or the underscore. *)
Definition is_word_char (c : ascii) : bool :=
  let k := nat_of_ascii c in
  ((48 <=? k) && (k <=? 57)) || is_upper c || is_lower c || (k =? 95)
  || (k =? 170) || (k =? 178) || (k =? 179) || (k =? 181) || (k =? 185)
  || (k =? 186) || ((188 <=? k) && (k <=? 190))
  || ((192 <=? k) && (k <=? 214)) || ((216 <=? k) && (k <=? 246))
  || (248 <=? k).

(** A single or a double quote. *)
Definition is_quote (c : ascii) : bool :=
  Ascii.eqb c quote_char || Ascii.eqb c dquote_char.

(** The end the five patterns share: white space, an equals sign, white
    space, a quote, once or more a word character or one of [extra], and a
    quote. *)
Definition assigned_literal (extra : string) : regex :=
  RSeq (RStar (RSet is_space))
    (RSeq (lit "=")
       (RSeq (RStar (RSet is_space))
          (RSeq (RSet is_quote)
             (RSeq (plus (RSet (fun c => is_word_char c || has_char c extra)))
                (RSet is_quote))))).

(** An optional underscore or hyphen. *)
Definition opt_sep : regex := opt (RSet (fun c => has_char c "_-")).

(** ** [security_scanner.py] *)

(** The severity levels, the class constants of [SecurityScanner]. *)
Inductive severity_level : Type := CRITICAL | HIGH | MEDIUM | LOW | INFO.

Definition severity_eqb (a b : severity_level) : bool :=
  match a, b with
  | CRITICAL, CRITICAL | HIGH, HIGH | MEDIUM, MEDIUM | LOW, LOW | INFO, INFO =>
      true
  | _, _ => false
  end.

(** One entry of [self.issues]. *)
Record issue : Type := {
  severity : severity_level;
  title : string;
  description : string;
  lineno : Z;
  recommendation : string
}.

(** [SecurityScanner._add_issue]: the list [self.issues] afterwards. *)
Definition _add_issue (issues : list issue) (severity : severity_level)
    (title description : string) (lineno : Z) (recommendation : string)
    : list issue :=
  issues ++ [{| severity := severity; title := title;
                description := description; lineno := lineno;
                recommendation := recommendation |}].

(** [l.index(x)]: the place of the first [x]; the length of [l] stands for
    the [ValueError] of a list without [x]. *)
Fixpoint index (l : list severity_level) (x : severity_level) : nat :=
  match l with
  | [] => 0
  | y :: rest => if severity_eqb y x then 0 else S (index rest x)
  end.

(** [list.sort(key=...)] is stable: an element goes before the first one
    with a greater key, after those with the same key. *)
Fixpoint insert_by_key {A : Type} (key : A -> nat) (x : A) (l : list A)
    : list A :=
  match l with
  | [] => [x]
  | y :: rest =>
      if key x <=? key y then x :: l else y :: insert_by_key key x rest
  end.

Fixpoint sort_by_key {A : Type} (key : A -> nat) (l : list A) : list A :=
  match l with
  | [] => []
  | x :: rest => insert_by_key key x (sort_by_key key rest)
  end.

(** The table [dangerous_funcs]: severity and description by name. *)
Definition dangerous_funcs : list (string * (severity_level * string)) :=
  [("eval", (HIGH, "Arbitrary code execution risk"));
   ("exec", (HIGH, "Arbitrary code execution risk"));
   ("compile", (MEDIUM, "Dynamic code compilation"));
   ("__import__", (MEDIUM, "Dynamic import can load malicious code"))].

(** The set [weak_algorithms]. *)
Definition weak_algorithms : list string := ["md5"; "sha1"].

(** The list [secret_patterns], each pattern as [re] compiles it. *)
Definition secret_patterns : list (regex * string) :=
  [(RSeq (word "password") (assigned_literal "!@#$%^&*"), "Password");
   (RSeq (word "api") (RSeq opt_sep (RSeq (word "key") (assigned_literal "-"))),
    "API Key");
   (RSeq (word "secret") (RSeq opt_sep (RSeq (word "key") (assigned_literal "-"))),
    "Secret Key");
   (RSeq (word "token") (assigned_literal ".-"), "Token");
   (RSeq (word "aws") (RSeq opt_sep (RSeq (word "secret") (assigned_literal "/+"))),
    "AWS Secret")].

(** The list [severity_order] of [scan]. *)
Definition severity_order : list severity_level :=
  [CRITICAL; HIGH; MEDIUM; LOW; INFO].

(** The key of the sort of [scan]. *)
Definition severity_rank (x : issue) : nat :=
  index severity_order (severity x).

(** [enumerate(l, start)]. *)
Fixpoint enumerate {A : Type} (l : list A) (start : Z) : list (Z * A) :=
  match l with
  | [] => []
  | x :: rest => (start, x) :: enumerate rest (start + 1)%Z
  end.

Definition unhashable (v : value) : exc :=
  TypeError ("unhashable type: '" +++ type_name v +++ "'").

(** The loop of [_contains_string] over the nodes [ast.walk] yields. *)
Fixpoint contains_string_loop (children : list node) : result bool :=
  match children with
  | [] => Ok false
  | child :: rest =>
      if isinstance (VNode child) "Constant" then
        v <- getattr child "value" ;;
        if is_str v then Ok true else contains_string_loop rest
      else contains_string_loop rest
  end.

(** [SecurityScanner._contains_string]. *)
Definition _contains_string (v : value) : result bool :=
  match v with
  | VNode n => contains_string_loop (walk n)
  | _ => Raise (no_attribute v "_fields")
  end.

Section Scanner.

Variable source_code : string.
Variable tree : node.

(** The body of the loop of [_check_dangerous_functions]. *)
Definition dangerous_functions_step (node : node) (issues : list issue)
    : result (list issue) :=
  if isinstance (VNode node) "Call" then
    func <- getattr node "func" ;;
    if isinstance func "Name" then
      func_name <- attr func "id" ;;
      match func_name with
      | VPrim (PStr name) =>
          match dict_get dangerous_funcs name with
          | Some (severity, desc) =>
              lineno <- lineno_of node ;;
              Ok (_add_issue issues severity
                    ("Dangerous function: " +++ name +++ "()")
                    desc lineno
                    ("Avoid using " +++ name +++ "(). "
                     +++ "Consider safer alternatives like ast.literal_eval() for eval(), "
                     +++ "or refactor to eliminate dynamic code execution."))
          | None => Ok issues
          end
      | VList _ => Raise (unhashable func_name)
      | _ => Ok issues
      end
    else Ok issues
  else Ok issues.

(** [SecurityScanner._check_dangerous_functions]. *)
Definition _check_dangerous_functions (issues : list issue)
    : result (list issue) :=
  for_each (walk tree) dangerous_functions_step issues.

(** The body of the loop of [_check_sql_injection]. *)
Definition sql_injection_step (node : node) (issues : list issue)
    : result (list issue) :=
  if isinstance (VNode node) "Call" then
    func <- getattr node "func" ;;
    if isinstance func "Attribute" then
      a <- attr func "attr" ;;
      args <- (if eq_str a "execute" then getattr node "args"
               else Ok (VPrim (PBool false))) ;;
      if truthy args then
        first_arg <- first_item args ;;
        if isinstance first_arg "JoinedStr" then
          lineno <- lineno_of node ;;
          Ok (_add_issue issues HIGH
                "SQL Injection: f-string in SQL query"
                "Using f-strings for SQL queries allows injection attacks"
                lineno
                ("Use parameterized queries with placeholders: "
                 +++ "execute('SELECT * FROM users WHERE id = ?', [user_id])"))
        else
          is_concat <- (if isinstance first_arg "BinOp"
                        then op <- attr first_arg "op" ;; Ok (isinstance op "Add")
                        else Ok false) ;;
          if is_concat then
            has_string <- _contains_string first_arg ;;
            if has_string then
              lineno <- lineno_of node ;;
              Ok (_add_issue issues HIGH
                    "SQL Injection: String concatenation in query"
                    "String concatenation in SQL queries is unsafe"
                    lineno
                    "Use parameterized queries instead of concatenation")
            else Ok issues
          else Ok issues
      else Ok issues
    else Ok issues
  else Ok issues.

(** [SecurityScanner._check_sql_injection]. *)
Definition _check_sql_injection (issues : list issue) : result (list issue) :=
  for_each (walk tree) sql_injection_step issues.

(** The body of the loop of [_check_path_traversal]. *)
Definition path_traversal_step (node : node) (issues : list issue)
    : result (list issue) :=
  if isinstance (VNode node) "Call" then
    func <- getattr node "func" ;;
    if isinstance func "Name" then
      name <- attr func "id" ;;
      if in_tuple name ["open"; "read"; "write"] then
        args <- getattr node "args" ;;
        flagged <- (if truthy args
                    then first_arg <- first_item args ;;
                         Ok (isinstance first_arg "Name"
                             || isinstance first_arg "BinOp")
                    else Ok false) ;;
        if flagged then
          lineno <- lineno_of node ;;
          Ok (_add_issue issues MEDIUM
                "Potential path traversal"
                "User-controlled file paths can lead to unauthorized access"
                lineno
                ("Validate and sanitize file paths. Use os.path.basename() "
                 +++ "or pathlib.Path.resolve() to prevent directory traversal."))
        else Ok issues
      else Ok issues
    else Ok issues
  else Ok issues.

(** [SecurityScanner._check_path_traversal]. *)
Definition _check_path_traversal (issues : list issue) : result (list issue) :=
  for_each (walk tree) path_traversal_step issues.

(** [isinstance(func.value, ast.Name) and func.value.id == module], the test
    three rules make on the callee of a call. *)
Definition is_attribute_of (func : value) (module : string) : result bool :=
  v <- attr func "value" ;;
  if isinstance v "Name" then
    name <- attr v "id" ;; Ok (eq_str name module)
  else Ok false.

(** The body of the loop of [_check_unsafe_deserialization]. *)
Definition unsafe_deserialization_step (node : node) (issues : list issue)
    : result (list issue) :=
  if isinstance (VNode node) "Call" then
    func <- getattr node "func" ;;
    if isinstance func "Attribute" then
      of_pickle <- is_attribute_of func "pickle" ;;
      loads <- (if of_pickle
                then a <- attr func "attr" ;; Ok (in_tuple a ["loads"; "load"])
                else Ok false) ;;
      if loads then
        lineno <- lineno_of node ;;
        Ok (_add_issue issues HIGH
              "Unsafe deserialization: pickle"
              "pickle.loads() can execute arbitrary code from untrusted data"
              lineno
              ("Use JSON or other safe serialization formats. "
               +++ "If pickle is required, ensure data source is trusted and verified."))
      else Ok issues
    else Ok issues
  else Ok issues.

(** [SecurityScanner._check_unsafe_deserialization]. *)
Definition _check_unsafe_deserialization (issues : list issue)
    : result (list issue) :=
  for_each (walk tree) unsafe_deserialization_step issues.

(** The body of the inner loop of [_check_hardcoded_secrets]. *)
Definition secret_pattern_step (lineno : Z) (line : string)
    (pattern : regex * string) (issues : list issue) : result (list issue) :=
  let (pattern, secret_type) := pattern in
  if re_search pattern line then
    Ok (_add_issue issues CRITICAL
          ("Hardcoded secret: " +++ secret_type)
          (secret_type +++ " found in source code")
          lineno
          ("Move secrets to environment variables or secure vault. "
           +++ "Use os.getenv() or python-dotenv to load from .env files."))
  else Ok issues.

(** [SecurityScanner._check_hardcoded_secrets]. *)
Definition _check_hardcoded_secrets (issues : list issue)
    : result (list issue) :=
  let lines := splitlines source_code in
  for_each (enumerate lines 1%Z)
    (fun numbered issues =>
       for_each secret_patterns
         (secret_pattern_step (fst numbered) (snd numbered)) issues)
    issues.

(** The body of the loop of [_check_weak_crypto]. *)
Definition weak_crypto_step (node : node) (issues : list issue)
    : result (list issue) :=
  if isinstance (VNode node) "Call" then
    func <- getattr node "func" ;;
    if isinstance func "Attribute" then
      of_hashlib <- is_attribute_of func "hashlib" ;;
      if of_hashlib then
        a <- attr func "attr" ;;
        match a with
        | VPrim (PStr algorithm) =>
            if existsb (String.eqb algorithm) weak_algorithms then
              lineno <- lineno_of node ;;
              Ok (_add_issue issues MEDIUM
                    ("Weak cryptographic algorithm: " +++ algorithm)
                    (upper algorithm +++ " is cryptographically weak")
                    lineno
                    ("Use stronger algorithms like SHA-256 or SHA-512 "
                     +++ "for cryptographic purposes."))
            else Ok issues
        | VList _ => Raise (unhashable a)
        | _ => Ok issues
        end
      else Ok issues
    else Ok issues
  else Ok issues.

(** [SecurityScanner._check_weak_crypto]. *)
Definition _check_weak_crypto (issues : list issue) : result (list issue) :=
  for_each (walk tree) weak_crypto_step issues.

(** The body of the loop over [node.keywords] in [_check_shell_injection]. *)
Definition shell_keyword_step (node : node) (keyword : value)
    (issues : list issue) : result (list issue) :=
  arg <- attr keyword "arg" ;;
  is_shell_constant <- (if eq_str arg "shell"
                        then v <- attr keyword "value" ;;
                             Ok (isinstance v "Constant")
                        else Ok false) ;;
  if is_shell_constant then
    v <- attr keyword "value" ;;
    c <- attr v "value" ;;
    if is_True c then
      lineno <- lineno_of node ;;
      Ok (_add_issue issues HIGH
            "Shell injection risk: shell=True"
            "subprocess with shell=True is vulnerable to injection"
            lineno
            "Set shell=False and pass command as list of arguments")
    else Ok issues
  else Ok issues.

(** The body of the loop of [_check_shell_injection].  The [elif] belongs to
    the [if] that tests whether the callee is an attribute. *)
Definition shell_injection_step (node : node) (issues : list issue)
    : result (list issue) :=
  if isinstance (VNode node) "Call" then
    func <- getattr node "func" ;;
    if isinstance func "Attribute" then
      of_os <- is_attribute_of func "os" ;;
      system <- (if of_os
                 then a <- attr func "attr" ;; Ok (eq_str a "system")
                 else Ok false) ;;
      if system then
        lineno <- lineno_of node ;;
        Ok (_add_issue issues HIGH
              "Shell injection risk: os.system()"
              "os.system() with user input can execute arbitrary commands"
              lineno
              ("Use subprocess.run() with shell=False and argument list. "
               +++ "Validate and sanitize all user input."))
      else Ok issues
    else
      runs_process <- (if isinstance func "Attribute"
                       then a <- attr func "attr" ;;
                            Ok (in_tuple a ["call"; "run"; "Popen"])
                       else Ok false) ;;
      if runs_process then
        keywords <- getattr node "keywords" ;;
        items <- iterate keywords ;;
        for_each items (shell_keyword_step node) issues
      else Ok issues
  else Ok issues.

(** [SecurityScanner._check_shell_injection]. *)
Definition _check_shell_injection (issues : list issue) : result (list issue) :=
  for_each (walk tree) shell_injection_step issues.

(** The first part of [scan]: [self.issues] when the seven checks have run,
    before it is sorted. *)
Definition run_checks : result (list issue) :=
  issues <- _check_dangerous_functions [] ;;
  issues <- _check_sql_injection issues ;;
  issues <- _check_path_traversal issues ;;
  issues <- _check_unsafe_deserialization issues ;;
  issues <- _check_hardcoded_secrets issues ;;
  issues <- _check_weak_crypto issues ;;
  _check_shell_injection issues.

(** [SecurityScanner.scan]. *)
Definition scan : result (list issue) :=
  issues <- run_checks ;;
  Ok (sort_by_key severity_rank issues).


End Scanner.

(** What each of the seven checks finds when it starts from an empty list,
    in the order [scan] runs them. *)
Definition rule_outputs (source_code : string) (tree : node)
    : result (list (list issue)) :=
  dangerous <- _check_dangerous_functions tree [] ;;
  sql <- _check_sql_injection tree [] ;;
  paths <- _check_path_traversal tree [] ;;
  pickles <- _check_unsafe_deserialization tree [] ;;
  secrets <- _check_hardcoded_secrets source_code [] ;;
  hashes <- _check_weak_crypto tree [] ;;
  shells <- _check_shell_injection tree [] ;;
  Ok [dangerous; sql; paths; pickles; secrets; hashes; shells].

(** ** Trees of the grammar

    The nodes [ast.parse] builds for the classes the examples use, each with
    the fields of its class in the order of [_fields]; the first two
    arguments are [lineno] and [col_offset]. *)
Definition at_position (cls : string) (l c : Z) (fields : list (string * value))
    : node :=
  Node cls (Some l) (Some c) fields.

Definition node_list (ns : list node) : value := VList (map VNode ns).

(** [Load()], [Store()], [Add()]: a node without fields or position. *)
Definition mk_marker (cls : string) : value := VNode (Node cls None None []).

Definition mk_Module (body : list node) : node :=
  Node "Module" None None
    [("body", node_list body); ("type_ignores", VList [])].

Definition mk_Expr (l c : Z) (v : node) : node :=
  at_position "Expr" l c [("value", VNode v)].

Definition mk_Call (l c : Z) (func : node) (args keywords : list node) : node :=
  at_position "Call" l c
    [("func", VNode func); ("args", node_list args);
     ("keywords", node_list keywords)].

Definition mk_Name (l c : Z) (id ctx : string) : node :=
  at_position "Name" l c [("id", VPrim (PStr id)); ("ctx", mk_marker ctx)].

Definition mk_Attribute (l c : Z) (v : node) (attr ctx : string) : node :=
  at_position "Attribute" l c
    [("value", VNode v); ("attr", VPrim (PStr attr)); ("ctx", mk_marker ctx)].

Definition mk_Constant (l c : Z) (v : prim) : node :=
  at_position "Constant" l c [("value", VPrim v); ("kind", VPrim PNone)].

Definition mk_keyword (l c : Z) (arg : string) (v : node) : node :=
  at_position "keyword" l c [("arg", VPrim (PStr arg)); ("value", VNode v)].

Definition mk_alias (l c : Z) (name : string) (asname : prim) : node :=
  at_position "alias" l c
    [("name", VPrim (PStr name)); ("asname", VPrim asname)].

Definition mk_Import (l c : Z) (names : list node) : node :=
  at_position "Import" l c [("names", node_list names)].

Definition mk_ImportFrom (l c : Z) (module : prim) (names : list node)
    (level : Z) : node :=
  at_position "ImportFrom" l c
    [("module", VPrim module); ("names", node_list names);
     ("level", VPrim (PInt level))].

Definition mk_Assign (l c : Z) (targets : list node) (v : node) : node :=
  at_position "Assign" l c
    [("targets", node_list targets); ("value", VNode v);
     ("type_comment", VPrim PNone)].

Definition mk_arg (l c : Z) (arg : string) (annotation : value) : node :=
  at_position "arg" l c
    [("arg", VPrim (PStr arg)); ("annotation", annotation);
     ("type_comment", VPrim PNone)].

Definition mk_arguments (args defaults : list node) : node :=
  Node "arguments" None None
    [("posonlyargs", VList []); ("args", node_list args);
     ("vararg", VPrim PNone); ("kwonlyargs", VList []);
     ("kw_defaults", VList []); ("kwarg", VPrim PNone);
     ("defaults", node_list defaults)].

Definition mk_FunctionDef (l c : Z) (name : string) (args : node)
    (body decorator_list : list node) (returns : value) : node :=
  at_position "FunctionDef" l c
    [("name", VPrim (PStr name)); ("args", VNode args);
     ("body", node_list body); ("decorator_list", node_list decorator_list);
     ("returns", returns); ("type_comment", VPrim PNone)].

Definition mk_ClassDef (l c : Z) (name : string)
    (bases keywords body decorator_list : list node) : node :=
  at_position "ClassDef" l c
    [("name", VPrim (PStr name)); ("bases", node_list bases);
     ("keywords", node_list keywords); ("body", node_list body);
     ("decorator_list", node_list decorator_list)].

Definition mk_If (l c : Z) (test : node) (body orelse : list node) : node :=
  at_position "If" l c
    [("test", VNode test); ("body", node_list body);
     ("orelse", node_list orelse)].

Definition mk_For (l c : Z) (target iter : node) (body orelse : list node)
    : node :=
  at_position "For" l c
    [("target", VNode target); ("iter", VNode iter); ("body", node_list body);
     ("orelse", node_list orelse); ("type_comment", VPrim PNone)].

Definition mk_Return (l c : Z) (v : value) : node :=
  at_position "Return" l c [("value", v)].

Definition mk_BinOp (l c : Z) (left : node) (op : string) (right : node)
    : node :=
  at_position "BinOp" l c
    [("left", VNode left); ("op", mk_marker op); ("right", VNode right)].

Definition mk_Pass (l c : Z) : node := at_position "Pass" l c [].

Definition mk_UnaryOp (l c : Z) (op : string) (operand : node) : node :=
  at_position "UnaryOp" l c [("op", mk_marker op); ("operand", VNode operand)].

(** The tree of an expression with [k] minus signs before it, the first in
    column [c] of line 1. *)
Fixpoint nested_minus (k : nat) (c : Z) (operand : node) : node :=
  match k with
  | O => operand
  | S k' => mk_UnaryOp 1 c "USub" (nested_minus k' (c + 1)%Z operand)
  end.

(** The tree of the name [x] after [k] minus signs. *)
Definition tree_minus (k : nat) : node :=
  mk_Module
    [mk_Expr 1 0 (nested_minus k 0 (mk_Name 1 (Z.of_nat k) "x" "Load"))].

(** The tree of [x = 0xf...f], a number of [k] hexadecimal digits. *)
Definition tree_hex (k : nat) : node :=
  mk_Module
    [mk_Assign 1 0 [mk_Name 1 0 "x" "Store"]
       (mk_Constant 1 4 (PInt (16 ^ Z.of_nat k - 1)%Z))].

Local Open Scope Z_scope.

(** The tree of
<<
eval(x)
>> *)
Definition tree_eval_x : node :=
  mk_Module
    [mk_Expr 1 0
       (mk_Call 1 0
          (mk_Name 1 0 "eval" "Load")
          [mk_Name 1 5 "x" "Load"]
          [])].

(** The tree of
<<
os.system(cmd)
>> *)
Definition tree_os_system : node :=
  mk_Module
    [mk_Expr 1 0
       (mk_Call 1 0
          (mk_Attribute 1 0
             (mk_Name 1 0 "os" "Load") "system" "Load")
          [mk_Name 1 10 "cmd" "Load"]
          [])].

(** The tree of
<<
subprocess.run(cmd, shell=True)
>> *)
Definition tree_run_shell_true : node :=
  mk_Module
    [mk_Expr 1 0
       (mk_Call 1 0
          (mk_Attribute 1 0
             (mk_Name 1 0 "subprocess" "Load") "run" "Load")
          [mk_Name 1 15 "cmd" "Load"]
          [mk_keyword 1 20 "shell"
             (mk_Constant 1 26 (PBool true))])].

(** The tree of
<<
subprocess.run(cmd, shell=False)
>> *)
Definition tree_run_shell_false : node :=
  mk_Module
    [mk_Expr 1 0
       (mk_Call 1 0
          (mk_Attribute 1 0
             (mk_Name 1 0 "subprocess" "Load") "run" "Load")
          [mk_Name 1 15 "cmd" "Load"]
          [mk_keyword 1 20 "shell"
             (mk_Constant 1 26 (PBool false))])].

(** The tree of
<<
import pickle as p
p.loads(data)
>> *)
Definition tree_pickle_alias : node :=
  mk_Module
    [mk_Import 1 0 [mk_alias 1 7 "pickle" (PStr "p")];
     mk_Expr 2 0
       (mk_Call 2 0
          (mk_Attribute 2 0
             (mk_Name 2 0 "p" "Load") "loads" "Load")
          [mk_Name 2 8 "data" "Load"]
          [])].

(** The tree of
<<
import pickle
pickle.loads(data)
>> *)
Definition tree_pickle_loads : node :=
  mk_Module
    [mk_Import 1 0 [mk_alias 1 7 "pickle" PNone];
     mk_Expr 2 0
       (mk_Call 2 0
          (mk_Attribute 2 0
             (mk_Name 2 0 "pickle" "Load") "loads" "Load")
          [mk_Name 2 13 "data" "Load"]
          [])].

(** The tree of
<<
pickle.loads(x)
eval(y)
>> *)
Definition tree_pickle_then_eval : node :=
  mk_Module
    [mk_Expr 1 0
       (mk_Call 1 0
          (mk_Attribute 1 0
             (mk_Name 1 0 "pickle" "Load") "loads" "Load")
          [mk_Name 1 13 "x" "Load"]
          []);
     mk_Expr 2 0
       (mk_Call 2 0
          (mk_Name 2 0 "eval" "Load")
          [mk_Name 2 5 "y" "Load"]
          [])].

(** The tree of
<<
h = hashlib.md5(x)
password = 'abc123'
eval(y)
>> *)
Definition tree_mixed : node :=
  mk_Module
    [mk_Assign 1 0
       [mk_Name 1 0 "h" "Store"]
       (mk_Call 1 4
          (mk_Attribute 1 4
             (mk_Name 1 4 "hashlib" "Load") "md5" "Load")
          [mk_Name 1 16 "x" "Load"]
          []);
     mk_Assign 2 0
       [mk_Name 2 0 "password" "Store"]
       (mk_Constant 2 11 (PStr "abc123"));
     mk_Expr 3 0
       (mk_Call 3 0
          (mk_Name 3 0 "eval" "Load")
          [mk_Name 3 5 "y" "Load"]
          [])].

(** The tree of
<<
import os
from a import b as c
# shapes

class K(Base):
    'doc'
    def m(self, x) -> int:
        if x:
            for i in x:
                pass
        return 1
>> *)
Definition tree_shapes : node :=
  mk_Module
    [mk_Import 1 0 [mk_alias 1 7 "os" PNone];
     mk_ImportFrom 2 0 (PStr "a")
       [mk_alias 2 14 "b" (PStr "c")] 0;
     mk_ClassDef 5 0 "K"
       [mk_Name 5 8 "Base" "Load"]
       []
       [mk_Expr 6 4
          (mk_Constant 6 4 (PStr "doc"));
        mk_FunctionDef 7 4 "m"
          (mk_arguments [mk_arg 7 10 "self" (VPrim PNone);
              mk_arg 7 16 "x" (VPrim PNone)] [])
          [mk_If 8 8
             (mk_Name 8 11 "x" "Load")
             [mk_For 9 12
                (mk_Name 9 16 "i" "Store")
                (mk_Name 9 21 "x" "Load")
                [mk_Pass 10 16]
                []]
             [];
           mk_Return 11 8 (VNode (mk_Constant 11 15 (PInt 1)))]
          []
          (VNode (mk_Name 7 22 "int" "Load"))]
       []].

(** The tree of
<<
cursor.execute('SELECT * FROM t WHERE id = ' + uid)
f = open(path)
>> *)
Definition tree_sql_open : node :=
  mk_Module
    [mk_Expr 1 0
       (mk_Call 1 0
          (mk_Attribute 1 0
             (mk_Name 1 0 "cursor" "Load") "execute" "Load")
          [mk_BinOp 1 15
             (mk_Constant 1 15 (PStr "SELECT * FROM t WHERE id = ")) "Add"
             (mk_Name 1 47 "uid" "Load")]
          []);
     mk_Assign 2 0
       [mk_Name 2 0 "f" "Store"]
       (mk_Call 2 4
          (mk_Name 2 4 "open" "Load")
          [mk_Name 2 9 "path" "Load"]
          [])].

Local Close Scope Z_scope.

(** ** Notions the properties are stated with *)

(** The nodes of a tree, parents before children: the node itself and the
    nodes of the trees below it. *)
Fixpoint descendants (n : node) : list node :=
  n :: for_child_nodes n (fun child below => below ++ descendants child) [].

(** The paths from the root of a tree down to each of its nodes, each path
    the list of the nodes on it, the root first. *)
Fixpoint paths (n : node) : list (list node) :=
  [n] :: map (cons n)
           (for_child_nodes n (fun child below => below ++ paths child) []).

(** The number of nodes on a path that open a level of nesting. *)
Definition nesting_count (path : list node) : nat :=
  List.length (filter is_nesting path).

(** The number of nodes of a class in a list. *)
Definition count_class (cls : string) (l : list node) : nat :=
  List.length (filter (fun n => isinstance (VNode n) cls) l).

(** The rank of a severity in the final order: CRITICAL is 0, INFO is 4. *)
Definition rank_of (s : severity_level) : nat :=
  match s with
  | CRITICAL => 0
  | HIGH => 1
  | MEDIUM => 2
  | LOW => 3
  | INFO => 4
  end.

(** The findings of one severity, in the order of the list. *)
Definition of_severity (s : severity_level) (l : list issue) : list issue :=
  filter (fun x => severity_eqb (severity x) s) l.

(** No severity below MEDIUM. *)
Definition at_least_medium (x : issue) : Prop :=
  severity x = CRITICAL \/ severity x = HIGH \/ severity x = MEDIUM.

(** The kinds of line the line counts tell apart. *)
Definition is_blank_line (line : string) : bool :=
  (strip line =? "")%string.

Definition is_comment_line (line : string) : bool :=
  startswith (strip line) "#".

Definition is_code_line (line : string) : bool :=
  negb (is_blank_line line) && negb (is_comment_line line).

(** [name] stands for the module [module] in the tree: it is the name of the
    module itself, or an [import module as name] binds it. *)
Definition binds_alias (module name : string) (n : node) : bool :=
  isinstance (VNode n) "alias"
  && match getattr n "name", getattr n "asname" with
     | Ok m, Ok a => eq_str m module && eq_str a name
     | _, _ => false
     end.

Definition resolves_to (tree : node) (name module : string) : bool :=
  (name =? module)%string || existsb (binds_alias module name) (walk tree).

(** *** Trees of the shape the grammar gives

    What the abstract grammar of Python says of the fields the analyzer and
    the scanner read. *)
Inductive field_kind : Type :=
| KText                    (* identifier *)
| KOptText                 (* identifier? *)
| KAny                     (* constant *)
| KNode                    (* expr, operator *)
| KNodeOf (cls : string)   (* arguments *)
| KOptNode                 (* expr? *)
| KNodes                   (* expr*, stmt*, keyword* *)
| KNodesOf (cls : string). (* alias*, arg* *)

Definition is_node (v : value) : bool :=
  match v with VNode _ => true | _ => false end.

Definition has_kind (k : field_kind) (v : value) : bool :=
  match k, v with
  | KText, VPrim (PStr _) => true
  | KOptText, VPrim (PStr _) | KOptText, VPrim PNone => true
  | KAny, VPrim _ => true
  | KNode, VNode _ => true
  | KNodeOf cls, VNode _ => isinstance v cls
  | KOptNode, VNode _ | KOptNode, VPrim PNone => true
  | KNodes, VList items => forallb is_node items
  | KNodesOf cls, VList items => forallb (fun item => isinstance item cls) items
  | _, _ => false
  end.

(** The fields of a class that are read, and whether its nodes carry a
    position. *)
Definition grammar : list (string * (bool * list (string * field_kind))) :=
  [("FunctionDef", (true, [("name", KText); ("args", KNodeOf "arguments");
                           ("body", KNodes); ("decorator_list", KNodes);
                           ("returns", KOptNode)]));
   ("ClassDef", (true, [("name", KText); ("bases", KNodes); ("body", KNodes)]));
   ("Import", (true, [("names", KNodesOf "alias")]));
   ("ImportFrom", (true, [("module", KOptText); ("names", KNodesOf "alias")]));
   ("alias", (false, [("name", KText); ("asname", KOptText)]));
   ("arguments", (false, [("args", KNodesOf "arg")]));
   ("arg", (false, [("arg", KText)]));
   ("Expr", (true, [("value", KNode)]));
   ("Call", (true, [("func", KNode); ("args", KNodes); ("keywords", KNodes)]));
   ("Attribute", (true, [("value", KNode); ("attr", KText)]));
   ("Name", (true, [("id", KText)]));
   ("BinOp", (true, [("left", KNode); ("op", KNode); ("right", KNode)]));
   ("Constant", (true, [("value", KAny)]));
   ("keyword", (false, [("arg", KOptText); ("value", KNode)]))].

Definition field_ok (n : node) (f : string * field_kind) : bool :=
  match getattr n (fst f) with
  | Ok v => has_kind (snd f) v
  | Raise _ => false
  end.

(** The items of the lists of a node are nodes, or constants the JSON
    encoder takes ([None] and texts, in the grammar). *)
Definition lists_ok (n : node) : bool :=
  forallb
    (fun f =>
       match snd f with
       | VList items =>
           forallb (fun item => is_node item || json_serializable item) items
       | _ => true
       end)
    (node_fields n).

Definition node_ok (n : node) : bool :=
  lists_ok n
  && match dict_get grammar (node_cls n) with
     | Some (positioned, fields) =>
         (negb positioned
          || match node_lineno n with Some _ => true | None => false end)
         && forallb (field_ok n) fields
     | None => true
     end.

(** Every node of the tree has the shape the grammar gives it. *)
Definition well_formed (t : node) : bool := forallb node_ok (walk t).

Definition is_ok {A : Type} (r : result A) : bool :=
  match r with Ok _ => true | Raise _ => false end.

(** [ast.unparse] returns on every node of the tree. *)
Definition unparse_total (py : runtime) (t : node) : bool :=
  forallb (fun n => is_ok (ast_unparse py (VNode n))) (walk t).

(** *** The limits of the interpreter

    CPython 3.11 as it is set up by default: turning an [int] of more than
    4300 digits into text raises a [ValueError], in [str()] as in
    [json.dumps], and a call nested deeper than the recursion limit of 1000
    raises a [RecursionError], in the functions of the analyzer as in the
    JSON encoder and decoder. *)
Definition max_str_digits : nat := 4300.
Definition recursion_limit : nat := 1000.

(** An [int] that [str()] turns into text: it has no more digits than the
    limit allows. *)
Definition int_printable (z : Z) : bool :=
  String.length (str_of_Z (Z.abs z)) <=? max_str_digits.

(** The [int]s a value holds outside the nodes in it are such. *)
Fixpoint ints_printable (v : value) : bool :=
  match v with
  | VNode _ => true
  | VList items => forallb ints_printable items
  | VPrim (PInt z) => int_printable z
  | VPrim _ => true
  end.

(** The position of a node and the [int]s of its fields can be turned into
    text. *)
Definition node_printable (n : node) : bool :=
  match node_lineno n with Some l => int_printable l | None => true end
  && match node_col_offset n with Some c => int_printable c | None => true end
  && forallb (fun f => ints_printable (snd f)) (node_fields n).

(** The number of nodes on the longest way from a node down the tree. *)
Fixpoint tree_height (n : node) : nat :=
  S (for_child_nodes n (fun child h => Nat.max h (tree_height child)) 0).

(** The analysis of the tree stays within the two limits.  A level of the
    tree costs at most two nested calls, [_ast_to_dict] and the list
    comprehension in it, and at most two nested containers of the JSON text,
    a list and a dict; 200 calls are left to the callers of [analyze_code]
    and to the library. *)
Definition within_limits (t : node) : bool :=
  (2 * tree_height t + 200 <=? recursion_limit)
  && forallb node_printable (walk t).

(** ** A run time for the examples *)

Definition newline : string := String (ascii_of_nat 10) "".

(** The lines of a text joined by line feeds. *)
Definition text_of_lines (lines : list string) : string :=
  String.concat newline lines.

Definition src_eval_x : string := "eval(x)".
Definition src_os_system : string := "os.system(cmd)".
Definition src_run_shell_true : string := "subprocess.run(cmd, shell=True)".
Definition src_run_shell_false : string := "subprocess.run(cmd, shell=False)".
Definition src_pickle_alias : string :=
  text_of_lines ["import pickle as p"; "p.loads(data)"].
Definition src_pickle_loads : string :=
  text_of_lines ["import pickle"; "pickle.loads(data)"].
Definition src_pickle_then_eval : string :=
  text_of_lines ["pickle.loads(x)"; "eval(y)"].
Definition src_mixed : string :=
  text_of_lines ["h = hashlib.md5(x)"; "password = 'abc123'"; "eval(y)"].
Definition src_sql_open : string :=
  text_of_lines
    ["cursor.execute('SELECT * FROM t WHERE id = ' + uid)"; "f = open(path)"].
Definition src_shapes : string :=
  text_of_lines
    ["import os"; "from a import b as c"; "# shapes"; "";
     "class K(Base):"; "    'doc'"; "    def m(self, x) -> int:";
     "        if x:"; "            for i in x:"; "                pass";
     "        return 1"; ""].

(** A text the parser rejects with a [SyntaxError], and one it rejects with a
    [ValueError]: it holds a NUL character. *)
Definition src_bad_syntax : string := "def f(:".
Definition src_nul : string := "x = 1" +++ String (ascii_of_nat 0) "".

(** The calls of three of the examples. *)
Definition call_eval_x : node :=
  mk_Call 1 0 (mk_Name 1 0 "eval" "Load") [mk_Name 1 5 "x" "Load"] [].

Definition call_pickle_loads : node :=
  mk_Call 2 0
    (mk_Attribute 2 0 (mk_Name 2 0 "pickle" "Load") "loads" "Load")
    [mk_Name 2 13 "data" "Load"] [].

Definition call_p_loads : node :=
  mk_Call 2 0
    (mk_Attribute 2 0 (mk_Name 2 0 "p" "Load") "loads" "Load")
    [mk_Name 2 8 "data" "Load"] [].

Definition parser_table : list (string * node) :=
  [(src_eval_x, tree_eval_x); (src_os_system, tree_os_system);
   (src_run_shell_true, tree_run_shell_true);
   (src_run_shell_false, tree_run_shell_false);
   (src_pickle_alias, tree_pickle_alias);
   (src_pickle_loads, tree_pickle_loads);
   (src_pickle_then_eval, tree_pickle_then_eval);
   (src_mixed, tree_mixed); (src_sql_open, tree_sql_open);
   (src_shapes, tree_shapes)].

(** What CPython 3.11 answers on the texts of the examples; a text that is
    none of them is rejected as [src_bad_syntax] is. *)
Definition sample_parse (source : string) : parse_outcome :=
  match dict_get parser_table source with
  | Some t => Parsed t
  | None =>
      if has_char (ascii_of_nat 0) source
      then ParseException "source code string cannot contain null bytes"
      else SyntaxError (Some 1%Z) "invalid syntax"
  end.

(** The source text of a name; the examples unparse nothing else. *)
Definition sample_unparse (v : value) : result string :=
  match v with
  | VNode n =>
      if isinstance v "Name" then
        id <- getattr n "id" ;;
        match id with
        | VPrim (PStr s) => Ok s
        | _ => Raise (TypeError "expected str")
        end
      else Ok ""
  | _ => Raise (no_attribute v "_fields")
  end.

Definition sample_runtime : runtime :=
  {| ast_parse := sample_parse;
     ast_unparse := sample_unparse;
     object_str := fun v => "<" +++ type_name v +++ " object>" |}.

(** ** Notions of the proofs *)

(** A body of a loop that only appends to [self.issues]: what it does on a
    list is what it does on the empty list, put after the list. *)
Definition appends {A : Type} (step : A -> list issue -> result (list issue))
    : Prop :=
  forall x issues,
    step x issues = (new <- step x [] ;; Ok (issues ++ new)).

(** What a body of a loop appends satisfies [P]. *)
Definition emits {A : Type} (P : issue -> Prop)
    (step : A -> list issue -> result (list issue)) : Prop :=
  forall x,
    match step x [] with
    | Ok new => Forall P new
    | Raise _ => True
    end.

(** What [shell_injection_step] can append: the finding of [os.system]. *)
Definition os_system_issue (line : Z) : issue :=
  {| severity := HIGH;
     title := "Shell injection risk: os.system()";
     description := "os.system() with user input can execute arbitrary commands";
     lineno := line;
     recommendation :=
       "Use subprocess.run() with shell=False and argument list. "
       +++ "Validate and sanitize all user input." |}.

(** The finding of the unsafe-deserialization rule. *)
Definition pickle_issue (line : Z) : issue :=
  {| severity := HIGH;
     title := "Unsafe deserialization: pickle";
     description := "pickle.loads() can execute arbitrary code from untrusted data";
     lineno := line;
     recommendation :=
       "Use JSON or other safe serialization formats. "
       +++ "If pickle is required, ensure data source is trusted and verified." |}.

Definition is_digit (c : ascii) : bool :=
  (48 <=? nat_of_ascii c) && (nat_of_ascii c <=? 57).

(** The order of the keys of a sort. *)
Definition by_key {A : Type} (key : A -> nat) (x y : A) : Prop :=
  key x <= key y.

(** The kind the grammar gives to a field of a class. *)
Definition grammar_kind (cls name : string) : option field_kind :=
  match dict_get grammar cls with
  | Some (_, fields) => dict_get fields name
  | None => None
  end.

(** ** Notions of the further properties *)

(** A node of an import statement, of either form. *)
Definition is_import (n : node) : bool :=
  isinstance (VNode n) "Import" || isinstance (VNode n) "ImportFrom".

(** The number of names an import statement lists. *)
Definition alias_count (n : node) : nat :=
  match getattr n "names" with
  | Ok (VList items) => List.length items
  | _ => 0
  end.

(** The dicts [get_structure] appends for one import statement, one for each
    name it lists. *)
Definition import_records (py : runtime) (n : node) : result (list import_info) :=
  names <- getattr n "names" ;;
  aliases <- iterate names ;;
  map_result
    (if isinstance (VNode n) "Import"
     then import_record n else import_from_record py n)
    aliases.

(** The tree of
<<
import os, sys
from a import b
>> *)
Definition tree_import_two : node :=
  mk_Module
    [mk_Import 1 0 [mk_alias 1 7 "os" PNone;
        mk_alias 1 11 "sys" PNone];
     mk_ImportFrom 2 0 (PStr "a")
       [mk_alias 2 14 "b" PNone] 0].

Definition src_import_two : string :=
  text_of_lines ["import os, sys"; "from a import b"].

(** *** The serialized tree *)

(** What [_ast_to_dict] stores for the value of a field: the dict of a node,
    the list of a list with the dicts of its nodes, [None] for [None], and
    the text [str()] gives for any other constant. *)
Definition field_to_obj (v : value) : obj :=
  match v with
  | VList items =>
      OList (map (fun item =>
                    match item with
                    | VNode c => ODict (_ast_to_dict c)
                    | _ => ORaw item
                    end) items)
  | VNode c => ODict (_ast_to_dict c)
  | VPrim PNone => ORaw (VPrim PNone)
  | VPrim p => ORaw (VPrim (PStr (prim_str p)))
  end.

(** The keys [_ast_to_dict] sets before it turns to the fields. *)
Definition position_keys (n : node) : list string :=
  ["type"]
  ++ (match node_lineno n with Some _ => ["lineno"] | None => [] end)
  ++ (match node_col_offset n with Some _ => ["col_offset"] | None => [] end).

Definition mk_ExceptHandler (l c : Z) (type : value) (name : prim)
    (body : list node) : node :=
  at_position "ExceptHandler" l c
    [("type", type); ("name", VPrim name); ("body", node_list body)].

(** The handler of
<<
try:
    pass
except E:
    pass
>> *)
Definition handler_except_E : node :=
  mk_ExceptHandler 3 0 (VNode (mk_Name 3 7 "E" "Load")) PNone [mk_Pass 4 4].

(** A run time whose [ast.unparse] raises. *)
Definition failing_unparse_runtime : runtime :=
  {| ast_parse := sample_parse;
     ast_unparse := fun _ => Raise (TypeError "cannot unparse");
     object_str := object_str sample_runtime |}.

(** *** White space *)

(** The characters of a text from its first one that is no white space. *)
Fixpoint drop_spaces (l : list ascii) : list ascii :=
  match l with
  | [] => []
  | c :: rest => if is_space c then drop_spaces rest else l
  end.

(** A text of white space only; the empty text is one. *)
Definition all_spaces (line : string) : bool :=
  forallb is_space (list_ascii_of_string line).

(** The first character of a text that is no white space is a hash sign. *)
Definition hash_first (line : string) : bool :=
  startswith (lstrip line) "#".

(** *** The findings of the rules *)

(** A [Constant] node that holds a text. *)
Definition is_text_constant (n : node) : bool :=
  isinstance (VNode n) "Constant"
  && match getattr n "value" with
     | Ok v => is_str v
     | Raise _ => false
     end.

(** The two findings of the SQL rule. *)
Definition sql_fstring_issue (line : Z) : issue :=
  {| severity := HIGH;
     title := "SQL Injection: f-string in SQL query";
     description := "Using f-strings for SQL queries allows injection attacks";
     lineno := line;
     recommendation :=
       "Use parameterized queries with placeholders: "
       +++ "execute('SELECT * FROM users WHERE id = ?', [user_id])" |}.

Definition sql_concat_issue (line : Z) : issue :=
  {| severity := HIGH;
     title := "SQL Injection: String concatenation in query";
     description := "String concatenation in SQL queries is unsafe";
     lineno := line;
     recommendation := "Use parameterized queries instead of concatenation" |}.

(** The finding of the path rule. *)
Definition path_traversal_issue (line : Z) : issue :=
  {| severity := MEDIUM;
     title := "Potential path traversal";
     description := "User-controlled file paths can lead to unauthorized access";
     lineno := line;
     recommendation :=
       "Validate and sanitize file paths. Use os.path.basename() "
       +++ "or pathlib.Path.resolve() to prevent directory traversal." |}.

(** The finding of the rule on weak hashes. *)
Definition weak_crypto_issue (algorithm : string) (line : Z) : issue :=
  {| severity := MEDIUM;
     title := "Weak cryptographic algorithm: " +++ algorithm;
     description := upper algorithm +++ " is cryptographically weak";
     lineno := line;
     recommendation :=
       "Use stronger algorithms like SHA-256 or SHA-512 "
       +++ "for cryptographic purposes." |}.

Local Open Scope Z_scope.

(** The calls of
<<
cursor.execute('SELECT * FROM t WHERE id = ' + uid)
f = open(path)
>> *)
Definition call_execute_concat : node :=
  mk_Call 1 0
    (mk_Attribute 1 0 (mk_Name 1 0 "cursor" "Load") "execute" "Load")
    [mk_BinOp 1 15
       (mk_Constant 1 15 (PStr "SELECT * FROM t WHERE id = ")) "Add"
       (mk_Name 1 47 "uid" "Load")]
    [].

Definition call_open_path : node :=
  mk_Call 2 4 (mk_Name 2 4 "open" "Load") [mk_Name 2 9 "path" "Load"] [].

(** The call of
<<
h = hashlib.md5(x)
>> *)
Definition call_hashlib_md5 : node :=
  mk_Call 1 4
    (mk_Attribute 1 4 (mk_Name 1 4 "hashlib" "Load") "md5" "Load")
    [mk_Name 1 16 "x" "Load"] [].

(** The call of
<<
cursor.execute('SELECT * FROM t WHERE id = %s' % uid)
>> *)
Definition call_execute_percent : node :=
  mk_Call 1 0
    (mk_Attribute 1 0 (mk_Name 1 0 "cursor" "Load") "execute" "Load")
    [mk_BinOp 1 15
       (mk_Constant 1 15 (PStr "SELECT * FROM t WHERE id = %s")) "Mod"
       (mk_Name 1 49 "uid" "Load")]
    [].

Local Close Scope Z_scope.

(** *** Calls and the rules that know them *)

(** A finding located at a call of the tree: the node is a [Call], the
    finding has its line, and its severity is HIGH or MEDIUM. *)
Definition at_call (n : node) (x : issue) : Prop :=
  isinstance (VNode n) "Call" = true
  /\ node_lineno n = Some (lineno x)
  /\ (severity x = HIGH \/ severity x = MEDIUM).

(** What the rules read of the callee of a call: whether it is a bare name
    or an attribute, and the name. *)
Definition call_target (n : node) : result (string * value) :=
  func <- getattr n "func" ;;
  if isinstance func "Name" then
    v <- attr func "id" ;; Ok ("Name", v)
  else if isinstance func "Attribute" then
    v <- attr func "attr" ;; Ok ("Attribute", v)
  else Ok ("", VPrim PNone).

(** The place in [scan] of the rule that knows a callee, 7 when none does. *)
Definition rule_tag (cls : string) (v : value) : nat :=
  match v with
  | VPrim (PStr s) =>
      if (cls =? "Name")%string then
        if existsb (String.eqb s) ["eval"; "exec"; "compile"; "__import__"]
        then 0
        else if existsb (String.eqb s) ["open"; "read"; "write"] then 2
        else 7
      else if (cls =? "Attribute")%string then
        if (s =? "execute")%string then 1
        else if existsb (String.eqb s) ["loads"; "load"] then 3
        else if existsb (String.eqb s) ["md5"; "sha1"] then 5
        else if (s =? "system")%string then 6
        else 7
      else 7
  | _ => 7
  end.

(** What the rule at place [tag] adds for one node: nothing, or one finding
    at the call, whose callee the rule knows. *)
Definition one_at_call (tag : nat) (n : node) (new : list issue) : Prop :=
  new = []
  \/ exists x,
       new = [x] /\ at_call n x
       /\ match call_target n with
          | Ok (cls, v) => rule_tag cls v = tag
          | Raise _ => False
          end.

(** A finding that is not CRITICAL. *)
Definition below_critical (x : issue) : bool :=
  negb (severity_eqb (severity x) CRITICAL).

(** *** What a pattern matches *)

(** The texts a pattern matches as a whole. *)
Inductive matches : regex -> string -> Prop :=
| matches_empty : matches REmpty ""
| matches_set (p : ascii -> bool) (c : ascii) :
    p c = true -> matches (RSet p) (String c "")
| matches_seq (r1 r2 : regex) (s1 s2 : string) :
    matches r1 s1 -> matches r2 s2 -> matches (RSeq r1 r2) (s1 +++ s2)
| matches_alt_left (r1 r2 : regex) (s : string) :
    matches r1 s -> matches (RAlt r1 r2) s
| matches_alt_right (r1 r2 : regex) (s : string) :
    matches r2 s -> matches (RAlt r1 r2) s
| matches_star_stop (r : regex) : matches (RStar r) ""
| matches_star_more (r : regex) (s1 s2 : string) :
    matches r s1 -> matches (RStar r) s2 -> matches (RStar r) (s1 +++ s2).

(** Two texts that differ by the case of their letters only. *)
Fixpoint same_letters (s t : string) : bool :=
  match s, t with
  | EmptyString, EmptyString => true
  | String c s', String d t' =>
      Ascii.eqb (to_lower c) (to_lower d) && same_letters s' t'
  | _, _ => false
  end.

(** Every character of a text satisfies [p]. *)
Definition all_chars (p : ascii -> bool) (s : string) : bool :=
  forallb p (list_ascii_of_string s).

(** The finding of the rule on secrets for a kind of secret. *)
Definition secret_issue (secret_type : string) (line : Z) : issue :=
  {| severity := CRITICAL;
     title := "Hardcoded secret: " +++ secret_type;
     description := secret_type +++ " found in source code";
     lineno := line;
     recommendation :=
       "Move secrets to environment variables or secure vault. "
       +++ "Use os.getenv() or python-dotenv to load from .env files." |}.

(** *** The levels of a tree *)

(** The nodes of trees level by level: the given nodes, then their
    children, then the children of these, as long as there are any. *)
Fixpoint levels (fuel : nat) (level : list node) : list (list node) :=
  match fuel with
  | O => []
  | S fuel' =>
      match level with
      | [] => []
      | _ => level :: levels fuel' (flat_map iter_child_nodes level)
      end
  end.

Local Open Scope Z_scope.

(** The tree of
<<
def f():
    eval(a)
eval(b)
>> *)
Definition tree_nested_eval : node :=
  mk_Module
    [mk_FunctionDef 1 0 "f"
       (mk_arguments [] [])
       [mk_Expr 2 4
          (mk_Call 2 4
             (mk_Name 2 4 "eval" "Load")
             [mk_Name 2 9 "a" "Load"]
             [])]
       []
       (VPrim PNone);
     mk_Expr 3 0
       (mk_Call 3 0
          (mk_Name 3 0 "eval" "Load")
          [mk_Name 3 5 "b" "Load"]
          [])].

Local Close Scope Z_scope.

(** ** Tactics *)

(** Takes a body apart, case by case: the computation a [bind] waits for,
    the test of an [if], the value a [match] looks at. *)
Ltac split_step :=
  match goal with
  | |- context [bind ?c _] =>
      lazymatch c with
      | context [bind] => fail
      | context [if _ then _ else _] => fail
      | context [match _ with _ => _ end] => fail
      | _ => destruct c
      end
  | |- context [if ?b then _ else _] =>
      lazymatch b with
      | context [bind] => fail
      | _ => destruct b
      end
  | |- context [match ?v with _ => _ end] =>
      first [is_var v; destruct v
            | lazymatch v with dict_get _ _ => destruct v eqn:? end]
  end.

Ltac split_cases := repeat (cbn [bind]; split_step); cbn [bind].

Ltac one_issue :=
  first
    [ exact I
    | apply Forall_nil
    | apply Forall_cons;
      [unfold at_least_medium; cbn [severity]; auto | apply Forall_nil] ].

Ltac returns_now := eexists; reflexivity.

(** * Lemmas *)

(** ** The error monad and the loops *)

Lemma bind_ok {A B : Type} (c : result A) (k : A -> result B) (b : B) :
  bind c k = Ok b -> exists a, c = Ok a /\ k a = Ok b.
Proof.
  destruct c as [a | e]; simpl; intro H.
  - exists a. split; [reflexivity | exact H].
  - discriminate H.
Qed.

Lemma for_each_app {A S : Type} (xs ys : list A) (body : A -> S -> result S)
    (s : S) :
  for_each (xs ++ ys) body s = (s' <- for_each xs body s ;; for_each ys body s').
Proof.
  revert s. induction xs as [| x xs IH]; intro s; simpl.
  - reflexivity.
  - destruct (body x s) as [s' | e]; simpl; [apply IH | reflexivity].
Qed.

(** A property of the state that every turn of the body keeps holds when the
    loop ends. *)
Lemma for_each_invariant {A S : Type} (P : S -> Prop) (xs : list A)
    (body : A -> S -> result S) :
  (forall x s s', In x xs -> P s -> body x s = Ok s' -> P s') ->
  forall s s', P s -> for_each xs body s = Ok s' -> P s'.
Proof.
  induction xs as [| x xs IH]; intros Hbody s s' Hs Hrun; simpl in Hrun.
  - injection Hrun as <-. exact Hs.
  - apply bind_ok in Hrun. destruct Hrun as (s1 & Hx & Hrest).
    apply (IH (fun y t t' Hy => Hbody y t t' (or_intror Hy)) s1 s').
    + apply (Hbody x s s1); [left; reflexivity | exact Hs | exact Hx].
    + exact Hrest.
Qed.

(** A loop whose every turn returns, returns. *)
Lemma for_each_returns {A S : Type} (P : S -> Prop) (xs : list A)
    (body : A -> S -> result S) :
  (forall x s, In x xs -> P s -> exists s', body x s = Ok s' /\ P s') ->
  forall s, P s -> exists s', for_each xs body s = Ok s' /\ P s'.
Proof.
  induction xs as [| x xs IH]; intros Hbody s Hs; simpl.
  - exists s. split; [reflexivity | exact Hs].
  - destruct (Hbody x s (or_introl eq_refl) Hs) as (s1 & Hx & Hs1).
    rewrite Hx. simpl.
    apply IH; [| exact Hs1].
    intros y t Hy Ht. apply Hbody; [right; exact Hy | exact Ht].
Qed.

Lemma map_result_returns {A B : Type} (P : B -> Prop) (f : A -> result B)
    (xs : list A) :
  (forall x, In x xs -> exists y, f x = Ok y /\ P y) ->
  exists ys, map_result f xs = Ok ys /\ Forall P ys.
Proof.
  induction xs as [| x xs IH]; intro Hf; simpl.
  - exists []. split; [reflexivity | constructor].
  - destruct (Hf x (or_introl eq_refl)) as (y & Hy & Py).
    destruct IH as (ys & Hys & Pys).
    { intros z Hz. apply Hf. right. exact Hz. }
    rewrite Hy, Hys. simpl. exists (y :: ys).
    split; [reflexivity | constructor; assumption].
Qed.

(** ** The traversal *)

Lemma list_sum_bound {A : Type} (f : A -> nat) (x : A) (l : list A) :
  In x l -> f x <= list_sum (map f l).
Proof.
  induction l as [| y l IH]; simpl; [intros [] | intros [-> | Hin]].
  - lia.
  - specialize (IH Hin). lia.
Qed.

Lemma queue_size_app (a b : list node) :
  queue_size (a ++ b) = queue_size a + queue_size b.
Proof.
  unfold queue_size. rewrite map_app, list_sum_app. reflexivity.
Qed.

Lemma in_field_child_nodes (c : node) (v : value) :
  In c (field_child_nodes v) <->
  v = VNode c \/ exists items, v = VList items /\ In (VNode c) items.
Proof.
  destruct v as [m | items | p]; simpl.
  - split.
    + intros [-> | []]. left. reflexivity.
    + intros [[= ->] | (items & [=] & _)]. left. reflexivity.
  - rewrite in_flat_map. split.
    + intros (item & Hitem & Hc). right. exists items. split; [reflexivity |].
      destruct item as [m | l | p]; simpl in Hc; try contradiction.
      destruct Hc as [-> | []]. exact Hitem.
    + intros [[=] | (l & [= <-] & Hin)].
      exists (VNode c). split; [exact Hin | left; reflexivity].
  - split; [intros [] | intros [[=] | (l & [=] & _)]].
Qed.

Lemma in_iter_child_nodes (c n : node) :
  In c (iter_child_nodes n) <->
  exists f, In f (node_fields n) /\ In c (field_child_nodes (snd f)).
Proof.
  unfold iter_child_nodes, iter_fields. apply in_flat_map.
Qed.

Lemma field_child_size (c : node) (v : value) :
  In c (field_child_nodes v) -> node_size c <= value_size v.
Proof.
  rewrite in_field_child_nodes. intros [-> | (items & -> & Hin)].
  - simpl. lia.
  - change (value_size (VList items)) with (list_sum (map value_size items)).
    apply (list_sum_bound value_size (VNode c) items Hin).
Qed.

(** A child is smaller than its parent. *)
Lemma child_smaller (n c : node) :
  In c (iter_child_nodes n) -> node_size c < node_size n.
Proof.
  rewrite in_iter_child_nodes. intros (f & Hf & Hc).
  apply field_child_size in Hc.
  destruct n as [cls l o fields]. simpl in Hf.
  change (node_size (Node cls l o fields))
    with (S (list_sum (map (fun f => value_size (snd f)) fields))).
  pose proof (list_sum_bound (fun f => value_size (snd f)) f fields Hf) as Hle.
  simpl in Hle. lia.
Qed.

(** Induction on a tree: a property that holds of a node when it holds of its
    children holds of every node. *)
Lemma node_induction (P : node -> Prop) :
  (forall n, (forall c, In c (iter_child_nodes n) -> P c) -> P n) ->
  forall n, P n.
Proof.
  intros Hstep n.
  remember (node_size n) as k eqn:Hk. revert n Hk.
  induction k as [k IH] using lt_wf_ind. intros n ->.
  apply Hstep. intros c Hc.
  apply (IH (node_size c)); [apply child_smaller; exact Hc | reflexivity].
Qed.

Lemma fold_items_nodes {S : Type} (body : node -> S -> S) (items : list value)
    (s : S) :
  fold_left (fun s item => match item with VNode c => body c s | _ => s end)
    items s
  = fold_left (fun s c => body c s)
      (flat_map (fun item => match item with VNode c => [c] | _ => [] end) items)
      s.
Proof.
  revert s. induction items as [| item items IH]; intro s; simpl.
  - reflexivity.
  - rewrite fold_left_app, IH.
    destruct item as [c | l | p]; reflexivity.
Qed.

(** The loop over the children is a loop over [iter_child_nodes]. *)
Lemma for_child_nodes_fold {S : Type} (n : node) (body : node -> S -> S)
    (s : S) :
  for_child_nodes n body s
  = fold_left (fun s c => body c s) (iter_child_nodes n) s.
Proof.
  unfold for_child_nodes, iter_child_nodes.
  revert s. induction (iter_fields n) as [| f fields IH]; intro s; simpl.
  - reflexivity.
  - rewrite fold_left_app, IH. f_equal.
    destruct (snd f) as [c | items | p]; simpl.
    + reflexivity.
    + apply fold_items_nodes.
    + reflexivity.
Qed.

Lemma fold_left_collect {A B : Type} (f : A -> list B) (l : list A)
    (acc : list B) :
  fold_left (fun acc x => acc ++ f x) l acc = acc ++ flat_map f l.
Proof.
  revert acc. induction l as [| x l IH]; intro acc; simpl.
  - rewrite app_nil_r. reflexivity.
  - rewrite IH, app_assoc. reflexivity.
Qed.

Lemma descendants_unfold (n : node) :
  descendants n = n :: flat_map descendants (iter_child_nodes n).
Proof.
  destruct n as [cls l o fields].
  change (descendants (Node cls l o fields))
    with (Node cls l o fields
          :: for_child_nodes (Node cls l o fields)
               (fun child below => below ++ descendants child) []).
  rewrite for_child_nodes_fold, fold_left_collect. reflexivity.
Qed.

Lemma paths_unfold (n : node) :
  paths n = [n] :: map (cons n) (flat_map paths (iter_child_nodes n)).
Proof.
  destruct n as [cls l o fields].
  change (paths (Node cls l o fields))
    with ([Node cls l o fields]
          :: map (cons (Node cls l o fields))
               (for_child_nodes (Node cls l o fields)
                  (fun child below => below ++ paths child) [])).
  rewrite for_child_nodes_fold, fold_left_collect. reflexivity.
Qed.

Lemma flat_map_length_bound {A B : Type} (f : A -> list B) (g : A -> nat)
    (l : list A) :
  (forall x, In x l -> List.length (f x) <= g x) ->
  List.length (flat_map f l) <= list_sum (map g l).
Proof.
  induction l as [| x l IH]; intro Hle; simpl.
  - lia.
  - rewrite length_app.
    pose proof (Hle x (or_introl eq_refl)).
    pose proof (IH (fun y Hy => Hle y (or_intror Hy))). lia.
Qed.

Lemma list_sum_cons (x : nat) (l : list nat) :
  list_sum (x :: l) = x + list_sum l.
Proof. reflexivity. Qed.

Lemma field_children_size (v : value) :
  queue_size (field_child_nodes v) <= value_size v.
Proof.
  unfold queue_size. destruct v as [c | items | p].
  - change (value_size (VNode c)) with (node_size c).
    cbn [field_child_nodes map]. rewrite list_sum_cons. simpl list_sum. lia.
  - change (value_size (VList items)) with (list_sum (map value_size items)).
    cbn [field_child_nodes].
    induction items as [| item items IH]; [simpl; lia |].
    cbn [flat_map map]. rewrite map_app, list_sum_app, list_sum_cons.
    destruct item as [c | l | p]; cbn [map].
    + change (value_size (VNode c)) with (node_size c).
      rewrite list_sum_cons. simpl list_sum. lia.
    + simpl list_sum. lia.
    + simpl list_sum. lia.
  - simpl. lia.
Qed.

(** The children of a node weigh less than the node. *)
Lemma children_size (n : node) :
  S (queue_size (iter_child_nodes n)) <= node_size n.
Proof.
  destruct n as [cls l o fields].
  change (node_size (Node cls l o fields))
    with (S (list_sum (map (fun f => value_size (snd f)) fields))).
  apply le_n_S. unfold iter_child_nodes, iter_fields. cbn [node_fields].
  induction fields as [| f fields IH]; [unfold queue_size; simpl; lia |].
  cbn [flat_map map]. rewrite queue_size_app, list_sum_cons.
  pose proof (field_children_size (snd f)). lia.
Qed.

Lemma descendants_size (n : node) :
  List.length (descendants n) <= node_size n.
Proof.
  induction n as [n IH] using node_induction.
  rewrite descendants_unfold. simpl.
  pose proof (flat_map_length_bound descendants node_size
                (iter_child_nodes n) IH) as Hsum.
  pose proof (children_size n) as Hn.
  unfold queue_size in Hn. lia.
Qed.

(** [ast.walk] yields the nodes of the trees waiting in the queue, each
    once, when the fuel covers them. *)
Lemma walk_queue_permutation (fuel : nat) (todo : list node) :
  queue_size todo <= fuel ->
  Permutation (walk_queue fuel todo) (flat_map descendants todo).
Proof.
  revert todo. induction fuel as [| fuel IH]; intros todo Hfuel.
  - destruct todo as [| n rest]; simpl; [constructor |].
    unfold queue_size in Hfuel. simpl in Hfuel.
    pose proof (children_size n). lia.
  - destruct todo as [| n rest]; simpl; [constructor |].
    rewrite descendants_unfold. simpl. constructor.
    rewrite (IH (rest ++ iter_child_nodes n)).
    + rewrite flat_map_app. apply Permutation_app_comm.
    + rewrite queue_size_app.
      unfold queue_size in Hfuel |- *. simpl in Hfuel.
      pose proof (children_size n) as Hn. unfold queue_size in Hn. lia.
Qed.

(** Fuel beyond the size of the queue changes nothing: the loop of
    [ast.walk] has ended by then. *)
Lemma walk_queue_fuel (fuel fuel' : nat) (todo : list node) :
  queue_size todo <= fuel -> queue_size todo <= fuel' ->
  walk_queue fuel todo = walk_queue fuel' todo.
Proof.
  revert fuel' todo.
  induction fuel as [| fuel IH]; intros fuel' todo Hfuel Hfuel';
    destruct todo as [| n rest].
  - destruct fuel'; reflexivity.
  - unfold queue_size in Hfuel. simpl in Hfuel.
    pose proof (children_size n). lia.
  - destruct fuel'; reflexivity.
  - assert (Hq : queue_size (rest ++ iter_child_nodes n)
                 < queue_size (n :: rest)).
    { rewrite queue_size_app. unfold queue_size. simpl.
      pose proof (children_size n) as Hn. unfold queue_size in Hn. lia. }
    destruct fuel' as [| fuel']; [lia |].
    simpl. f_equal. apply IH; lia.
Qed.

(** [ast.walk] visits every node of the tree, once. *)
Lemma walk_permutation (t : node) : Permutation (walk t) (descendants t).
Proof.
  unfold walk.
  rewrite (walk_queue_permutation (node_size t) [t]).
  - simpl. rewrite app_nil_r. reflexivity.
  - unfold queue_size. simpl. lia.
Qed.

Lemma in_walk (n t : node) : In n (walk t) <-> In n (descendants t).
Proof.
  split; apply Permutation_in;
    [apply walk_permutation | symmetry; apply walk_permutation].
Qed.

Lemma in_walk_root (t : node) : In t (walk t).
Proof.
  apply in_walk. rewrite descendants_unfold. left. reflexivity.
Qed.

Lemma descendants_trans (t n m : node) :
  In n (descendants t) -> In m (descendants n) -> In m (descendants t).
Proof.
  induction t as [t IH] using node_induction.
  rewrite (descendants_unfold t). intros [<- | Hn] Hm.
  - rewrite <- descendants_unfold. exact Hm.
  - right. apply in_flat_map in Hn. destruct Hn as (c & Hc & Hn).
    apply in_flat_map. exists c. split; [exact Hc |].
    apply (IH c Hc Hn Hm).
Qed.

(** The nodes below a visited node are visited. *)
Lemma in_walk_trans (t n m : node) :
  In n (walk t) -> In m (walk n) -> In m (walk t).
Proof.
  rewrite !in_walk. apply descendants_trans.
Qed.

Lemma in_walk_child (t n c : node) :
  In n (walk t) -> In c (iter_child_nodes n) -> In c (walk t).
Proof.
  intros Hn Hc. apply (in_walk_trans t n c Hn).
  apply in_walk. rewrite descendants_unfold. right.
  apply in_flat_map. exists c. split; [exact Hc |].
  rewrite descendants_unfold. left. reflexivity.
Qed.

(** ** The metrics calculator *)

Lemma metrics_step_lines (m : metrics) (n : node) :
  total_lines (metrics_step m n) = total_lines m
  /\ code_lines (metrics_step m n) = code_lines m
  /\ comment_lines (metrics_step m n) = comment_lines m
  /\ blank_lines (metrics_step m n) = blank_lines m.
Proof.
  unfold metrics_step.
  destruct (isinstance (VNode n) "FunctionDef");
    [| destruct (isinstance (VNode n) "ClassDef");
       [| destruct (isinstance (VNode n) "Import" || isinstance (VNode n) "ImportFrom")]];
    simpl; repeat split; reflexivity.
Qed.

Lemma metrics_loop_lines (l : list node) (m : metrics) :
  total_lines (fold_left metrics_step l m) = total_lines m
  /\ code_lines (fold_left metrics_step l m) = code_lines m
  /\ comment_lines (fold_left metrics_step l m) = comment_lines m
  /\ blank_lines (fold_left metrics_step l m) = blank_lines m.
Proof.
  revert m. induction l as [| n l IH]; intro m; simpl.
  - repeat split; reflexivity.
  - destruct (IH (metrics_step m n)) as (Ht & Hc & Hm & Hb).
    destruct (metrics_step_lines m n) as (Ht' & Hc' & Hm' & Hb').
    repeat split; congruence.
Qed.

Lemma nonempty_eqb (s : string) : nonempty s = negb (s =? "")%string.
Proof. destruct s; reflexivity. Qed.

(** A line is of exactly one kind. *)
Lemma line_kind_exclusive (line : string) :
  (if is_blank_line line then 1 else 0)
  + (if is_comment_line line then 1 else 0)
  + (if is_code_line line then 1 else 0) = 1.
Proof.
  unfold is_code_line, is_comment_line, is_blank_line, startswith.
  destruct (strip line) as [| c rest]; [reflexivity |].
  change (String c rest =? "")%string with false.
  destruct (String.prefix "#" (String c rest)); reflexivity.
Qed.

Lemma count_lines_cons (p : string -> bool) (line : string)
    (lines : list string) :
  count_lines p (line :: lines)
  = (if p line then 1 else 0) + count_lines p lines.
Proof.
  unfold count_lines. simpl. destruct (p line); reflexivity.
Qed.

(** The three kinds of line divide the lines of a text. *)
Lemma line_kinds_partition (lines : list string) :
  List.length lines
  = count_lines is_code_line lines + count_lines is_comment_line lines
    + count_lines is_blank_line lines.
Proof.
  induction lines as [| line lines IH].
  - reflexivity.
  - rewrite !count_lines_cons. simpl List.length.
    pose proof (line_kind_exclusive line). lia.
Qed.

Lemma count_lines_ext (p q : string -> bool) (lines : list string) :
  (forall line, p line = q line) -> count_lines p lines = count_lines q lines.
Proof.
  intro Hpq. unfold count_lines. f_equal. apply filter_ext. exact Hpq.
Qed.

Lemma fold_left_pointwise {A B : Type} (f g : A -> B -> A) (l : list B)
    (a : A) :
  (forall a x, f a x = g a x) -> fold_left f l a = fold_left g l a.
Proof.
  intro Hfg. revert a. induction l as [| x l IH]; intro a; simpl.
  - reflexivity.
  - rewrite Hfg. apply IH.
Qed.

Lemma fold_left_max {A : Type} (f : A -> nat) (l : list A) (d : nat) :
  fold_left (fun m x => Nat.max m (f x)) l d = Nat.max d (list_max (map f l)).
Proof.
  revert d. induction l as [| x l IH]; intro d; simpl.
  - lia.
  - rewrite IH. lia.
Qed.

Lemma list_max_flat_map {A B : Type} (g : B -> nat) (h : A -> list B)
    (l : list A) :
  list_max (map g (flat_map h l))
  = list_max (map (fun x => list_max (map g (h x))) l).
Proof.
  induction l as [| x l IH]; simpl.
  - reflexivity.
  - rewrite map_app, list_max_app, IH. reflexivity.
Qed.

(** One level of [_calculate_max_depth]: the running depth grows by one on
    the way into a child that opens a level of nesting, and stays as it is
    on the way into any other child. *)
Lemma max_depth_unfold (n : node) (d : nat) :
  _calculate_max_depth n d
  = fold_left
      (fun m c =>
         Nat.max m (_calculate_max_depth c (if is_nesting c then d + 1 else d)))
      (iter_child_nodes n) d.
Proof.
  destruct n as [cls l o fields].
  change (_calculate_max_depth (Node cls l o fields) d)
    with (for_child_nodes (Node cls l o fields)
            (fun child max_depth =>
               if is_nesting child
               then Nat.max max_depth (_calculate_max_depth child (d + 1))
               else Nat.max max_depth (_calculate_max_depth child d))
            d).
  rewrite for_child_nodes_fold.
  apply fold_left_pointwise. intros m c.
  destruct (is_nesting c); reflexivity.
Qed.

(** Every path of a tree begins at its root. *)
Lemma paths_begin (n : node) (p : list node) :
  In p (paths n) -> exists q, p = n :: q.
Proof.
  rewrite paths_unfold. intros [<- | Hp].
  - exists []. reflexivity.
  - apply in_map_iff in Hp. destruct Hp as (q & <- & _).
    exists q. reflexivity.
Qed.

Lemma last_nonempty {A : Type} (x y : A) (q : list A) (d d' : A) :
  last (x :: y :: q) d = last (y :: q) d'.
Proof.
  revert x y. induction q as [| z q IH]; intros x y.
  - reflexivity.
  - change (last (x :: y :: z :: q) d) with (last (y :: z :: q) d).
    change (last (y :: z :: q) d') with (last (z :: q) d').
    rewrite (IH y z). reflexivity.
Qed.

(** The nodes the paths of a tree lead to are the nodes of the tree, each
    once. *)
Lemma paths_reach (n : node) :
  map (fun p => last p n) (paths n) = descendants n.
Proof.
  induction n as [n IH] using node_induction.
  rewrite paths_unfold, descendants_unfold. simpl. f_equal.
  rewrite map_map.
  induction (iter_child_nodes n) as [| c cs IHc]; simpl.
  - reflexivity.
  - rewrite map_app. f_equal.
    + rewrite <- (IH c (or_introl eq_refl)).
      apply map_ext_in. intros p Hp.
      apply paths_begin in Hp. destruct Hp as (q & ->).
      apply (last_nonempty n c q n c).
    + apply IHc. intros d Hd. apply IH. right. exact Hd.
Qed.

Lemma nesting_count_cons (n : node) (p : list node) :
  nesting_count (n :: p) = (if is_nesting n then 1 else 0) + nesting_count p.
Proof.
  unfold nesting_count. simpl. destruct (is_nesting n); reflexivity.
Qed.

(** [_calculate_max_depth], started at depth [d], returns [d] plus the
    greatest number of nesting nodes met on a path below the root. *)
Lemma max_depth_paths (n : node) :
  forall d,
    _calculate_max_depth n d
    = list_max (map (fun p => d + nesting_count (tl p)) (paths n)).
Proof.
  induction n as [n IH] using node_induction. intro d.
  rewrite max_depth_unfold, fold_left_max, paths_unfold.
  cbn [map list_max fold_right tl]. unfold nesting_count at 1. simpl List.length.
  rewrite Nat.add_0_r. f_equal.
  rewrite map_map. cbn [tl].
  rewrite list_max_flat_map.
  f_equal. apply map_ext_in. intros c Hc.
  rewrite (IH c Hc). f_equal.
  apply map_ext_in. intros p Hp.
  apply paths_begin in Hp. destruct Hp as (q & ->).
  cbn [tl]. rewrite nesting_count_cons.
  destruct (is_nesting c); lia.
Qed.

Lemma list_max_zero {A : Type} (f : A -> nat) (l : list A) :
  (forall x, In x l -> f x = 0) -> list_max (map f l) = 0.
Proof.
  induction l as [| x l IH]; intro Hz; simpl.
  - reflexivity.
  - rewrite (Hz x (or_introl eq_refl)).
    rewrite IH; [reflexivity |].
    intros y Hy. apply Hz. right. exact Hy.
Qed.

(** The nodes on a path of a tree are nodes of the tree. *)
Lemma paths_nodes (n : node) :
  forall p m, In p (paths n) -> In m p -> In m (descendants n).
Proof.
  induction n as [n IH] using node_induction. intros p m.
  rewrite paths_unfold, descendants_unfold.
  intros [<- | Hp] Hm.
  - destruct Hm as [<- | []]. left. reflexivity.
  - apply in_map_iff in Hp. destruct Hp as (q & <- & Hq).
    destruct Hm as [<- | Hm]; [left; reflexivity | right].
    apply in_flat_map in Hq. destruct Hq as (c & Hc & Hq).
    apply in_flat_map. exists c. split; [exact Hc |].
    apply (IH c Hc q m Hq Hm).
Qed.

(** ** The structural extractor *)

Lemma count_class_cons (cls : string) (n : node) (l : list node) :
  count_class cls (n :: l)
  = (if isinstance (VNode n) cls then 1 else 0) + count_class cls l.
Proof.
  unfold count_class. simpl. destruct (node_cls n =? cls)%string; reflexivity.
Qed.

Lemma isinstance_unique (n : node) (c1 c2 : string) :
  isinstance (VNode n) c1 = true -> c1 <> c2 -> isinstance (VNode n) c2 = false.
Proof.
  simpl. intros H1 Hne.
  apply String.eqb_eq in H1. apply String.eqb_neq. congruence.
Qed.

Lemma metrics_step_counts (m : metrics) (n : node) :
  function_count (metrics_step m n)
  = function_count m + (if isinstance (VNode n) "FunctionDef" then 1 else 0)
  /\ class_count (metrics_step m n)
     = class_count m + (if isinstance (VNode n) "ClassDef" then 1 else 0).
Proof.
  unfold metrics_step.
  destruct (isinstance (VNode n) "FunctionDef") eqn:Hf.
  - rewrite (isinstance_unique n "FunctionDef" "ClassDef" Hf) by discriminate.
    simpl. lia.
  - destruct (isinstance (VNode n) "ClassDef") eqn:Hc.
    + simpl. lia.
    + destruct (isinstance (VNode n) "Import" || isinstance (VNode n) "ImportFrom");
        simpl; lia.
Qed.

(** The counting loop of [get_metrics] counts the nodes of the two classes. *)
Lemma metrics_loop_counts (l : list node) (m : metrics) :
  function_count (fold_left metrics_step l m)
  = function_count m + count_class "FunctionDef" l
  /\ class_count (fold_left metrics_step l m)
     = class_count m + count_class "ClassDef" l.
Proof.
  revert m. induction l as [| n l IH]; intro m.
  - simpl. unfold count_class. simpl. lia.
  - cbn [fold_left]. rewrite !count_class_cons.
    destruct (IH (metrics_step m n)) as (Hf & Hc).
    destruct (metrics_step_counts m n) as (Hf' & Hc').
    lia.
Qed.

(** Adding the records of the aliases of an import leaves the functions and
    the classes as they are. *)
Lemma import_loop_keeps (aliases : list value)
    (record : value -> result import_info) (s s' : structure) :
  for_each aliases (fun alias s => i <- record alias ;; Ok (add_import s i)) s
  = Ok s' ->
  functions s' = functions s /\ classes s' = classes s.
Proof.
  apply (for_each_invariant
           (fun s' => functions s' = functions s /\ classes s' = classes s)).
  - intros alias s1 s2 _ (Hf & Hc) Hstep.
    apply bind_ok in Hstep. destruct Hstep as (i & _ & [= <-]).
    simpl. split; assumption.
  - split; reflexivity.
Qed.

Section StructureCounts.

Variable py : runtime.

Lemma structure_step_counts (n : node) (s s' : structure) :
  structure_step py n s = Ok s' ->
  List.length (functions s')
  = List.length (functions s)
    + (if isinstance (VNode n) "FunctionDef" then 1 else 0)
  /\ List.length (classes s')
     = List.length (classes s)
       + (if isinstance (VNode n) "ClassDef" then 1 else 0).
Proof.
  unfold structure_step.
  destruct (isinstance (VNode n) "FunctionDef") eqn:Hf.
  - rewrite (isinstance_unique n "FunctionDef" "ClassDef" Hf) by discriminate.
    intro H. apply bind_ok in H. destruct H as (f & _ & [= <-]).
    simpl. rewrite length_app. simpl. lia.
  - destruct (isinstance (VNode n) "ClassDef") eqn:Hc.
    + intro H. apply bind_ok in H. destruct H as (c & _ & [= <-]).
      simpl. rewrite length_app. simpl. lia.
    + destruct (isinstance (VNode n) "Import" || isinstance (VNode n) "ImportFrom").
      * destruct (isinstance (VNode n) "Import"); intro H;
          apply bind_ok in H; destruct H as (names & _ & H);
          apply bind_ok in H; destruct H as (aliases & _ & H);
          apply import_loop_keeps in H; destruct H as (-> & ->); lia.
      * intros [= <-]. lia.
Qed.

(** The loop of [get_structure] appends one record for each node of the two
    classes. *)
Lemma structure_loop_counts (l : list node) (s s' : structure) :
  for_each l (structure_step py) s = Ok s' ->
  List.length (functions s')
  = List.length (functions s) + count_class "FunctionDef" l
  /\ List.length (classes s')
     = List.length (classes s) + count_class "ClassDef" l.
Proof.
  revert s. induction l as [| n l IH]; intros s Hrun.
  - injection Hrun as <-. unfold count_class. simpl. lia.
  - cbn [for_each] in Hrun. apply bind_ok in Hrun.
    destruct Hrun as (s1 & Hstep & Hrest).
    apply structure_step_counts in Hstep. apply IH in Hrest.
    rewrite !count_class_cons. lia.
Qed.

End StructureCounts.

(** ** The rules append to the list of issues *)

Lemma for_each_appends {A : Type} (xs : list A)
    (step : A -> list issue -> result (list issue)) :
  appends step ->
  forall issues,
    for_each xs step issues
    = (new <- for_each xs step [] ;; Ok (issues ++ new)).
Proof.
  intro Hstep. induction xs as [| x xs IH]; intro issues.
  - simpl. rewrite app_nil_r. reflexivity.
  - cbn [for_each]. rewrite (Hstep x issues).
    destruct (step x []) as [new1 | e]; simpl; [| reflexivity].
    rewrite (IH (issues ++ new1)), (IH new1).
    destruct (for_each xs step []) as [new2 | e]; simpl; [| reflexivity].
    rewrite app_assoc. reflexivity.
Qed.

Lemma dangerous_functions_step_appends : appends dangerous_functions_step.
Proof.
  intros n issues. unfold dangerous_functions_step, _add_issue.
  split_cases; rewrite ?app_nil_r; reflexivity.
Qed.

Lemma sql_injection_step_appends : appends sql_injection_step.
Proof.
  intros n issues. unfold sql_injection_step, _add_issue.
  split_cases; rewrite ?app_nil_r; reflexivity.
Qed.

Lemma path_traversal_step_appends : appends path_traversal_step.
Proof.
  intros n issues. unfold path_traversal_step, _add_issue.
  split_cases; rewrite ?app_nil_r; reflexivity.
Qed.

Lemma unsafe_deserialization_step_appends :
  appends unsafe_deserialization_step.
Proof.
  intros n issues. unfold unsafe_deserialization_step, _add_issue.
  split_cases; rewrite ?app_nil_r; reflexivity.
Qed.

Lemma weak_crypto_step_appends : appends weak_crypto_step.
Proof.
  intros n issues. unfold weak_crypto_step, _add_issue.
  split_cases; rewrite ?app_nil_r; reflexivity.
Qed.

Lemma secret_pattern_step_appends (lineno : Z) (line : string) :
  appends (secret_pattern_step lineno line).
Proof.
  intros pattern issues. unfold secret_pattern_step, _add_issue.
  split_cases; rewrite ?app_nil_r; reflexivity.
Qed.

Lemma shell_keyword_step_appends (n : node) : appends (shell_keyword_step n).
Proof.
  intros keyword issues. unfold shell_keyword_step, _add_issue.
  split_cases; rewrite ?app_nil_r; reflexivity.
Qed.

Lemma shell_injection_step_appends : appends shell_injection_step.
Proof.
  intros n issues. unfold shell_injection_step, _add_issue.
  repeat (cbn [bind];
          match goal with
          | |- context [for_each ?items (shell_keyword_step n) issues] =>
              rewrite (for_each_appends items (shell_keyword_step n)
                         (shell_keyword_step_appends n) issues)
          | _ => split_step
          end);
    cbn [bind]; rewrite ?app_nil_r; reflexivity.
Qed.

Lemma check_dangerous_functions_appends (t : node) (issues : list issue) :
  _check_dangerous_functions t issues
  = (new <- _check_dangerous_functions t [] ;; Ok (issues ++ new)).
Proof.
  apply for_each_appends. exact dangerous_functions_step_appends.
Qed.

Lemma check_sql_injection_appends (t : node) (issues : list issue) :
  _check_sql_injection t issues
  = (new <- _check_sql_injection t [] ;; Ok (issues ++ new)).
Proof.
  apply for_each_appends. exact sql_injection_step_appends.
Qed.

Lemma check_path_traversal_appends (t : node) (issues : list issue) :
  _check_path_traversal t issues
  = (new <- _check_path_traversal t [] ;; Ok (issues ++ new)).
Proof.
  apply for_each_appends. exact path_traversal_step_appends.
Qed.

Lemma check_unsafe_deserialization_appends (t : node) (issues : list issue) :
  _check_unsafe_deserialization t issues
  = (new <- _check_unsafe_deserialization t [] ;; Ok (issues ++ new)).
Proof.
  apply for_each_appends. exact unsafe_deserialization_step_appends.
Qed.

Lemma secret_line_step_appends :
  appends (fun (numbered : Z * string) issues =>
             for_each secret_patterns
               (secret_pattern_step (fst numbered) (snd numbered)) issues).
Proof.
  intros numbered issues.
  apply for_each_appends. apply secret_pattern_step_appends.
Qed.

Lemma check_hardcoded_secrets_appends (src : string) (issues : list issue) :
  _check_hardcoded_secrets src issues
  = (new <- _check_hardcoded_secrets src [] ;; Ok (issues ++ new)).
Proof.
  unfold _check_hardcoded_secrets.
  apply (for_each_appends _ _ secret_line_step_appends).
Qed.

Lemma check_weak_crypto_appends (t : node) (issues : list issue) :
  _check_weak_crypto t issues
  = (new <- _check_weak_crypto t [] ;; Ok (issues ++ new)).
Proof.
  apply for_each_appends. exact weak_crypto_step_appends.
Qed.

Lemma check_shell_injection_appends (t : node) (issues : list issue) :
  _check_shell_injection t issues
  = (new <- _check_shell_injection t [] ;; Ok (issues ++ new)).
Proof.
  apply for_each_appends. exact shell_injection_step_appends.
Qed.

(** [self.issues], when the seven checks have run, holds what each check
    finds, in the order the checks run. *)
Lemma run_checks_rule_order (src : string) (t : node) :
  run_checks src t
  = (outputs <- rule_outputs src t ;; Ok (List.concat outputs)).
Proof.
  unfold run_checks, rule_outputs.
  destruct (_check_dangerous_functions t []) as [d | e]; [| reflexivity].
  cbn [bind]. rewrite check_sql_injection_appends.
  destruct (_check_sql_injection t []) as [q | e]; [| reflexivity].
  cbn [bind]. rewrite check_path_traversal_appends.
  destruct (_check_path_traversal t []) as [p | e]; [| reflexivity].
  cbn [bind]. rewrite check_unsafe_deserialization_appends.
  destruct (_check_unsafe_deserialization t []) as [u | e]; [| reflexivity].
  cbn [bind]. rewrite check_hardcoded_secrets_appends.
  destruct (_check_hardcoded_secrets src []) as [h | e]; [| reflexivity].
  cbn [bind]. rewrite check_weak_crypto_appends.
  destruct (_check_weak_crypto t []) as [w | e]; [| reflexivity].
  cbn [bind]. rewrite check_shell_injection_appends.
  destruct (_check_shell_injection t []) as [s | e]; [| reflexivity].
  cbn [bind List.concat]. rewrite app_nil_r, <- !app_assoc. reflexivity.
Qed.

(** ** The sort *)

Section Sort.

Context {A : Type}.
Variable key : A -> nat.

Lemma insert_by_key_permutation (x : A) (l : list A) :
  Permutation (insert_by_key key x l) (x :: l).
Proof.
  induction l as [| y l IH]; simpl.
  - reflexivity.
  - destruct (key x <=? key y).
    + reflexivity.
    + rewrite IH. apply perm_swap.
Qed.

Lemma sort_by_key_permutation (l : list A) :
  Permutation (sort_by_key key l) l.
Proof.
  induction l as [| x l IH]; simpl.
  - reflexivity.
  - rewrite insert_by_key_permutation. constructor. exact IH.
Qed.

Lemma insert_by_key_sorted (x : A) (l : list A) :
  StronglySorted (by_key key) l -> StronglySorted (by_key key) (insert_by_key key x l).
Proof.
  induction l as [| y l IH]; simpl; intro Hsorted.
  - constructor; constructor.
  - destruct (key x <=? key y) eqn:Hle.
    + apply Nat.leb_le in Hle. constructor; [exact Hsorted |].
      constructor; [exact Hle |].
      apply StronglySorted_inv in Hsorted. destruct Hsorted as (_ & Hall).
      apply (Forall_impl _ (fun z (Hz : by_key key y z) => Nat.le_trans _ _ _ Hle Hz)).
      exact Hall.
    + apply Nat.leb_gt in Hle.
      apply StronglySorted_inv in Hsorted. destruct Hsorted as (Hl & Hall).
      constructor; [apply IH; exact Hl |].
      apply (Permutation_Forall
               (Permutation_sym (insert_by_key_permutation x l))).
      constructor; [unfold by_key; lia | exact Hall].
Qed.

(** The list the sort returns is in the order of the keys. *)
Lemma sort_by_key_sorted (l : list A) :
  StronglySorted (by_key key) (sort_by_key key l).
Proof.
  induction l as [| x l IH]; simpl.
  - constructor.
  - apply insert_by_key_sorted. exact IH.
Qed.

Variable p : A -> bool.
Hypothesis one_key : forall x y, p x = true -> p y = true -> key x = key y.

Lemma insert_by_key_stable (x : A) (l : list A) :
  filter p (insert_by_key key x l) = filter p (x :: l).
Proof.
  induction l as [| y l IH].
  - reflexivity.
  - cbn [insert_by_key]. destruct (key x <=? key y) eqn:Hle; [reflexivity |].
    apply Nat.leb_gt in Hle.
    cbn [filter] in IH |- *. rewrite IH.
    destruct (p x) eqn:Hx, (p y) eqn:Hy; try reflexivity.
    pose proof (one_key x y Hx Hy). lia.
Qed.

(** The sort is stable: the elements of one key keep their order. *)
Lemma sort_by_key_stable (l : list A) :
  filter p (sort_by_key key l) = filter p l.
Proof.
  induction l as [| x l IH].
  - reflexivity.
  - cbn [sort_by_key]. rewrite insert_by_key_stable.
    cbn [filter]. rewrite IH. reflexivity.
Qed.

End Sort.

(** The place of a severity in [severity_order] is its rank. *)
Lemma severity_rank_rank_of (x : issue) :
  severity_rank x = rank_of (severity x).
Proof.
  unfold severity_rank. destruct (severity x); reflexivity.
Qed.

Lemma severity_eqb_eq (a b : severity_level) :
  severity_eqb a b = true <-> a = b.
Proof.
  destruct a, b; simpl; split; intro H; congruence.
Qed.

Lemma of_severity_cons (s : severity_level) (x : issue) (l : list issue) :
  of_severity s (x :: l)
  = if severity_eqb (severity x) s then x :: of_severity s l
    else of_severity s l.
Proof. reflexivity. Qed.

Lemma of_severity_none (s : severity_level) (l : list issue) :
  Forall (fun y => rank_of s < rank_of (severity y)) l ->
  of_severity s l = [].
Proof.
  induction 1 as [| y l Hy _ IH]; [reflexivity |].
  rewrite of_severity_cons, IH.
  destruct (severity_eqb (severity y) s) eqn:Heq; [| reflexivity].
  apply severity_eqb_eq in Heq. rewrite Heq in Hy. lia.
Qed.

(** A list in the order of the ranks is its findings of each severity, one
    severity after the other: a list has one stable sort only. *)
Lemma sorted_by_severity (l : list issue) :
  StronglySorted (fun a b => rank_of (severity a) <= rank_of (severity b)) l ->
  l = flat_map (fun s => of_severity s l) severity_order.
Proof.
  induction 1 as [| x l _ IH Hall]; [reflexivity |].
  cbn [flat_map severity_order] in IH |- *.
  rewrite !of_severity_cons.
  assert (Hlower : forall s,
             rank_of s < rank_of (severity x) -> of_severity s l = []).
  { intros s Hs. apply of_severity_none.
    apply (Forall_impl _ (P := fun y => rank_of (severity x)
                                        <= rank_of (severity y)));
      [| exact Hall].
    intros y Hy. lia. }
  destruct (severity x) eqn:Hx; cbn [severity_eqb rank_of] in *.
  - cbn [app]. f_equal. exact IH.
  - rewrite (Hlower CRITICAL) in * by (cbn; lia).
    cbn [app] in *. f_equal. exact IH.
  - rewrite (Hlower CRITICAL), (Hlower HIGH) in * by (cbn; lia).
    cbn [app] in *. f_equal. exact IH.
  - rewrite (Hlower CRITICAL), (Hlower HIGH), (Hlower MEDIUM) in *
      by (cbn; lia).
    cbn [app] in *. f_equal. exact IH.
  - rewrite (Hlower CRITICAL), (Hlower HIGH), (Hlower MEDIUM), (Hlower LOW)
      in * by (cbn; lia).
    cbn [app] in *. f_equal. exact IH.
Qed.

(** ** The severities the rules give *)

Lemma dangerous_funcs_levels (name : string) (level : severity_level)
    (desc : string) :
  dict_get dangerous_funcs name = Some (level, desc) ->
  ((name = "eval" \/ name = "exec") /\ level = HIGH)
  \/ ((name = "compile" \/ name = "__import__") /\ level = MEDIUM).
Proof.
  unfold dangerous_funcs. cbn [dict_get].
  destruct ("eval" =? name)%string eqn:H1;
    [apply String.eqb_eq in H1; intros [= <- _]; auto |].
  destruct ("exec" =? name)%string eqn:H2;
    [apply String.eqb_eq in H2; intros [= <- _]; auto |].
  destruct ("compile" =? name)%string eqn:H3;
    [apply String.eqb_eq in H3; intros [= <- _]; auto |].
  destruct ("__import__" =? name)%string eqn:H4;
    [apply String.eqb_eq in H4; intros [= <- _]; auto |].
  discriminate.
Qed.

Lemma for_each_emits {A : Type} (P : issue -> Prop) (xs : list A)
    (step : A -> list issue -> result (list issue)) :
  appends step -> emits P step ->
  forall issues,
    Forall P issues ->
    match for_each xs step issues with
    | Ok out => Forall P out
    | Raise _ => True
    end.
Proof.
  intros Happ Hemit. induction xs as [| x xs IH]; intros issues Hissues.
  - exact Hissues.
  - cbn [for_each]. rewrite (Happ x issues).
    specialize (Hemit x).
    destruct (step x []) as [new | e]; cbn [bind]; [| exact I].
    apply IH. apply Forall_app. split; assumption.
Qed.

Lemma dangerous_functions_step_levels :
  emits at_least_medium dangerous_functions_step.
Proof.
  intro n. unfold dangerous_functions_step, _add_issue.
  split_cases; cbn [app]; one_issue.
  match goal with
  | H : dict_get dangerous_funcs _ = Some _ |- _ =>
      apply dangerous_funcs_levels in H; destruct H as [(_ & ->) | (_ & ->)]
  end; auto.
Qed.

Lemma sql_injection_step_levels : emits at_least_medium sql_injection_step.
Proof.
  intro n. unfold sql_injection_step, _add_issue.
  split_cases; cbn [app]; one_issue.
Qed.

Lemma path_traversal_step_levels : emits at_least_medium path_traversal_step.
Proof.
  intro n. unfold path_traversal_step, _add_issue.
  split_cases; cbn [app]; one_issue.
Qed.

Lemma unsafe_deserialization_step_levels :
  emits at_least_medium unsafe_deserialization_step.
Proof.
  intro n. unfold unsafe_deserialization_step, _add_issue.
  split_cases; cbn [app]; one_issue.
Qed.

Lemma weak_crypto_step_levels : emits at_least_medium weak_crypto_step.
Proof.
  intro n. unfold weak_crypto_step, _add_issue.
  split_cases; cbn [app]; one_issue.
Qed.

Lemma secret_pattern_step_levels (lineno : Z) (line : string) :
  emits at_least_medium (secret_pattern_step lineno line).
Proof.
  intro pattern. unfold secret_pattern_step, _add_issue.
  split_cases; cbn [app]; one_issue.
Qed.

Lemma shell_keyword_step_levels (n : node) :
  emits at_least_medium (shell_keyword_step n).
Proof.
  intro keyword. unfold shell_keyword_step, _add_issue.
  split_cases; cbn [app]; one_issue.
Qed.

Lemma shell_injection_step_levels : emits at_least_medium shell_injection_step.
Proof.
  intro n. unfold shell_injection_step, _add_issue.
  repeat (cbn [bind];
          match goal with
          | |- context [for_each ?items (shell_keyword_step n) []] =>
              pose proof (for_each_emits at_least_medium items
                            (shell_keyword_step n)
                            (shell_keyword_step_appends n)
                            (shell_keyword_step_levels n) [] (Forall_nil _));
              destruct (for_each items (shell_keyword_step n) [])
          | _ => split_step
          end);
    cbn [bind app]; try one_issue; assumption.
Qed.

(** No check appends a finding below MEDIUM. *)
Lemma rule_outputs_levels (src : string) (t : node)
    (outputs : list (list issue)) :
  rule_outputs src t = Ok outputs ->
  Forall at_least_medium (List.concat outputs).
Proof.
  unfold rule_outputs.
  pose proof (for_each_emits at_least_medium (walk t) _
                dangerous_functions_step_appends
                dangerous_functions_step_levels [] (Forall_nil _)) as Hd.
  pose proof (for_each_emits at_least_medium (walk t) _
                sql_injection_step_appends
                sql_injection_step_levels [] (Forall_nil _)) as Hq.
  pose proof (for_each_emits at_least_medium (walk t) _
                path_traversal_step_appends
                path_traversal_step_levels [] (Forall_nil _)) as Hp.
  pose proof (for_each_emits at_least_medium (walk t) _
                unsafe_deserialization_step_appends
                unsafe_deserialization_step_levels [] (Forall_nil _)) as Hu.
  pose proof (for_each_emits at_least_medium
                (enumerate (splitlines src) 1%Z) _
                secret_line_step_appends
                (fun numbered =>
                   for_each_emits at_least_medium secret_patterns _
                     (secret_pattern_step_appends (fst numbered) (snd numbered))
                     (secret_pattern_step_levels (fst numbered) (snd numbered))
                     [] (Forall_nil _))
                [] (Forall_nil _)) as Hh.
  pose proof (for_each_emits at_least_medium (walk t) _
                weak_crypto_step_appends
                weak_crypto_step_levels [] (Forall_nil _)) as Hw.
  pose proof (for_each_emits at_least_medium (walk t) _
                shell_injection_step_appends
                shell_injection_step_levels [] (Forall_nil _)) as Hs.
  fold (_check_dangerous_functions t []) in Hd.
  fold (_check_sql_injection t []) in Hq.
  fold (_check_path_traversal t []) in Hp.
  fold (_check_unsafe_deserialization t []) in Hu.
  fold (_check_hardcoded_secrets src []) in Hh.
  fold (_check_weak_crypto t []) in Hw.
  fold (_check_shell_injection t []) in Hs.
  destruct (_check_dangerous_functions t []) as [d | e]; [| discriminate].
  destruct (_check_sql_injection t []) as [q | e]; [| discriminate].
  destruct (_check_path_traversal t []) as [p | e]; [| discriminate].
  destruct (_check_unsafe_deserialization t []) as [u | e]; [| discriminate].
  destruct (_check_hardcoded_secrets src []) as [h | e]; [| discriminate].
  destruct (_check_weak_crypto t []) as [w | e]; [| discriminate].
  destruct (_check_shell_injection t []) as [s | e]; [| discriminate].
  cbn [bind]. intros [= <-]. cbn [List.concat].
  repeat (apply Forall_app; split; [assumption |]). apply Forall_nil.
Qed.

Lemma scan_unfold (src : string) (t : node) (fs : list issue) :
  scan src t = Ok fs ->
  exists outputs,
    rule_outputs src t = Ok outputs
    /\ fs = sort_by_key severity_rank (List.concat outputs).
Proof.
  unfold scan. rewrite run_checks_rule_order.
  destruct (rule_outputs src t) as [outputs | e]; [| discriminate].
  cbn [bind]. intros [= <-]. exists outputs. split; reflexivity.
Qed.

Lemma of_severity_one_key (s : severity_level) (x y : issue) :
  severity_eqb (severity x) s = true ->
  severity_eqb (severity y) s = true ->
  severity_rank x = severity_rank y.
Proof.
  rewrite !severity_eqb_eq. unfold severity_rank. congruence.
Qed.

(** ** The rules *)

(** The seven rules on the examples: what each finds, by severity and
    line. *)
Example rules_on_examples :
  map (fun src_tree =>
         match scan (fst src_tree) (snd src_tree) with
         | Ok fs => Some (map (fun x => (severity x, lineno x)) fs)
         | Raise _ => None
         end)
      [(src_eval_x, tree_eval_x); (src_os_system, tree_os_system);
       (src_pickle_loads, tree_pickle_loads); (src_mixed, tree_mixed);
       (src_sql_open, tree_sql_open); (src_shapes, tree_shapes)]
  = [Some [(HIGH, 1%Z)]; Some [(HIGH, 1%Z)]; Some [(HIGH, 2%Z)];
     Some [(CRITICAL, 2%Z); (HIGH, 3%Z); (MEDIUM, 1%Z)];
     Some [(HIGH, 1%Z); (MEDIUM, 2%Z)]; Some []].
Proof. vm_compute. reflexivity. Qed.

(** The text of the examples is cut into their lines, and the trees of the
    examples have the shape of the grammar. *)
Example examples_well_formed :
  forallb well_formed
    [tree_eval_x; tree_os_system; tree_run_shell_true; tree_run_shell_false;
     tree_pickle_alias; tree_pickle_loads; tree_pickle_then_eval; tree_mixed;
     tree_sql_open; tree_shapes]
  = true
  /\ splitlines src_shapes
     = ["import os"; "from a import b as c"; "# shapes"; "";
        "class K(Base):"; "    'doc'"; "    def m(self, x) -> int:";
        "        if x:"; "            for i in x:"; "                pass";
        "        return 1"].
Proof. split; vm_compute; reflexivity. Qed.

(** What a body appends for a visited node is in what the loop appends. *)
Lemma for_each_includes {A : Type} (xs : list A)
    (step : A -> list issue -> result (list issue)) :
  appends step ->
  forall x new out,
    In x xs -> step x [] = Ok new -> for_each xs step [] = Ok out ->
    incl new out.
Proof.
  intro Happ. induction xs as [| y ys IH]; intros x new out Hin Hx Hrun.
  - contradiction.
  - cbn [for_each] in Hrun. apply bind_ok in Hrun.
    destruct Hrun as (s1 & Hy & Hrest).
    rewrite (for_each_appends ys step Happ s1) in Hrest.
    apply bind_ok in Hrest. destruct Hrest as (new' & Hys & [= <-]).
    destruct Hin as [-> | Hin].
    + rewrite Hx in Hy. injection Hy as <-. apply incl_appl, incl_refl.
    + apply incl_appr. apply (IH x new new' Hin Hx Hys).
Qed.

(** The branch of [_check_shell_injection] for [shell=True] is never taken: a
    turn of the loop leaves the list as it is or appends the finding of
    [os.system]. *)
Lemma shell_injection_step_outcomes (n : node) (issues : list issue) :
  match shell_injection_step n issues with
  | Ok out =>
      out = issues \/ exists line, out = issues ++ [os_system_issue line]
  | Raise _ => True
  end.
Proof.
  unfold shell_injection_step, _add_issue.
  split_cases; try exact I; try (left; reflexivity).
  all: right; eexists; reflexivity.
Qed.

(** ** Trees of the grammar are analyzed without an exception *)

Lemma getattr_field (n : node) (name : string) (v : value) :
  getattr n name = Ok v -> exists f, In f (node_fields n) /\ snd f = v.
Proof.
  unfold getattr.
  destruct (find (fun f => (fst f =? name)%string) (node_fields n))
    as [f |] eqn:Hfind; [| discriminate].
  intros [= <-]. exists f. split; [| reflexivity].
  apply find_some in Hfind. exact (proj1 Hfind).
Qed.

(** A node held by a field is a child. *)
Lemma getattr_child (n : node) (name : string) (c : node) :
  getattr n name = Ok (VNode c) -> In c (iter_child_nodes n).
Proof.
  intro H. apply getattr_field in H. destruct H as (f & Hf & Hv).
  apply in_iter_child_nodes. exists f. split; [exact Hf |].
  rewrite Hv. left. reflexivity.
Qed.

(** A node in a list held by a field is a child. *)
Lemma getattr_item_child (n : node) (name : string) (items : list value)
    (c : node) :
  getattr n name = Ok (VList items) -> In (VNode c) items ->
  In c (iter_child_nodes n).
Proof.
  intros H Hc. apply getattr_field in H. destruct H as (f & Hf & Hv).
  apply in_iter_child_nodes. exists f. split; [exact Hf |].
  apply in_field_child_nodes. right. exists items. split; assumption.
Qed.

Lemma isinstance_node (v : value) (cls : string) :
  isinstance v cls = true -> exists n, v = VNode n /\ node_cls n = cls.
Proof.
  destruct v as [n | items | p]; simpl; try discriminate.
  intro H. exists n. split; [reflexivity | apply String.eqb_eq; exact H].
Qed.

Lemma is_node_node (v : value) : is_node v = true -> exists n, v = VNode n.
Proof.
  destruct v as [n | items | p]; simpl; try discriminate.
  intros _. exists n. reflexivity.
Qed.

Lemma kind_text (v : value) :
  has_kind KText v = true -> exists s, v = VPrim (PStr s).
Proof.
  destruct v as [n | items | []]; simpl; try discriminate.
  intros _. eexists. reflexivity.
Qed.

Lemma kind_opt_text (v : value) :
  has_kind KOptText v = true ->
  v = VPrim PNone \/ exists s, v = VPrim (PStr s).
Proof.
  destruct v as [n | items | []]; simpl; try discriminate; intros _.
  - left. reflexivity.
  - right. eexists. reflexivity.
Qed.

Lemma kind_any (v : value) : has_kind KAny v = true -> exists p, v = VPrim p.
Proof.
  destruct v as [n | items | p]; simpl; try discriminate.
  intros _. exists p. reflexivity.
Qed.

Lemma kind_node (v : value) : has_kind KNode v = true -> exists n, v = VNode n.
Proof.
  destruct v as [n | items | p]; simpl; try discriminate.
  intros _. exists n. reflexivity.
Qed.

Lemma kind_node_of (cls : string) (v : value) :
  has_kind (KNodeOf cls) v = true ->
  exists n, v = VNode n /\ isinstance (VNode n) cls = true.
Proof.
  destruct v as [n | items | p]; simpl; try discriminate.
  intro H. exists n. split; [reflexivity | exact H].
Qed.

Lemma kind_opt_node (v : value) :
  has_kind KOptNode v = true -> v = VPrim PNone \/ exists n, v = VNode n.
Proof.
  destruct v as [n | items | []]; simpl; try discriminate; intros _.
  - right. exists n. reflexivity.
  - left. reflexivity.
Qed.

Lemma kind_nodes (v : value) :
  has_kind KNodes v = true ->
  exists items, v = VList items /\ forallb is_node items = true.
Proof.
  destruct v as [n | items | p]; simpl; try discriminate.
  intro H. exists items. split; [reflexivity | exact H].
Qed.

Lemma kind_nodes_of (cls : string) (v : value) :
  has_kind (KNodesOf cls) v = true ->
  exists items,
    v = VList items /\ forallb (fun item => isinstance item cls) items = true.
Proof.
  destruct v as [n | items | p]; simpl; try discriminate.
  intro H. exists items. split; [reflexivity | exact H].
Qed.

Lemma dict_get_in {V : Type} (d : list (string * V)) (key : string) (v : V) :
  dict_get d key = Some v -> In (key, v) d.
Proof.
  induction d as [| [k w] d IH]; cbn [dict_get]; [discriminate |].
  destruct (k =? key)%string eqn:Hk.
  - apply String.eqb_eq in Hk. intros [= ->]. left. rewrite Hk. reflexivity.
  - intro H. right. apply IH. exact H.
Qed.

(** What [node_ok] says of a node of a class of the grammar. *)
Lemma node_ok_grammar (n : node) (cls : string) (positioned : bool)
    (fields : list (string * field_kind)) :
  node_ok n = true ->
  isinstance (VNode n) cls = true ->
  dict_get grammar cls = Some (positioned, fields) ->
  (positioned = true -> exists l, lineno_of n = Ok l)
  /\ forall name kind,
       In (name, kind) fields ->
       exists v, getattr n name = Ok v /\ has_kind kind v = true.
Proof.
  intros Hok Hcls Hgrammar.
  apply isinstance_node in Hcls. destruct Hcls as (n' & [= <-] & Hcls).
  unfold node_ok in Hok. rewrite Hcls, Hgrammar in Hok.
  apply andb_true_iff in Hok. destruct Hok as (_ & Hok).
  apply andb_true_iff in Hok. destruct Hok as (Hpos & Hfields).
  split.
  - intros ->. unfold lineno_of.
    destruct (node_lineno n) as [l |]; [| discriminate].
    exists l. reflexivity.
  - intros name kind Hin.
    rewrite forallb_forall in Hfields. specialize (Hfields _ Hin).
    unfold field_ok in Hfields. cbn [fst snd] in Hfields.
    destruct (getattr n name) as [v | e]; [| discriminate].
    exists v. split; [reflexivity | exact Hfields].
Qed.

Section WellFormedTrees.

Variable py : runtime.
Variable t : node.
Hypothesis shape : well_formed t = true.
Hypothesis unparses : unparse_total py t = true.

Lemma visited_ok (n : node) : In n (walk t) -> node_ok n = true.
Proof.
  unfold well_formed in shape. rewrite forallb_forall in shape. apply shape.
Qed.

Lemma visited_unparses (n : node) :
  In n (walk t) -> exists s, ast_unparse py (VNode n) = Ok s.
Proof.
  intro Hn. unfold unparse_total in unparses.
  rewrite forallb_forall in unparses. specialize (unparses n Hn).
  destruct (ast_unparse py (VNode n)) as [s | e]; [| discriminate].
  exists s. reflexivity.
Qed.

(** A field the grammar gives to the class of a visited node. *)
Lemma visited_field (n : node) (cls name : string) (kind : field_kind) :
  In n (walk t) ->
  isinstance (VNode n) cls = true ->
  grammar_kind cls name = Some kind ->
  exists v, getattr n name = Ok v /\ has_kind kind v = true.
Proof.
  intros Hn Hcls Hkind. unfold grammar_kind in Hkind.
  destruct (dict_get grammar cls) as [[positioned fields] |] eqn:Hgrammar;
    [| discriminate].
  apply (proj2 (node_ok_grammar n cls positioned fields
                  (visited_ok n Hn) Hcls Hgrammar) name kind).
  apply dict_get_in. exact Hkind.
Qed.

Lemma visited_lineno (n : node) (cls : string)
    (fields : list (string * field_kind)) :
  In n (walk t) ->
  isinstance (VNode n) cls = true ->
  dict_get grammar cls = Some (true, fields) ->
  exists l, lineno_of n = Ok l.
Proof.
  intros Hn Hcls Hgrammar.
  apply (proj1 (node_ok_grammar n cls true fields
                  (visited_ok n Hn) Hcls Hgrammar) eq_refl).
Qed.

Lemma has_docstring_returns (n : node) (items : list value) :
  In n (walk t) ->
  getattr n "body" = Ok (VList items) ->
  forallb is_node items = true ->
  exists b, has_docstring n = Ok b.
Proof.
  intros Hn Hbody Hitems. unfold has_docstring. rewrite Hbody. cbn [bind].
  destruct items as [| first rest]; [eexists; reflexivity |].
  cbn [truthy first_item bind].
  cbn [forallb] in Hitems. apply andb_true_iff in Hitems.
  destruct Hitems as (Hfirst & _).
  apply is_node_node in Hfirst. destruct Hfirst as (b & ->).
  destruct (isinstance (VNode b) "Expr") eqn:Hexpr; [| eexists; reflexivity].
  assert (Hb : In b (walk t)).
  { apply (in_walk_child t n b Hn).
    apply (getattr_item_child n "body" _ b Hbody). left. reflexivity. }
  destruct (visited_field _ "Expr" "value" KNode Hb Hexpr eq_refl)
    as (v & Hv & Hk).
  apply kind_node in Hk. destruct Hk as (c & ->).
  cbn [attr]. rewrite Hv. cbn [bind].
  destruct (isinstance (VNode c) "Constant") eqn:Hconstant;
    [| eexists; reflexivity].
  assert (Hc : In c (walk t)).
  { apply (in_walk_child t b c Hb). apply (getattr_child b "value" c Hv). }
  destruct (visited_field _ "Constant" "value" KAny Hc Hconstant eq_refl)
    as (text & Htext & Hk).
  cbn [attr]. rewrite Htext. cbn [bind]. eexists. reflexivity.
Qed.

(** [ast.unparse] returns on the nodes of a list held by a visited node. *)
Lemma unparse_items_return (n : node) (name : string) (items : list value) :
  In n (walk t) ->
  getattr n name = Ok (VList items) ->
  forallb is_node items = true ->
  exists texts, map_result (ast_unparse py) items = Ok texts.
Proof.
  intros Hn Hfield Hitems.
  destruct (map_result_returns (fun _ => True) (ast_unparse py) items)
    as (texts & Htexts & _); [| exists texts; exact Htexts].
  intros item Hitem.
  rewrite forallb_forall in Hitems.
  destruct (is_node_node item (Hitems item Hitem)) as (c & ->).
  destruct (visited_unparses c) as (s & Hs).
  { apply (in_walk_child t n c Hn).
    apply (getattr_item_child n name items c Hfield Hitem). }
  exists s. split; [exact Hs | exact I].
Qed.

Lemma function_record_returns (n : node) :
  In n (walk t) ->
  isinstance (VNode n) "FunctionDef" = true ->
  exists f,
    function_record py n = Ok f
    /\ json_serializable (fn_name f) = true
    /\ forallb json_serializable (fn_args f) = true.
Proof.
  intros Hn Hcls. unfold function_record.
  destruct (visited_field _ "FunctionDef" "name" KText Hn Hcls eq_refl)
    as (name & Hname & Hk).
  apply kind_text in Hk. destruct Hk as (s & ->).
  rewrite Hname. cbn [bind].
  destruct (visited_lineno n "FunctionDef" _ Hn Hcls eq_refl) as (l & Hl).
  rewrite Hl. cbn [bind].
  destruct (visited_field _ "FunctionDef" "args" (KNodeOf "arguments") Hn Hcls eq_refl)
    as (a & Ha & Hk).
  apply kind_node_of in Hk. destruct Hk as (arguments & -> & Harguments).
  rewrite Ha. cbn [bind attr].
  assert (Hin_arguments : In arguments (walk t)).
  { apply (in_walk_child t n arguments Hn).
    apply (getattr_child n "args" arguments Ha). }
  destruct (visited_field _ "arguments" "args" (KNodesOf "arg") Hin_arguments Harguments eq_refl)
    as (arg_list & Harg_list & Hk).
  apply kind_nodes_of in Hk. destruct Hk as (arg_items & -> & Hargs).
  rewrite Harg_list. cbn [bind iterate].
  destruct (map_result_returns (fun v => json_serializable v = true)
              (fun a => attr a "arg") arg_items) as (args & Hmap & Hser).
  { intros item Hitem. rewrite forallb_forall in Hargs.
    pose proof (Hargs item Hitem) as Harg.
    destruct (isinstance_node item "arg" Harg) as (x & -> & _).
    assert (Hx : In x (walk t)).
    { apply (in_walk_child t arguments x Hin_arguments).
      apply (getattr_item_child arguments "args" arg_items x Harg_list Hitem). }
    destruct (visited_field _ "arg" "arg" KText Hx Harg eq_refl)
    as (v & Hv & Hk).
    apply kind_text in Hk. destruct Hk as (text & ->).
    exists (VPrim (PStr text)). split; [exact Hv | reflexivity]. }
  rewrite Hmap. cbn [bind].
  destruct (visited_field _ "FunctionDef" "returns" KOptNode Hn Hcls eq_refl)
    as (returns & Hreturns & Hk).
  rewrite Hreturns. cbn [bind].
  assert (Hreturns_text : exists r,
             (if truthy returns
              then t0 <- ast_unparse py returns ;; Ok (Some t0)
              else Ok None) = Ok r).
  { apply kind_opt_node in Hk. destruct Hk as [-> | (r & ->)].
    - eexists. reflexivity.
    - cbn [truthy]. destruct (visited_unparses r) as (text & Htext).
      { apply (in_walk_child t n r Hn).
        apply (getattr_child n "returns" r Hreturns). }
      rewrite Htext. eexists. reflexivity. }
  destruct Hreturns_text as (r & ->). cbn [bind]. clear Hk.
  destruct (visited_field _ "FunctionDef" "decorator_list" KNodes Hn Hcls eq_refl)
    as (decorators & Hdecorators & Hk).
  apply kind_nodes in Hk. destruct Hk as (decorator_items & -> & Hk).
  rewrite Hdecorators. cbn [bind iterate].
  destruct (unparse_items_return n "decorator_list" decorator_items
              Hn Hdecorators Hk) as (texts & ->).
  cbn [bind].
  destruct (visited_field _ "FunctionDef" "body" KNodes Hn Hcls eq_refl)
    as (body & Hbody & Hkb).
  apply kind_nodes in Hkb. destruct Hkb as (body_items & -> & Hkb).
  destruct (has_docstring_returns n body_items Hn Hbody Hkb) as (doc & ->).
  cbn [bind]. eexists. split; [reflexivity |].
  cbn [fn_name fn_args]. split; [reflexivity |].
  apply forallb_forall. apply Forall_forall. exact Hser.
Qed.

Lemma class_record_returns (n : node) :
  In n (walk t) ->
  isinstance (VNode n) "ClassDef" = true ->
  exists c,
    class_record py n = Ok c
    /\ json_serializable (cl_name c) = true
    /\ forallb json_serializable (cl_methods c) = true.
Proof.
  intros Hn Hcls. unfold class_record.
  destruct (visited_field _ "ClassDef" "name" KText Hn Hcls eq_refl)
    as (name & Hname & Hk).
  apply kind_text in Hk. destruct Hk as (s & ->).
  rewrite Hname. cbn [bind].
  destruct (visited_lineno n "ClassDef" _ Hn Hcls eq_refl) as (l & Hl).
  rewrite Hl. cbn [bind].
  destruct (visited_field _ "ClassDef" "bases" KNodes Hn Hcls eq_refl)
    as (bases & Hbases & Hk).
  apply kind_nodes in Hk. destruct Hk as (base_items & -> & Hk).
  rewrite Hbases. cbn [bind iterate].
  destruct (unparse_items_return n "bases" base_items Hn Hbases Hk)
    as (texts & ->).
  cbn [bind].
  destruct (visited_field _ "ClassDef" "body" KNodes Hn Hcls eq_refl)
    as (body & Hbody & Hkb).
  apply kind_nodes in Hkb. destruct Hkb as (body_items & -> & Hkb).
  rewrite Hbody. cbn [bind iterate].
  destruct (map_result_returns (fun v => json_serializable v = true)
              (fun item => attr item "name")
              (filter (fun item => isinstance item "FunctionDef") body_items))
    as (methods & Hmap & Hser).
  { intros item Hitem. apply filter_In in Hitem.
    destruct Hitem as (Hitem & Hfunction).
    destruct (isinstance_node item "FunctionDef" Hfunction) as (m & -> & _).
    assert (Hm : In m (walk t)).
    { apply (in_walk_child t n m Hn).
      apply (getattr_item_child n "body" body_items m Hbody Hitem). }
    destruct (visited_field _ "FunctionDef" "name" KText Hm Hfunction eq_refl)
    as (v & Hv & Hk').
    apply kind_text in Hk'. destruct Hk' as (text & ->).
    exists (VPrim (PStr text)). split; [exact Hv | reflexivity]. }
  rewrite Hmap. cbn [bind].
  destruct (has_docstring_returns n body_items Hn Hbody Hkb) as (doc & ->).
  cbn [bind]. eexists. split; [reflexivity |].
  cbn [cl_name cl_methods]. split; [reflexivity |].
  apply forallb_forall. apply Forall_forall. exact Hser.
Qed.

(** The fields of an [alias] below a visited import. *)
Lemma alias_fields (n : node) (aliases : list value) (alias : value) :
  In n (walk t) ->
  getattr n "names" = Ok (VList aliases) ->
  forallb (fun item => isinstance item "alias") aliases = true ->
  In alias aliases ->
  exists name asname,
    attr alias "name" = Ok (VPrim (PStr name))
    /\ attr alias "asname" = Ok asname
    /\ json_serializable asname = true.
Proof.
  intros Hn Hnames Haliases Halias.
  rewrite forallb_forall in Haliases. pose proof (Haliases alias Halias) as Hcls.
  destruct (isinstance_node alias "alias" Hcls) as (x & -> & _).
  assert (Hx : In x (walk t)).
  { apply (in_walk_child t n x Hn).
    apply (getattr_item_child n "names" aliases x Hnames Halias). }
  destruct (visited_field _ "alias" "name" KText Hx Hcls eq_refl)
    as (name & Hname & Hk).
  apply kind_text in Hk. destruct Hk as (text & ->).
  destruct (visited_field _ "alias" "asname" KOptText Hx Hcls eq_refl)
    as (asname & Hasname & Hk).
  exists text, asname. cbn [attr].
  split; [exact Hname |]. split; [exact Hasname |].
  apply kind_opt_text in Hk. destruct Hk as [-> | (s & ->)]; reflexivity.
Qed.

Lemma serializable_add_function (s : structure) (f : function_info) :
  structure_serializable s = true ->
  json_serializable (fn_name f) = true ->
  forallb json_serializable (fn_args f) = true ->
  structure_serializable (add_function s f) = true.
Proof.
  unfold structure_serializable, add_function. cbn [functions classes imports globals].
  intros Hs Hname Hargs.
  apply andb_true_iff in Hs. destruct Hs as (Hs & Hg).
  apply andb_true_iff in Hs. destruct Hs as (Hs & Hi).
  apply andb_true_iff in Hs. destruct Hs as (Hf & Hc).
  rewrite forallb_app. cbn [forallb].
  rewrite Hf, Hc, Hi, Hg, Hname, Hargs. reflexivity.
Qed.

Lemma serializable_add_class (s : structure) (c : class_info) :
  structure_serializable s = true ->
  json_serializable (cl_name c) = true ->
  forallb json_serializable (cl_methods c) = true ->
  structure_serializable (add_class s c) = true.
Proof.
  unfold structure_serializable, add_class. cbn [functions classes imports globals].
  intros Hs Hname Hmethods.
  apply andb_true_iff in Hs. destruct Hs as (Hs & Hg).
  apply andb_true_iff in Hs. destruct Hs as (Hs & Hi).
  apply andb_true_iff in Hs. destruct Hs as (Hf & Hc).
  rewrite forallb_app. cbn [forallb].
  rewrite Hf, Hc, Hi, Hg, Hname, Hmethods. reflexivity.
Qed.

Lemma serializable_add_import (s : structure) (i : import_info) :
  structure_serializable s = true ->
  json_serializable (im_module i) = true ->
  json_serializable (im_alias i) = true ->
  structure_serializable (add_import s i) = true.
Proof.
  unfold structure_serializable, add_import. cbn [functions classes imports globals].
  intros Hs Hmodule Halias.
  apply andb_true_iff in Hs. destruct Hs as (Hs & Hg).
  apply andb_true_iff in Hs. destruct Hs as (Hs & Hi).
  apply andb_true_iff in Hs. destruct Hs as (Hf & Hc).
  rewrite forallb_app. cbn [forallb].
  rewrite Hf, Hc, Hi, Hg, Hmodule, Halias. reflexivity.
Qed.

(** A turn of the loop of [get_structure] on a visited node returns, and
    keeps the report one the JSON encoder takes. *)
Lemma structure_step_returns (n : node) (s : structure) :
  In n (walk t) ->
  structure_serializable s = true ->
  exists s',
    structure_step py n s = Ok s' /\ structure_serializable s' = true.
Proof.
  intros Hn Hs. unfold structure_step.
  destruct (isinstance (VNode n) "FunctionDef") eqn:Hfunction.
  { destruct (function_record_returns n Hn Hfunction) as (f & -> & Hname & Hargs).
    cbn [bind]. eexists. split; [reflexivity |].
    apply serializable_add_function; assumption. }
  destruct (isinstance (VNode n) "ClassDef") eqn:Hclass.
  { destruct (class_record_returns n Hn Hclass) as (c & -> & Hname & Hmethods).
    cbn [bind]. eexists. split; [reflexivity |].
    apply serializable_add_class; assumption. }
  destruct (isinstance (VNode n) "Import") eqn:Himport.
  { cbn [orb].
    destruct (visited_field _ "Import" "names" (KNodesOf "alias") Hn Himport eq_refl)
    as (names & Hnames & Hk).
    apply kind_nodes_of in Hk. destruct Hk as (aliases & -> & Haliases).
    rewrite Hnames. cbn [bind iterate].
    destruct (visited_lineno n "Import" _ Hn Himport eq_refl) as (l & Hl).
    apply (for_each_returns (fun s => structure_serializable s = true));
      [| exact Hs].
    intros alias s1 Halias Hs1.
    destruct (alias_fields n aliases alias Hn Hnames Haliases Halias)
      as (name & asname & Hname & Hasname & Hser).
    unfold import_record. rewrite Hname, Hasname, Hl. cbn [bind].
    eexists. split; [reflexivity |].
    apply serializable_add_import; [exact Hs1 | reflexivity | exact Hser]. }
  cbn [orb].
  destruct (isinstance (VNode n) "ImportFrom") eqn:Hfrom;
    [| exists s; split; [reflexivity | exact Hs]].
  destruct (visited_field _ "ImportFrom" "names" (KNodesOf "alias") Hn Hfrom eq_refl)
    as (names & Hnames & Hk).
  apply kind_nodes_of in Hk. destruct Hk as (aliases & -> & Haliases).
  rewrite Hnames. cbn [bind iterate].
  destruct (visited_lineno n "ImportFrom" _ Hn Hfrom eq_refl) as (l & Hl).
  destruct (visited_field _ "ImportFrom" "module" KOptText Hn Hfrom eq_refl)
    as (module & Hmodule & Hk).
  apply (for_each_returns (fun s => structure_serializable s = true));
    [| exact Hs].
  intros alias s1 Halias Hs1.
  destruct (alias_fields n aliases alias Hn Hnames Haliases Halias)
    as (name & asname & Hname & Hasname & Hser).
  unfold import_from_record. rewrite Hmodule, Hname, Hasname, Hl. cbn [bind].
  eexists. split; [reflexivity |].
  apply serializable_add_import; [exact Hs1 | reflexivity | exact Hser].
Qed.

(** [get_structure] returns its report on a tree of the grammar. *)
Lemma get_structure_returns (src : string) (errs : list string) :
  exists s,
    get_structure py {| source_code := src; tree := Some t; errors := errs |}
    = Ok (Report s)
    /\ structure_serializable s = true.
Proof.
  unfold get_structure. cbn [tree].
  destruct (for_each_returns (fun s => structure_serializable s = true)
              (walk t) (structure_step py)
              (fun n s Hn Hs => structure_step_returns n s Hn Hs)
              {| functions := []; classes := []; imports := []; globals := [] |}
              eq_refl) as (s & Hs & Hser).
  rewrite Hs. cbn [bind]. exists s. split; [reflexivity | exact Hser].
Qed.

(** *** The scanner on a tree of the grammar *)

(** The callee of a visited call. *)
Lemma call_func (n : node) :
  In n (walk t) ->
  isinstance (VNode n) "Call" = true ->
  exists f l,
    getattr n "func" = Ok (VNode f) /\ In f (walk t) /\ lineno_of n = Ok l.
Proof.
  intros Hn Hcall.
  destruct (visited_field _ "Call" "func" KNode Hn Hcall eq_refl)
    as (func & Hfunc & Hk).
  apply kind_node in Hk. destruct Hk as (f & ->).
  destruct (visited_lineno n "Call" _ Hn Hcall eq_refl) as (l & Hl).
  exists f, l. split; [exact Hfunc |]. split; [| exact Hl].
  apply (in_walk_child t n f Hn). apply (getattr_child n "func" f Hfunc).
Qed.

(** The arguments of a visited call: no list, or a first item. *)
Lemma call_args (n : node) :
  In n (walk t) ->
  isinstance (VNode n) "Call" = true ->
  exists args,
    getattr n "args" = Ok args
    /\ (truthy args = false
        \/ exists x,
             truthy args = true /\ first_item args = Ok (VNode x)
             /\ In x (walk t)).
Proof.
  intros Hn Hcall.
  destruct (visited_field _ "Call" "args" KNodes Hn Hcall eq_refl)
    as (args & Hargs & Hk).
  apply kind_nodes in Hk. destruct Hk as (items & -> & Hitems).
  exists (VList items). split; [exact Hargs |].
  destruct items as [| first rest]; [left; reflexivity | right].
  cbn [forallb] in Hitems. apply andb_true_iff in Hitems.
  destruct (is_node_node first (proj1 Hitems)) as (x & ->).
  exists x. split; [reflexivity |]. split; [reflexivity |].
  apply (in_walk_child t n x Hn).
  apply (getattr_item_child n "args" _ x Hargs). left. reflexivity.
Qed.

Lemma name_id (f : node) :
  In f (walk t) ->
  isinstance (VNode f) "Name" = true ->
  exists name, getattr f "id" = Ok (VPrim (PStr name)).
Proof.
  intros Hf Hname.
  destruct (visited_field _ "Name" "id" KText Hf Hname eq_refl)
    as (v & Hid & Hk).
  apply kind_text in Hk. destruct Hk as (name & ->).
  exists name. exact Hid.
Qed.

Lemma attribute_attr (f : node) :
  In f (walk t) ->
  isinstance (VNode f) "Attribute" = true ->
  exists a, getattr f "attr" = Ok (VPrim (PStr a)).
Proof.
  intros Hf Hattribute.
  destruct (visited_field _ "Attribute" "attr" KText Hf Hattribute eq_refl)
    as (a & Ha & Hk).
  apply kind_text in Hk. destruct Hk as (text & ->).
  exists text. exact Ha.
Qed.

Lemma is_attribute_of_returns (f : node) (module : string) :
  In f (walk t) ->
  isinstance (VNode f) "Attribute" = true ->
  exists b, is_attribute_of (VNode f) module = Ok b.
Proof.
  intros Hf Hattribute. unfold is_attribute_of.
  destruct (visited_field _ "Attribute" "value" KNode Hf Hattribute eq_refl)
    as (v & Hv & Hk).
  apply kind_node in Hk. destruct Hk as (object & ->).
  cbn [attr]. rewrite Hv. cbn [bind].
  destruct (isinstance (VNode object) "Name") eqn:Hname;
    [| eexists; reflexivity].
  destruct (name_id object) as (name & Hid); [| exact Hname |].
  { apply (in_walk_child t f object Hf).
    apply (getattr_child f "value" object Hv). }
  cbn [attr]. rewrite Hid. eexists. reflexivity.
Qed.

Lemma contains_string_loop_returns (children : list node) :
  (forall c, In c children -> In c (walk t)) ->
  exists b, contains_string_loop children = Ok b.
Proof.
  induction children as [| child rest IH]; intro Hvisited.
  - eexists. reflexivity.
  - cbn [contains_string_loop].
    destruct IH as (b & Hb).
    { intros c Hc. apply Hvisited. right. exact Hc. }
    destruct (isinstance (VNode child) "Constant") eqn:Hconstant;
      [| exists b; exact Hb].
    pose proof (Hvisited child (or_introl eq_refl)) as Hchild.
    destruct (visited_field _ "Constant" "value" KAny Hchild Hconstant eq_refl)
    as (v & Hv & Hk).
    rewrite Hv. cbn [bind].
    destruct (is_str v); [eexists; reflexivity | exists b; exact Hb].
Qed.

Lemma dangerous_functions_step_returns (n : node) (issues : list issue) :
  In n (walk t) -> exists out, dangerous_functions_step n issues = Ok out.
Proof.
  intro Hn. unfold dangerous_functions_step.
  destruct (isinstance (VNode n) "Call") eqn:Hcall; [| returns_now].
  destruct (call_func n Hn Hcall) as (f & l & -> & Hf & Hl). cbn [bind].
  destruct (isinstance (VNode f) "Name") eqn:Hname; [| returns_now].
  destruct (name_id f Hf Hname) as (name & Hid).
  cbn [attr]. rewrite Hid. cbn [bind].
  destruct (dict_get dangerous_funcs name) as [[level desc] |]; [| returns_now].
  rewrite Hl. returns_now.
Qed.

Lemma sql_injection_step_returns (n : node) (issues : list issue) :
  In n (walk t) -> exists out, sql_injection_step n issues = Ok out.
Proof.
  intro Hn. unfold sql_injection_step.
  destruct (isinstance (VNode n) "Call") eqn:Hcall; [| returns_now].
  destruct (call_func n Hn Hcall) as (f & l & -> & Hf & Hl). cbn [bind].
  destruct (isinstance (VNode f) "Attribute") eqn:Hattribute; [| returns_now].
  destruct (attribute_attr f Hf Hattribute) as (a & Ha).
  cbn [attr]. rewrite Ha. cbn [bind].
  destruct (eq_str (VPrim (PStr a)) "execute"); [| returns_now].
  destruct (call_args n Hn Hcall)
    as (args & -> & [Hfalse | (x & Htrue & Hfirst & Hx)]); cbn [bind].
  { rewrite Hfalse. returns_now. }
  rewrite Htrue, Hfirst. cbn [bind].
  destruct (isinstance (VNode x) "JoinedStr"); [rewrite Hl; returns_now |].
  destruct (isinstance (VNode x) "BinOp") eqn:Hbinop; [| returns_now].
  destruct (visited_field _ "BinOp" "op" KNode Hx Hbinop eq_refl)
    as (op & Hop & Hk).
  cbn [attr]. rewrite Hop. cbn [bind].
  destruct (isinstance op "Add"); [| returns_now].
  cbn [_contains_string].
  destruct (contains_string_loop_returns (walk x)) as (b & ->).
  { intros c Hc. apply (in_walk_trans t x c Hx Hc). }
  cbn [bind]. destruct b; [rewrite Hl |]; returns_now.
Qed.

Lemma path_traversal_step_returns (n : node) (issues : list issue) :
  In n (walk t) -> exists out, path_traversal_step n issues = Ok out.
Proof.
  intro Hn. unfold path_traversal_step.
  destruct (isinstance (VNode n) "Call") eqn:Hcall; [| returns_now].
  destruct (call_func n Hn Hcall) as (f & l & -> & Hf & Hl). cbn [bind].
  destruct (isinstance (VNode f) "Name") eqn:Hname; [| returns_now].
  destruct (name_id f Hf Hname) as (name & Hid).
  cbn [attr]. rewrite Hid. cbn [bind].
  destruct (in_tuple (VPrim (PStr name)) ["open"; "read"; "write"]);
    [| returns_now].
  destruct (call_args n Hn Hcall)
    as (args & -> & [Hfalse | (x & Htrue & Hfirst & Hx)]); cbn [bind].
  { rewrite Hfalse. returns_now. }
  rewrite Htrue, Hfirst. cbn [bind].
  destruct (isinstance (VNode x) "Name" || isinstance (VNode x) "BinOp");
    [rewrite Hl |]; returns_now.
Qed.

Lemma unsafe_deserialization_step_returns (n : node) (issues : list issue) :
  In n (walk t) -> exists out, unsafe_deserialization_step n issues = Ok out.
Proof.
  intro Hn. unfold unsafe_deserialization_step.
  destruct (isinstance (VNode n) "Call") eqn:Hcall; [| returns_now].
  destruct (call_func n Hn Hcall) as (f & l & -> & Hf & Hl). cbn [bind].
  destruct (isinstance (VNode f) "Attribute") eqn:Hattribute; [| returns_now].
  destruct (is_attribute_of_returns f "pickle" Hf Hattribute) as (b & ->).
  cbn [bind]. destruct b; [| returns_now].
  destruct (attribute_attr f Hf Hattribute) as (a & Ha).
  cbn [attr]. rewrite Ha. cbn [bind].
  destruct (in_tuple (VPrim (PStr a)) ["loads"; "load"]);
    [rewrite Hl |]; returns_now.
Qed.

Lemma weak_crypto_step_returns (n : node) (issues : list issue) :
  In n (walk t) -> exists out, weak_crypto_step n issues = Ok out.
Proof.
  intro Hn. unfold weak_crypto_step.
  destruct (isinstance (VNode n) "Call") eqn:Hcall; [| returns_now].
  destruct (call_func n Hn Hcall) as (f & l & -> & Hf & Hl). cbn [bind].
  destruct (isinstance (VNode f) "Attribute") eqn:Hattribute; [| returns_now].
  destruct (is_attribute_of_returns f "hashlib" Hf Hattribute) as (b & ->).
  cbn [bind]. destruct b; [| returns_now].
  destruct (attribute_attr f Hf Hattribute) as (a & Ha).
  cbn [attr]. rewrite Ha. cbn [bind].
  destruct (existsb (String.eqb a) weak_algorithms);
    [rewrite Hl |]; returns_now.
Qed.

Lemma shell_injection_step_returns (n : node) (issues : list issue) :
  In n (walk t) -> exists out, shell_injection_step n issues = Ok out.
Proof.
  intro Hn. unfold shell_injection_step.
  destruct (isinstance (VNode n) "Call") eqn:Hcall; [| returns_now].
  destruct (call_func n Hn Hcall) as (f & l & -> & Hf & Hl). cbn [bind].
  destruct (isinstance (VNode f) "Attribute") eqn:Hattribute; [| returns_now].
  destruct (is_attribute_of_returns f "os" Hf Hattribute) as (b & ->).
  cbn [bind]. destruct b; [| returns_now].
  destruct (attribute_attr f Hf Hattribute) as (a & Ha).
  cbn [attr]. rewrite Ha. cbn [bind].
  destruct (eq_str (VPrim (PStr a)) "system"); [rewrite Hl |]; returns_now.
Qed.

Lemma check_hardcoded_secrets_returns (src : string) (issues : list issue) :
  exists out, _check_hardcoded_secrets src issues = Ok out.
Proof.
  unfold _check_hardcoded_secrets.
  destruct (for_each_returns (fun _ => True) (enumerate (splitlines src) 1%Z)
              (fun numbered issues =>
                 for_each secret_patterns
                   (secret_pattern_step (fst numbered) (snd numbered)) issues))
    with (s := issues) as (out & Hout & _); [| exact I | exists out; exact Hout].
  intros numbered s _ _.
  apply (for_each_returns (fun _ => True)); [| exact I].
  intros [pattern secret_type] s1 _ _. unfold secret_pattern_step.
  destruct (re_search pattern (snd numbered)); eexists; split; try reflexivity;
    exact I.
Qed.

(** A check that loops over the nodes of the tree returns when its body
    returns on the visited nodes. *)
Lemma check_returns (step : node -> list issue -> result (list issue))
    (issues : list issue) :
  (forall n s, In n (walk t) -> exists out, step n s = Ok out) ->
  exists out, for_each (walk t) step issues = Ok out.
Proof.
  intro Hstep.
  destruct (for_each_returns (fun _ => True) (walk t) step)
    with (s := issues) as (out & Hout & _); [| exact I | exists out; exact Hout].
  intros n s Hn _. destruct (Hstep n s Hn) as (out & Hout).
  exists out. split; [exact Hout | exact I].
Qed.

(** [scan] returns on a tree of the grammar. *)
Lemma scan_returns (src : string) : exists fs, scan src t = Ok fs.
Proof.
  unfold scan, run_checks.
  destruct (check_returns dangerous_functions_step [])
    as (i1 & H1); [intros; apply dangerous_functions_step_returns; assumption |].
  destruct (check_returns sql_injection_step i1)
    as (i2 & H2); [intros; apply sql_injection_step_returns; assumption |].
  destruct (check_returns path_traversal_step i2)
    as (i3 & H3); [intros; apply path_traversal_step_returns; assumption |].
  destruct (check_returns unsafe_deserialization_step i3)
    as (i4 & H4);
    [intros; apply unsafe_deserialization_step_returns; assumption |].
  destruct (check_hardcoded_secrets_returns src i4) as (i5 & H5).
  destruct (check_returns weak_crypto_step i5)
    as (i6 & H6); [intros; apply weak_crypto_step_returns; assumption |].
  destruct (check_returns shell_injection_step i6)
    as (i7 & H7); [intros; apply shell_injection_step_returns; assumption |].
  unfold _check_dangerous_functions, _check_sql_injection,
    _check_path_traversal, _check_unsafe_deserialization, _check_weak_crypto,
    _check_shell_injection.
  rewrite H1. cbn [bind]. rewrite H2. cbn [bind]. rewrite H3. cbn [bind].
  rewrite H4. cbn [bind]. rewrite H5. cbn [bind]. rewrite H6. cbn [bind].
  rewrite H7. cbn [bind]. eexists. reflexivity.
Qed.

End WellFormedTrees.




(** * The properties the specification states *)


(** The limits leave out the two kinds of text that parse and that the
    interpreter cannot analyze: a number of 3600 hexadecimal digits has more
    than 4300 digits, and 1500 minus signs nest deeper than the recursion
    limit allows; 400 hexadecimal digits and 300 minus signs are within the
    limits. *)
Example limits_on_examples :
  int_printable (16 ^ 3600 - 1) = false
  /\ within_limits (tree_hex 3600) = false
  /\ within_limits (tree_minus 1500) = false
  /\ tree_height (tree_minus 1500) = 1504
  /\ within_limits (tree_hex 400) = true
  /\ within_limits (tree_minus 300) = true.
Proof. vm_compute. repeat split. Qed.



(** C2 as it is stated fails: on a text with a NUL character the parser
    raises a [ValueError], which has no line; [analyze_code] returns
    [success] false and one message, and the message names no line: it holds
    no digit at all. *)
Lemma parse_error_without_line :
  ast_parse sample_runtime src_nul
  = ParseException "source code string cannot contain null bytes"
  /\ analyze_code sample_runtime src_nul
     = [("success", EBool false);
        ("errors",
         EErrors ["Parse error: source code string cannot contain null bytes"])]
  /\ existsb is_digit
       (list_ascii_of_string
          "Parse error: source code string cannot contain null bytes")
     = false
  /\ contains "Parse error: source code string cannot contain null bytes" "line"
     = false.
Proof.
  repeat split; vm_compute; reflexivity.
Qed.

(** C2, amended: when parsing fails, [analyze_code] returns a dict with
    [success] false and a list of one message, and no [structure], [metrics],
    [ast] or [findings]; nothing is raised.  The message is
    [Syntax error at line L: D], with the line and the description of the
    error, when the parser raises a [SyntaxError]; when it raises another
    exception the message is [Parse error: D], and has the description
    only. *)
Theorem analyze_parse_failure (py : runtime) (src : string) :
  (forall l msg,
      ast_parse py src = SyntaxError l msg ->
      analyze_code py src
      = [("success", EBool false);
         ("errors",
          EErrors ["Syntax error at line " +++ format_lineno l +++ ": " +++ msg])])
  /\ (forall text,
        ast_parse py src = ParseException text ->
        analyze_code py src
        = [("success", EBool false);
           ("errors", EErrors ["Parse error: " +++ text])])
  /\ ((forall t, ast_parse py src <> Parsed t) ->
      exists message,
        analyze_code py src
        = [("success", EBool false); ("errors", EErrors [message])]
        /\ dict_get (analyze_code py src) "structure" = None
        /\ dict_get (analyze_code py src) "metrics" = None
        /\ dict_get (analyze_code py src) "ast" = None
        /\ dict_get (analyze_code py src) "findings" = None).
Proof.
  assert (Hsyntax : forall l msg,
             ast_parse py src = SyntaxError l msg ->
             analyze_code py src
             = [("success", EBool false);
                ("errors",
                 EErrors ["Syntax error at line " +++ format_lineno l
                          +++ ": " +++ msg])]).
  { intros l msg H. unfold analyze_code, parse, init. cbn [source_code].
    rewrite H. reflexivity. }
  assert (Hother : forall text,
             ast_parse py src = ParseException text ->
             analyze_code py src
             = [("success", EBool false);
                ("errors", EErrors ["Parse error: " +++ text])]).
  { intros text H. unfold analyze_code, parse, init. cbn [source_code].
    rewrite H. reflexivity. }
  split; [exact Hsyntax |]. split; [exact Hother |].
  intro Hfails.
  destruct (ast_parse py src) as [t | l msg | text] eqn:Hparse.
  - exfalso. apply (Hfails t). reflexivity.
  - rewrite (Hsyntax l msg eq_refl). eexists. repeat split.
  - rewrite (Hother text eq_refl). eexists. repeat split.
Qed.

(** C2, amended, on a text the parser rejects with a [SyntaxError]. *)
Lemma analyze_parse_failure_witness :
  analyze_code sample_runtime src_bad_syntax
  = [("success", EBool false);
     ("errors", EErrors ["Syntax error at line 1: invalid syntax"])].
Proof.
  apply (proj1 (analyze_parse_failure sample_runtime src_bad_syntax)
           (Some 1%Z) "invalid syntax").
  reflexivity.
Defined.

(** C3: on a tree of the grammar [scan] returns a list; the list [scan]
    returns is in non-decreasing order of severity rank (CRITICAL 0, HIGH 1,
    MEDIUM 2, LOW 3, INFO 4), and the findings of one severity stand in it
    as the rules gave them, the rules taken in the order they run: the list
    is the CRITICAL findings of the rules, then their HIGH findings, and so
    on.  That is not the order of the lines, as the text
    [src_pickle_then_eval] shows: its finding of line 2 comes before its
    finding of line 1. *)
Theorem scan_sorted_stable :
  (forall (src : string) (t : node),
      well_formed t = true -> exists fs, scan src t = Ok fs)
  /\ (forall (src : string) (t : node) (fs : list issue),
        scan src t = Ok fs ->
        StronglySorted
          (fun a b => rank_of (severity a) <= rank_of (severity b)) fs
        /\ exists outputs,
             rule_outputs src t = Ok outputs
             /\ Permutation fs (List.concat outputs)
             /\ (forall s,
                   of_severity s fs = of_severity s (List.concat outputs))
             /\ fs = flat_map
                       (fun s => of_severity s (List.concat outputs))
                       severity_order)
  /\ exists first second,
       scan src_pickle_then_eval tree_pickle_then_eval = Ok [first; second]
       /\ severity first = severity second
       /\ (lineno second < lineno first)%Z.
Proof.
  split; [intros src t Hshape; apply scan_returns; exact Hshape |].
  split.
  - intros src t fs Hscan. apply scan_unfold in Hscan.
    destruct Hscan as (outputs & Hout & ->).
    assert (Hsorted : StronglySorted
                        (fun a b => rank_of (severity a) <= rank_of (severity b))
                        (sort_by_key severity_rank (List.concat outputs))).
    { pose proof (sort_by_key_sorted severity_rank (List.concat outputs))
        as Hsorted.
      revert Hsorted. apply StronglySorted_ind.
      - constructor.
      - intros x l _ IH Hall. constructor; [exact IH |].
        apply (Forall_impl _ (P := by_key severity_rank x)); [| exact Hall].
        intros y Hxy. unfold by_key in Hxy.
        rewrite !severity_rank_rank_of in Hxy. exact Hxy. }
    assert (Hstable : forall s,
               of_severity s (sort_by_key severity_rank (List.concat outputs))
               = of_severity s (List.concat outputs)).
    { intro s. unfold of_severity.
      apply sort_by_key_stable. apply of_severity_one_key. }
    split; [exact Hsorted |].
    exists outputs. split; [exact Hout |].
    split; [apply sort_by_key_permutation |].
    split; [exact Hstable |].
    rewrite (sorted_by_severity _ Hsorted) at 1.
    apply flat_map_ext. exact Hstable.
  - eexists. eexists. split; [vm_compute; reflexivity |].
    split; [reflexivity | reflexivity].
Qed.

(** C3 on the text of [src_mixed]: the three findings come out by severity,
    the rules having given them in another order. *)
Lemma scan_sorted_stable_witness :
  exists fs outputs,
    scan src_mixed tree_mixed = Ok fs
    /\ rule_outputs src_mixed tree_mixed = Ok outputs
    /\ map severity (List.concat outputs) = [HIGH; CRITICAL; MEDIUM]
    /\ map severity fs = [CRITICAL; HIGH; MEDIUM]
    /\ StronglySorted
         (fun a b => rank_of (severity a) <= rank_of (severity b)) fs
    /\ forall s, of_severity s fs = of_severity s (List.concat outputs).
Proof.
  destruct (proj1 scan_sorted_stable src_mixed tree_mixed)
    as (fs & Hscan); [vm_compute; reflexivity |].
  destruct (proj1 (proj2 scan_sorted_stable) src_mixed tree_mixed fs Hscan)
    as (Hsorted & outputs & Hout & _ & Hstable & _).
  exists fs, outputs. split; [exact Hscan |]. split; [exact Hout |].
  split; [| split; [| split; [exact Hsorted | exact Hstable]]].
  - vm_compute in Hout. injection Hout as <-. reflexivity.
  - vm_compute in Hscan. injection Hscan as <-. reflexivity.
Defined.

(** C4: the counts of [get_metrics] add up: [total_lines] is the sum of
    [code_lines], [comment_lines] and [blank_lines], for every source text
    (so, for those free of multi-line string literals that look like
    comments); a blank line is one that is empty once stripped, a comment
    line one that begins with [#] once stripped, a code line any other. *)
Theorem line_counts_add_up (src : string) (t : node) (errs : list string) :
  exists m,
    get_metrics {| source_code := src; tree := Some t; errors := errs |}
    = Report m
    /\ total_lines m = code_lines m + comment_lines m + blank_lines m
    /\ total_lines m = List.length (splitlines src)
    /\ blank_lines m = count_lines is_blank_line (splitlines src)
    /\ comment_lines m = count_lines is_comment_line (splitlines src)
    /\ code_lines m = count_lines is_code_line (splitlines src).
Proof.
  unfold get_metrics. cbn [tree source_code].
  eexists. split; [reflexivity |].
  unfold set_max_nesting_depth. cbn [total_lines code_lines comment_lines blank_lines].
  match goal with
  | |- context [fold_left metrics_step ?l ?m0] =>
      destruct (metrics_loop_lines l m0) as (Ht & Hc & Hm & Hb)
  end.
  rewrite Ht, Hc, Hm, Hb.
  cbn [total_lines code_lines comment_lines blank_lines].
  unfold _count_code_lines, _count_comment_lines, _count_blank_lines.
  cbn [source_code].
  assert (Hcode : count_lines
                    (fun line => nonempty (strip line)
                                 && negb (startswith (strip line) "#"))
                    (splitlines src)
                  = count_lines is_code_line (splitlines src)).
  { apply count_lines_ext. intro line.
    unfold is_code_line, is_blank_line, is_comment_line.
    rewrite nonempty_eqb. reflexivity. }
  assert (Hblank : count_lines (fun line => negb (nonempty (strip line)))
                     (splitlines src)
                   = count_lines is_blank_line (splitlines src)).
  { apply count_lines_ext. intro line. unfold is_blank_line.
    rewrite nonempty_eqb, negb_involutive. reflexivity. }
  rewrite Hcode, Hblank.
  change (fun line => startswith (strip line) "#") with is_comment_line.
  repeat split; try reflexivity.
  apply line_kinds_partition.
Qed.

(** C5: on a tree of the grammar [get_structure] returns its report, and
    whenever it returns one, [get_metrics] returns one too, whose
    [function_count] is the length of the [functions] list of the structure
    report and whose [class_count] is the length of its [classes] list: the
    two traversals agree. *)
Theorem counts_agree_with_structure (py : runtime) (self : ASTAnalyzer) :
  (forall t,
      tree self = Some t ->
      well_formed t = true -> unparse_total py t = true ->
      exists s, get_structure py self = Ok (Report s))
  /\ forall s,
       get_structure py self = Ok (Report s) ->
       exists m,
         get_metrics self = Report m
         /\ function_count m = List.length (functions s)
         /\ class_count m = List.length (classes s).
Proof.
  split.
  - intros t Htree Hshape Hunparse.
    destruct self as [src tree0 errs]. cbn [tree] in Htree. subst tree0.
    destruct (get_structure_returns py t Hshape Hunparse src errs)
      as (s & Hs & _).
    exists s. exact Hs.
  - intro s. unfold get_structure, get_metrics.
    destruct (tree self) as [t |]; [| discriminate].
    intro H. apply bind_ok in H. destruct H as (s' & Hloop & [= ->]).
    eexists. split; [reflexivity |].
    apply structure_loop_counts in Hloop. cbn [functions classes] in Hloop.
    unfold set_max_nesting_depth. cbn [function_count class_count].
    match goal with
    | |- context [fold_left metrics_step ?l ?m0] =>
        destruct (metrics_loop_counts l m0) as (Hf & Hc)
    end.
    rewrite Hf, Hc. cbn [function_count class_count].
    simpl List.length in Hloop. lia.
Qed.

(** C5 on the tree of [src_shapes]: one function, one class. *)
Lemma counts_agree_witness :
  exists s m,
    get_structure sample_runtime
      {| source_code := src_shapes; tree := Some tree_shapes; errors := [] |}
    = Ok (Report s)
    /\ get_metrics
         {| source_code := src_shapes; tree := Some tree_shapes; errors := [] |}
       = Report m
    /\ function_count m = List.length (functions s)
    /\ class_count m = List.length (classes s)
    /\ function_count m = 1 /\ class_count m = 1.
Proof.
  pose (self := {| source_code := src_shapes; tree := Some tree_shapes;
                   errors := [] |}).
  destruct (proj1 (counts_agree_with_structure sample_runtime self)
              tree_shapes eq_refl) as (s & Hs);
    [vm_compute; reflexivity | vm_compute; reflexivity |].
  destruct (proj2 (counts_agree_with_structure sample_runtime self) s Hs)
    as (m & Hm & Hf & Hc).
  exists s, m. fold self.
  split; [exact Hs |]. split; [exact Hm |].
  split; [exact Hf |]. split; [exact Hc |].
  vm_compute in Hm. injection Hm as <-. split; reflexivity.
Defined.

(** C6: [max_nesting_depth] is the greatest number, over the paths from the
    root to a node, of the nodes of kind If, For, While, With, Try,
    FunctionDef or ClassDef met on the way down from the root; descending
    into a node of another kind leaves the running depth as it is; a tree
    with no node of these kinds has depth 0.  The descent starts at the
    root, which is not counted; when the root is of none of these kinds, as
    the [Module] at the root of a tree [ast.parse] returns, counting it
    changes nothing.  A node is counted exactly when its class is one of
    the seven. *)
Theorem max_nesting_depth_deepest_path (src : string) (t : node)
    (errs : list string) :
  exists m,
    get_metrics {| source_code := src; tree := Some t; errors := errs |}
    = Report m
    /\ max_nesting_depth m
       = list_max (map (fun p => nesting_count (tl p)) (paths t))
    /\ (is_nesting t = false ->
        max_nesting_depth m = list_max (map nesting_count (paths t)))
    /\ (forall n d,
          _calculate_max_depth n d
          = fold_left
              (fun deepest child =>
                 Nat.max deepest
                   (_calculate_max_depth child
                      (if is_nesting child then d + 1 else d)))
              (iter_child_nodes n) d)
    /\ ((forall n, In n (walk t) -> is_nesting n = false) ->
        max_nesting_depth m = 0)
    /\ (forall n,
          is_nesting n = true
          <-> In (node_cls n)
                ["If"; "For"; "While"; "With"; "Try"; "FunctionDef";
                 "ClassDef"]).
Proof.
  unfold get_metrics. cbn [tree]. eexists. split; [reflexivity |].
  unfold set_max_nesting_depth. cbn [max_nesting_depth].
  assert (Hpaths : _calculate_max_depth t 0
                   = list_max (map (fun p => nesting_count (tl p)) (paths t))).
  { rewrite max_depth_paths. reflexivity. }
  split; [exact Hpaths |].
  split; [| split; [exact max_depth_unfold | split]].
  - intro Hroot. rewrite Hpaths. f_equal.
    apply map_ext_in. intros p Hp.
    apply paths_begin in Hp. destruct Hp as (q & ->).
    cbn [tl]. rewrite nesting_count_cons, Hroot. reflexivity.
  - intro Hnone. rewrite Hpaths.
    apply list_max_zero. intros p Hp.
    unfold nesting_count.
    assert (Hfilter : filter is_nesting (tl p) = []).
    { destruct (filter is_nesting (tl p)) as [| x rest] eqn:Hf;
        [reflexivity | exfalso].
      assert (Hx : In x (filter is_nesting (tl p)))
        by (rewrite Hf; left; reflexivity).
      apply filter_In in Hx. destruct Hx as (Hx & Hnest).
      assert (Hxp : In x p).
      { destruct p as [| y q]; [contradiction | right; exact Hx]. }
      rewrite (Hnone x) in Hnest; [discriminate |].
      apply in_walk. apply (paths_nodes t p x Hp Hxp). }
    rewrite Hfilter. reflexivity.
  - intro n. unfold is_nesting, nesting_classes. rewrite existsb_exists.
    split.
    + intros (cls & Hcls & Htest). cbn [isinstance] in Htest.
      apply String.eqb_eq in Htest. rewrite Htest. exact Hcls.
    + intro Hcls. exists (node_cls n). split; [exact Hcls |].
      cbn [isinstance]. apply String.eqb_refl.
Qed.

(** C7: for a call whose callee is the bare name eval, exec, compile or
    __import__, the dangerous-function rule appends exactly one finding, at
    the line of the call, HIGH for eval and exec, MEDIUM for compile and
    __import__, and the finding is among those the rule returns for a tree
    that holds the call; the text [eval(x)] gives exactly one finding, HIGH,
    whose title names eval. *)
Theorem dangerous_call_one_finding :
  (forall (call callee : node) (name : string) (line : Z),
      isinstance (VNode call) "Call" = true ->
      getattr call "func" = Ok (VNode callee) ->
      isinstance (VNode callee) "Name" = true ->
      getattr callee "id" = Ok (VPrim (PStr name)) ->
      In name ["eval"; "exec"; "compile"; "__import__"] ->
      node_lineno call = Some line ->
      exists f,
        lineno f = line
        /\ severity f
           = (if existsb (String.eqb name) ["eval"; "exec"] then HIGH else MEDIUM)
        /\ title f = "Dangerous function: " +++ name +++ "()"
        /\ (forall issues,
              dangerous_functions_step call issues = Ok (issues ++ [f]))
        /\ (forall t out,
              In call (walk t) ->
              _check_dangerous_functions t [] = Ok out -> In f out))
  /\ exists f,
       scan src_eval_x tree_eval_x = Ok [f]
       /\ _check_dangerous_functions tree_eval_x [] = Ok [f]
       /\ severity f = HIGH
       /\ lineno f = 1%Z
       /\ contains (title f) "eval" = true.
Proof.
  split.
  - intros call callee name line Hcall Hfunc Hname Hid Hin Hline.
    assert (Hentry : exists desc,
               dict_get dangerous_funcs name
               = Some (if existsb (String.eqb name) ["eval"; "exec"]
                       then HIGH else MEDIUM, desc)).
    { destruct Hin as [<- | [<- | [<- | [<- | []]]]]; eexists; reflexivity. }
    destruct Hentry as (desc & Hentry).
    assert (Hstep : forall issues,
               dangerous_functions_step call issues
               = Ok (_add_issue issues
                       (if existsb (String.eqb name) ["eval"; "exec"]
                        then HIGH else MEDIUM)
                       ("Dangerous function: " +++ name +++ "()") desc line
                       ("Avoid using " +++ name +++ "(). "
                        +++ "Consider safer alternatives like ast.literal_eval() for eval(), "
                        +++ "or refactor to eliminate dynamic code execution."))).
    { intro issues. unfold dangerous_functions_step.
      rewrite Hcall, Hfunc. cbn [bind]. rewrite Hname.
      cbn [attr]. rewrite Hid. cbn [bind]. rewrite Hentry.
      unfold lineno_of. rewrite Hline. reflexivity. }
    unfold _add_issue in Hstep.
    eexists. split; [| split; [| split; [| split]]]; cycle 3.
    + exact Hstep.
    + intros t out Hwalk Hrun.
      apply (for_each_includes (walk t) dangerous_functions_step
               dangerous_functions_step_appends call _ out Hwalk (Hstep [])
               Hrun).
      left. reflexivity.
    + reflexivity.
    + reflexivity.
    + reflexivity.
  - eexists. split; [vm_compute; reflexivity |].
    split; [vm_compute; reflexivity |].
    split; [reflexivity |]. split; [reflexivity |].
    vm_compute. reflexivity.
Qed.

(** C7 on the call [eval(x)]. *)
Lemma dangerous_call_one_finding_witness :
  In call_eval_x (walk tree_eval_x)
  /\ exists f,
       lineno f = 1%Z
       /\ severity f = HIGH
       /\ title f = "Dangerous function: eval()"
       /\ (forall issues,
             dangerous_functions_step call_eval_x issues = Ok (issues ++ [f]))
       /\ (forall t out,
             In call_eval_x (walk t) ->
             _check_dangerous_functions t [] = Ok out -> In f out).
Proof.
  split.
  - vm_compute. tauto.
  - apply (proj1 dangerous_call_one_finding
             call_eval_x (mk_Name 1 0 "eval" "Load") "eval" 1%Z);
      try reflexivity.
    left. reflexivity.
Defined.

(** C8, on the code: [os.system(cmd)] gives exactly one finding, HIGH, and
    [subprocess.run(cmd, shell=False)] gives none from the shell-injection
    rule; but [subprocess.run(cmd, shell=True)] gives none either, where one
    HIGH finding is expected: the [elif] that looks for [shell=True] hangs
    on the [if] that has just found the callee to be no attribute, so no
    finding titled [shell=True] is ever appended. *)
Theorem shell_injection_findings :
  (exists f,
      scan src_os_system tree_os_system = Ok [f]
      /\ severity f = HIGH /\ lineno f = 1%Z)
  /\ _check_shell_injection tree_run_shell_false [] = Ok []
  /\ _check_shell_injection tree_run_shell_true [] = Ok []
  /\ scan src_run_shell_true tree_run_shell_true = Ok []
  /\ forall t issues out,
       _check_shell_injection t issues = Ok out ->
       Forall (fun x => title x <> "Shell injection risk: shell=True") issues ->
       Forall (fun x => title x <> "Shell injection risk: shell=True") out.
Proof.
  split; [eexists; split; [vm_compute; reflexivity | split; reflexivity] |].
  split; [vm_compute; reflexivity |].
  split; [vm_compute; reflexivity |].
  split; [vm_compute; reflexivity |].
  intros t issues out Hrun Hissues. revert Hissues Hrun.
  unfold _check_shell_injection.
  apply for_each_invariant.
  intros n s s' _ Hs Hstep.
  pose proof (shell_injection_step_outcomes n s) as Hout.
  rewrite Hstep in Hout. destruct Hout as [-> | (line & ->)].
  - exact Hs.
  - apply Forall_app. split; [exact Hs |].
    constructor; [| constructor]. cbn [title os_system_issue]. discriminate.
Qed.

(** C9 as it is stated fails: in [import pickle as p] then [p.loads(data)]
    the name [p] stands for the module [pickle], the call [p.loads(data)] is
    visited, and the rule appends nothing, nor does [scan] return a
    finding. *)
Lemma pickle_alias_not_resolved :
  resolves_to tree_pickle_alias "p" "pickle" = true
  /\ In call_p_loads (walk tree_pickle_alias)
  /\ isinstance (VNode call_p_loads) "Call" = true
  /\ (exists callee,
        getattr call_p_loads "func" = Ok callee
        /\ isinstance callee "Attribute" = true
        /\ attr callee "attr" = Ok (VPrim (PStr "loads"))
        /\ is_attribute_of callee "p" = Ok true)
  /\ unsafe_deserialization_step call_p_loads [] = Ok []
  /\ _check_unsafe_deserialization tree_pickle_alias [] = Ok []
  /\ scan src_pickle_alias tree_pickle_alias = Ok [].
Proof.
  split; [vm_compute; reflexivity |].
  split; [vm_compute; tauto |].
  split; [reflexivity |].
  split; [eexists; repeat split; vm_compute; reflexivity |].
  split; [vm_compute; reflexivity |].
  split; vm_compute; reflexivity.
Qed.

(** C9, amended: for a call [<name>.loads(...)] or [<name>.load(...)] whose
    [<name>] is the identifier [pickle] itself, the unsafe-deserialization
    rule appends exactly one finding, HIGH, at the line of the call, and the
    finding is among those the rule returns for a tree that holds the call;
    the rule compares the identifier with the text [pickle] and resolves no
    import alias, so under any other identifier the call gets no finding. *)
Theorem pickle_call_one_finding (call callee object : node)
    (name method : string) (line : Z) :
  isinstance (VNode call) "Call" = true ->
  getattr call "func" = Ok (VNode callee) ->
  isinstance (VNode callee) "Attribute" = true ->
  getattr callee "value" = Ok (VNode object) ->
  isinstance (VNode object) "Name" = true ->
  getattr object "id" = Ok (VPrim (PStr name)) ->
  getattr callee "attr" = Ok (VPrim (PStr method)) ->
  In method ["loads"; "load"] ->
  node_lineno call = Some line ->
  (name = "pickle" ->
   (forall issues,
      unsafe_deserialization_step call issues
      = Ok (issues ++ [pickle_issue line]))
   /\ (forall t out,
         In call (walk t) ->
         _check_unsafe_deserialization t [] = Ok out ->
         In (pickle_issue line) out))
  /\ (name <> "pickle" ->
      forall issues, unsafe_deserialization_step call issues = Ok issues).
Proof.
  intros Hcall Hfunc Hattribute Hvalue Hname Hid Hattr Hmethod Hline.
  assert (Htest : is_attribute_of (VNode callee) "pickle"
                  = Ok (name =? "pickle")%string).
  { unfold is_attribute_of. cbn [attr]. rewrite Hvalue. cbn [bind].
    rewrite Hname. cbn [attr]. rewrite Hid. reflexivity. }
  assert (Hmethods : in_tuple (VPrim (PStr method)) ["loads"; "load"] = true).
  { destruct Hmethod as [<- | [<- | []]]; reflexivity. }
  split.
  - intros ->.
    assert (Hstep : forall issues,
               unsafe_deserialization_step call issues
               = Ok (issues ++ [pickle_issue line])).
    { intro issues. unfold unsafe_deserialization_step.
      rewrite Hcall, Hfunc. cbn [bind]. rewrite Hattribute, Htest.
      cbn [bind attr String.eqb Ascii.eqb Bool.eqb].
      rewrite Hattr. cbn [bind]. rewrite Hmethods.
      unfold lineno_of. rewrite Hline. reflexivity. }
    split; [exact Hstep |].
    intros t out Hwalk Hrun.
    apply (for_each_includes (walk t) unsafe_deserialization_step
             unsafe_deserialization_step_appends call _ out Hwalk (Hstep [])
             Hrun).
    left. reflexivity.
  - intros Hother issues. unfold unsafe_deserialization_step.
    rewrite Hcall, Hfunc. cbn [bind]. rewrite Hattribute, Htest.
    apply String.eqb_neq in Hother. rewrite Hother. reflexivity.
Qed.

(** C9, amended, on the call [pickle.loads(data)] of [src_pickle_loads]. *)
Lemma pickle_call_one_finding_witness :
  In call_pickle_loads (walk tree_pickle_loads)
  /\ _check_unsafe_deserialization tree_pickle_loads []
     = Ok [pickle_issue 2]
  /\ (forall issues,
        unsafe_deserialization_step call_pickle_loads issues
        = Ok (issues ++ [pickle_issue 2]))
  /\ (forall t out,
        In call_pickle_loads (walk t) ->
        _check_unsafe_deserialization t [] = Ok out ->
        In (pickle_issue 2) out).
Proof.
  split; [vm_compute; tauto |].
  split; [vm_compute; reflexivity |].
  apply (proj1 (pickle_call_one_finding call_pickle_loads
                  (mk_Attribute 2 0 (mk_Name 2 0 "pickle" "Load") "loads" "Load")
                  (mk_Name 2 0 "pickle" "Load") "pickle" "loads" 2%Z
                  eq_refl eq_refl eq_refl eq_refl eq_refl eq_refl eq_refl
                  (or_introl eq_refl) eq_refl)).
  reflexivity.
Defined.

(** C10: on a tree of the grammar [scan] returns a list, and every finding
    [scan] returns has severity CRITICAL, HIGH or MEDIUM: the order of
    severities knows LOW and INFO, but no rule gives them, so the list
    returned holds neither. *)
Theorem scan_never_low_or_info (src : string) (t : node) :
  (well_formed t = true -> exists fs, scan src t = Ok fs)
  /\ forall fs,
       scan src t = Ok fs ->
       Forall at_least_medium fs
       /\ Forall (fun x => severity x <> LOW /\ severity x <> INFO) fs.
Proof.
  split; [intro Hshape; apply scan_returns; exact Hshape |].
  intros fs Hscan. apply scan_unfold in Hscan.
  destruct Hscan as (outputs & Hout & ->).
  assert (Hall : Forall at_least_medium
                   (sort_by_key severity_rank (List.concat outputs))).
  { apply (Permutation_Forall
             (Permutation_sym (sort_by_key_permutation severity_rank _))).
    apply (rule_outputs_levels src t outputs Hout). }
  split; [exact Hall |].
  apply (Forall_impl _ (P := at_least_medium)); [| exact Hall].
  intros x [H | [H | H]]; rewrite H; split; discriminate.
Qed.

(** C10 on the text of [src_mixed], whose findings are one of each of the
    three severities. *)
Lemma scan_never_low_or_info_witness :
  exists fs,
    scan src_mixed tree_mixed = Ok fs
    /\ map severity fs = [CRITICAL; HIGH; MEDIUM]
    /\ Forall at_least_medium fs
    /\ Forall (fun x => severity x <> LOW /\ severity x <> INFO) fs.
Proof.
  destruct (proj1 (scan_never_low_or_info src_mixed tree_mixed))
    as (fs & Hscan); [vm_compute; reflexivity |].
  exists fs. split; [exact Hscan |].
  split.
  - vm_compute in Hscan. injection Hscan as <-. reflexivity.
  - exact (proj2 (scan_never_low_or_info src_mixed tree_mixed) fs Hscan).
Defined.

(** * Further properties of the analyzer and the scanner *)

(** ** The lists of the structure report *)

Lemma map_result_in {A B : Type} (f : A -> result B) (xs : list A)
    (ys : list B) (y : B) :
  map_result f xs = Ok ys -> In y ys -> exists x, In x xs /\ f x = Ok y.
Proof.
  revert ys. induction xs as [|x xs IH]; intros ys H Hy.
  - injection H as <-. destruct Hy.
  - cbn [map_result] in H.
    apply bind_ok in H as (z & Hz & H).
    apply bind_ok in H as (zs & Hzs & H).
    injection H as <-.
    destruct Hy as [<- | Hy].
    + exists x. split; [left; reflexivity | exact Hz].
    + destruct (IH zs Hzs Hy) as (x' & Hin & Hx').
      exists x'. split; [right; exact Hin | exact Hx'].
Qed.

Lemma map_result_image {A B : Type} (f : A -> result B) (xs : list A)
    (ys : list B) (x : A) :
  map_result f xs = Ok ys -> In x xs -> exists y, f x = Ok y /\ In y ys.
Proof.
  revert ys. induction xs as [|x' xs IH]; intros ys H Hx.
  - destruct Hx.
  - cbn [map_result] in H.
    apply bind_ok in H as (z & Hz & H).
    apply bind_ok in H as (zs & Hzs & H).
    injection H as <-.
    destruct Hx as [-> | Hx].
    + exists z. split; [exact Hz | left; reflexivity].
    + destruct (IH zs Hzs Hx) as (y & Hy & Hin).
      exists y. split; [exact Hy | right; exact Hin].
Qed.

Lemma map_result_length {A B : Type} (f : A -> result B) (xs : list A)
    (ys : list B) :
  map_result f xs = Ok ys -> List.length ys = List.length xs.
Proof.
  revert ys. induction xs as [|x xs IH]; intros ys H.
  - injection H as <-. reflexivity.
  - cbn [map_result] in H.
    apply bind_ok in H as (z & Hz & H).
    apply bind_ok in H as (zs & Hzs & H).
    injection H as <-. cbn [List.length]. rewrite (IH zs Hzs). reflexivity.
Qed.

(** The loop over the names of an import statement appends one record for
    each name and touches nothing else. *)
Lemma import_loop_records (aliases : list value)
    (record : value -> result import_info) (s s' : structure) :
  for_each aliases (fun alias s => i <- record alias ;; Ok (add_import s i)) s
  = Ok s' ->
  exists new,
    map_result record aliases = Ok new
    /\ imports s' = imports s ++ new
    /\ functions s' = functions s /\ classes s' = classes s
    /\ globals s' = globals s.
Proof.
  revert s. induction aliases as [|a aliases IH]; intros s H.
  - injection H as <-. exists []. rewrite app_nil_r. repeat split.
  - cbn [for_each] in H.
    apply bind_ok in H as (s1 & H1 & H).
    apply bind_ok in H1 as (i & Hi & H1). injection H1 as <-.
    destruct (IH _ H) as (new & Hnew & Him & Hf & Hc & Hg).
    exists (i :: new). cbn [map_result]. rewrite Hi, Hnew. cbn [bind].
    split; [reflexivity|].
    rewrite Him, Hf, Hc, Hg. cbn [add_import imports functions classes globals].
    rewrite <- app_assoc. repeat split.
Qed.

Lemma class_tests (n : node) (cls : string) :
  isinstance (VNode n) cls = true -> node_cls n = cls.
Proof.
  unfold isinstance. apply String.eqb_eq.
Qed.

Section StructureLists.

Variable py : runtime.

(** What one turn of the loop of [get_structure] does to the four lists. *)
Lemma structure_step_records (n : node) (s s' : structure) :
  structure_step py n s = Ok s' ->
  globals s' = globals s
  /\ (if isinstance (VNode n) "FunctionDef"
      then exists f, function_record py n = Ok f
                     /\ functions s' = functions s ++ [f]
      else functions s' = functions s)
  /\ (if isinstance (VNode n) "ClassDef"
      then exists c, class_record py n = Ok c /\ classes s' = classes s ++ [c]
      else classes s' = classes s)
  /\ (if is_import n
      then exists new, import_records py n = Ok new
                       /\ imports s' = imports s ++ new
      else imports s' = imports s).
Proof.
  unfold structure_step, is_import, import_records.
  destruct (isinstance (VNode n) "FunctionDef") eqn:Hf.
  { apply class_tests in Hf. unfold isinstance. rewrite Hf. cbn.
    intros H. apply bind_ok in H as (f & Hrec & H). injection H as <-.
    cbn. split; [reflexivity|]. split; [exists f; split; [exact Hrec|reflexivity] |].
    split; reflexivity. }
  destruct (isinstance (VNode n) "ClassDef") eqn:Hc.
  { apply class_tests in Hc. unfold isinstance. rewrite Hc. cbn.
    intros H. apply bind_ok in H as (c & Hrec & H). injection H as <-.
    cbn. split; [reflexivity|]. split; [reflexivity|].
    split; [exists c; split; [exact Hrec|reflexivity] | reflexivity]. }
  destruct (isinstance (VNode n) "Import") eqn:Hi.
  { cbn [orb]. intros H.
    apply bind_ok in H as (names & Hnames & H).
    apply bind_ok in H as (aliases & Haliases & H).
    apply import_loop_records in H as (new & Hnew & Him & Hfs & Hcs & Hg).
    split; [exact Hg|]. split; [exact Hfs|]. split; [exact Hcs|].
    exists new. rewrite Hnames. cbn [bind]. rewrite Haliases. cbn [bind].
    split; [exact Hnew | exact Him]. }
  destruct (isinstance (VNode n) "ImportFrom") eqn:Hif.
  { cbn [orb]. intros H.
    apply bind_ok in H as (names & Hnames & H).
    apply bind_ok in H as (aliases & Haliases & H).
    apply import_loop_records in H as (new & Hnew & Him & Hfs & Hcs & Hg).
    split; [exact Hg|]. split; [exact Hfs|]. split; [exact Hcs|].
    exists new. rewrite Hnames. cbn [bind]. rewrite Haliases. cbn [bind].
    split; [exact Hnew | exact Him]. }
  cbn [orb]. intros H. injection H as <-. repeat split.
Qed.

Lemma structure_loop_records (l : list node) (s s' : structure) :
  for_each l (structure_step py) s = Ok s' ->
  globals s' = globals s
  /\ (exists fs,
        map_result (function_record py)
          (filter (fun n => isinstance (VNode n) "FunctionDef") l) = Ok fs
        /\ functions s' = functions s ++ fs)
  /\ (exists cs,
        map_result (class_record py)
          (filter (fun n => isinstance (VNode n) "ClassDef") l) = Ok cs
        /\ classes s' = classes s ++ cs)
  /\ (exists groups,
        map_result (import_records py) (filter is_import l) = Ok groups
        /\ imports s' = imports s ++ List.concat groups).
Proof.
  revert s. induction l as [|n l IH]; intros s H.
  - injection H as <-. split; [reflexivity|].
    split; [exists []; rewrite app_nil_r; split; reflexivity|].
    split; exists []; cbn [List.concat]; rewrite app_nil_r; split; reflexivity.
  - cbn [for_each] in H. apply bind_ok in H as (s1 & H1 & H).
    apply structure_step_records in H1 as (Hg1 & Hf1 & Hc1 & Hi1).
    destruct (IH _ H) as (Hg & (fs & Hfs & Hf) & (cs & Hcs & Hc)
                          & (groups & Hgroups & Hi)).
    split; [rewrite Hg; exact Hg1|].
    cbn [filter].
    split; [|split].
    + destruct (isinstance (VNode n) "FunctionDef").
      * destruct Hf1 as (f & Hrec & Hf1). exists (f :: fs).
        cbn [map_result]. rewrite Hrec, Hfs. cbn [bind].
        split; [reflexivity|]. rewrite Hf, Hf1, <- app_assoc. reflexivity.
      * exists fs. split; [exact Hfs|]. rewrite Hf, Hf1. reflexivity.
    + destruct (isinstance (VNode n) "ClassDef").
      * destruct Hc1 as (c & Hrec & Hc1). exists (c :: cs).
        cbn [map_result]. rewrite Hrec, Hcs. cbn [bind].
        split; [reflexivity|]. rewrite Hc, Hc1, <- app_assoc. reflexivity.
      * exists cs. split; [exact Hcs|]. rewrite Hc, Hc1. reflexivity.
    + destruct (is_import n).
      * destruct Hi1 as (new & Hrec & Hi1). exists (new :: groups).
        cbn [map_result]. rewrite Hrec, Hgroups. cbn [bind].
        split; [reflexivity|]. cbn [List.concat].
        rewrite Hi, Hi1, <- app_assoc. reflexivity.
      * exists groups. split; [exact Hgroups|]. rewrite Hi, Hi1. reflexivity.
Qed.

End StructureLists.

Lemma map_result_map {A B C : Type} (f : A -> result B) (g : B -> C)
    (h : A -> C) (xs : list A) (ys : list B) :
  map_result f xs = Ok ys ->
  (forall x y, In x xs -> f x = Ok y -> g y = h x) ->
  map g ys = map h xs.
Proof.
  revert ys. induction xs as [|x xs IH]; intros ys H Hgh.
  - injection H as <-. reflexivity.
  - cbn [map_result] in H.
    apply bind_ok in H as (z & Hz & H).
    apply bind_ok in H as (zs & Hzs & H).
    injection H as <-. cbn [map].
    rewrite (Hgh x z (or_introl eq_refl) Hz).
    rewrite (IH zs Hzs); [reflexivity|].
    intros x' y Hin. apply Hgh. right. exact Hin.
Qed.

Lemma length_concat {A : Type} (groups : list (list A)) :
  List.length (List.concat groups)
  = list_sum (map (@List.length A) groups).
Proof.
  induction groups as [|g groups IH]; [reflexivity|].
  cbn [List.concat map]. rewrite length_app, IH. reflexivity.
Qed.

(** An import statement gives as many records as it lists names. *)
Lemma import_records_length (py : runtime) (n : node)
    (new : list import_info) :
  import_records py n = Ok new -> List.length new = alias_count n.
Proof.
  unfold import_records, alias_count. intros H.
  apply bind_ok in H as (names & Hnames & H). rewrite Hnames.
  apply bind_ok in H as (aliases & Haliases & H).
  pose proof (map_result_length _ _ _ H) as Hlen.
  destruct names as [m | items | p].
  - discriminate Haliases.
  - injection Haliases as <-. exact Hlen.
  - destruct p; try discriminate Haliases;
      injection Haliases as <-;
      (destruct s as [|c s];
       [exact Hlen
       | exfalso; cbn [list_ascii_of_string map map_result] in H;
         destruct (isinstance (VNode n) "Import");
         unfold import_record, import_from_record in H; cbn in H;
         repeat (destruct (getattr n _); cbn in H; try discriminate H);
         discriminate H]).
Qed.

(** The counting loop of [get_metrics] counts the import statements. *)
Lemma metrics_step_imports (m : metrics) (n : node) :
  import_count (metrics_step m n)
  = import_count m + (if is_import n then 1 else 0).
Proof.
  unfold metrics_step, is_import.
  destruct (isinstance (VNode n) "FunctionDef") eqn:Hf.
  { apply class_tests in Hf. unfold isinstance. rewrite Hf. cbn. lia. }
  destruct (isinstance (VNode n) "ClassDef") eqn:Hc.
  { apply class_tests in Hc. unfold isinstance. rewrite Hc. cbn. lia. }
  destruct (isinstance (VNode n) "Import" || isinstance (VNode n) "ImportFrom");
    cbn [import_count]; lia.
Qed.

Lemma metrics_loop_imports (l : list node) (m : metrics) :
  import_count (fold_left metrics_step l m)
  = import_count m + List.length (filter is_import l).
Proof.
  revert m. induction l as [|n l IH]; intros m.
  - cbn. lia.
  - cbn [fold_left filter]. rewrite IH, metrics_step_imports.
    destruct (is_import n); cbn [List.length]; lia.
Qed.

Lemma filter_or_length {A : Type} (p q : A -> bool) (l : list A) :
  (forall x, p x = true -> q x = false) ->
  List.length (filter (fun x => p x || q x) l)
  = List.length (filter p l) + List.length (filter q l).
Proof.
  intros Hpq. induction l as [|x l IH]; [reflexivity|].
  cbn [filter]. destruct (p x) eqn:Hp.
  - rewrite (Hpq x Hp). cbn [orb List.length]. rewrite IH. reflexivity.
  - cbn [orb]. destruct (q x); cbn [List.length]; rewrite IH; lia.
Qed.

Lemma list_sum_at_least {A : Type} (f : A -> nat) (l : list A) :
  (forall x, In x l -> 1 <= f x) -> List.length l <= list_sum (map f l).
Proof.
  induction l as [|x l IH]; intros H; [apply le_n|].
  cbn [map List.length]. rewrite list_sum_cons.
  pose proof (H x (or_introl eq_refl)).
  assert (List.length l <= list_sum (map f l)).
  { apply IH. intros y Hy. apply H. right. exact Hy. }
  lia.
Qed.

(** X1: the list [globals] of the structure report is never filled: whatever
    the tree, a report [get_structure] returns has no entry under
    [globals]. *)
Theorem structure_globals_empty (py : runtime) (self : ASTAnalyzer)
    (s : structure) :
  get_structure py self = Ok (Report s) -> globals s = [].
Proof.
  unfold get_structure. destruct (tree self) as [t|]; [|discriminate].
  intros H. apply bind_ok in H as (s' & Hloop & H). injection H as <-.
  apply structure_loop_records in Hloop as (Hg & _). exact Hg.
Qed.

(** X1 on the tree of [src_shapes]. *)
Lemma structure_globals_empty_witness :
  exists s,
    get_structure sample_runtime
      {| source_code := src_shapes; tree := Some tree_shapes; errors := [] |}
    = Ok (Report s)
    /\ globals s = [].
Proof.
  eexists. split.
  - vm_compute. reflexivity.
  - apply (structure_globals_empty sample_runtime
             {| source_code := src_shapes; tree := Some tree_shapes;
                errors := [] |}).
    vm_compute. reflexivity.
Defined.

(** X2: the lists [functions] and [classes] of the structure report hold the
    record of every [FunctionDef] and of every [ClassDef] node of the tree,
    nested ones and methods included, in the order [ast.walk] visits the
    nodes; [imports] holds, statement after statement in that order, one
    record for each name the statement lists. *)
Theorem structure_lists_in_walk_order (py : runtime) (self : ASTAnalyzer)
    (t : node) (s : structure) :
  tree self = Some t ->
  get_structure py self = Ok (Report s) ->
  map_result (function_record py)
    (filter (fun n => isinstance (VNode n) "FunctionDef") (walk t))
  = Ok (functions s)
  /\ map_result (class_record py)
       (filter (fun n => isinstance (VNode n) "ClassDef") (walk t))
     = Ok (classes s)
  /\ exists groups,
       map_result (import_records py) (filter is_import (walk t)) = Ok groups
       /\ imports s = List.concat groups.
Proof.
  unfold get_structure. intros -> H.
  apply bind_ok in H as (s' & Hloop & H). injection H as <-.
  apply structure_loop_records in Hloop
    as (_ & (fs & Hfs & Hf) & (cs & Hcs & Hc) & (groups & Hgroups & Hi)).
  cbn [functions classes imports app] in Hf, Hc, Hi.
  rewrite Hf, Hc, Hi. split; [exact Hfs|]. split; [exact Hcs|].
  exists groups. split; [exact Hgroups | reflexivity].
Qed.

(** X2 on the tree of [src_shapes]: one function, the method [m], and one
    class. *)
Lemma structure_lists_in_walk_order_witness :
  exists s,
    get_structure sample_runtime
      {| source_code := src_shapes; tree := Some tree_shapes; errors := [] |}
    = Ok (Report s)
    /\ map fn_name (functions s) = [VPrim (PStr "m")]
    /\ map cl_name (classes s) = [VPrim (PStr "K")]
    /\ map_result (function_record sample_runtime)
         (filter (fun n => isinstance (VNode n) "FunctionDef")
            (walk tree_shapes))
       = Ok (functions s)
    /\ map_result (class_record sample_runtime)
         (filter (fun n => isinstance (VNode n) "ClassDef") (walk tree_shapes))
       = Ok (classes s)
    /\ exists groups,
         map_result (import_records sample_runtime)
           (filter is_import (walk tree_shapes)) = Ok groups
         /\ imports s = List.concat groups.
Proof.
  eexists. split; [vm_compute; reflexivity|].
  split; [reflexivity|]. split; [reflexivity|].
  apply (structure_lists_in_walk_order sample_runtime
           {| source_code := src_shapes; tree := Some tree_shapes;
              errors := [] |} tree_shapes).
  - reflexivity.
  - vm_compute. reflexivity.
Defined.

(** X3: every method a class record lists under [methods] is also an entry
    of [functions]: the report has a function record with that name. *)
Theorem methods_also_in_functions (py : runtime) (self : ASTAnalyzer)
    (s : structure) (c : class_info) (name : value) :
  get_structure py self = Ok (Report s) ->
  In c (classes s) ->
  In name (cl_methods c) ->
  exists f, In f (functions s) /\ fn_name f = name.
Proof.
  intros Hs Hc Hname.
  destruct (tree self) as [t|] eqn:Ht;
    [|unfold get_structure in Hs; rewrite Ht in Hs; discriminate].
  assert (Hloop : exists s0,
             for_each (walk t) (structure_step py)
               {| functions := []; classes := []; imports := []; globals := [] |}
             = Ok s0 /\ s0 = s).
  { unfold get_structure in Hs. rewrite Ht in Hs.
    apply bind_ok in Hs as (s0 & Hloop & Hs). injection Hs as <-.
    exists s0. split; [exact Hloop | reflexivity]. }
  destruct Hloop as (s0 & Hloop & ->).
  apply structure_loop_records in Hloop
    as (_ & (fs & Hfs & Hf) & (cs & Hcs & Hcl) & _).
  cbn [functions classes app] in Hf, Hcl. subst fs cs.
  destruct (map_result_in _ _ _ _ Hcs Hc) as (n & Hn & Hrec).
  apply filter_In in Hn as (Hn & _).
  unfold class_record in Hrec.
  apply bind_ok in Hrec as (cname & _ & Hrec).
  apply bind_ok in Hrec as (line & _ & Hrec).
  apply bind_ok in Hrec as (bases & _ & Hrec).
  apply bind_ok in Hrec as (base_items & _ & Hrec).
  apply bind_ok in Hrec as (base_texts & _ & Hrec).
  apply bind_ok in Hrec as (body & Hbody & Hrec).
  apply bind_ok in Hrec as (body_items & Hitems & Hrec).
  apply bind_ok in Hrec as (methods & Hmethods & Hrec).
  apply bind_ok in Hrec as (doc & _ & Hrec).
  injection Hrec as <-. cbn [cl_methods] in Hname.
  destruct (map_result_in _ _ _ _ Hmethods Hname) as (item & Hitem & Hattr).
  apply filter_In in Hitem as (Hitem & Hfun).
  destruct (isinstance_node _ _ Hfun) as (k & -> & _).
  assert (Hk : In k (walk t)).
  { destruct body as [m | items | p]; try discriminate Hitems.
    - injection Hitems as <-.
      apply (in_walk_child t n k Hn).
      apply (getattr_item_child n "body" items k Hbody Hitem).
    - destruct p; try discriminate Hitems; injection Hitems as <-;
        apply in_map_iff in Hitem as (ch & Hch & _); discriminate Hch. }
  assert (Hkf : In k (filter (fun n => isinstance (VNode n) "FunctionDef")
                              (walk t))).
  { apply filter_In. split; [exact Hk | exact Hfun]. }
  destruct (map_result_image _ _ _ _ Hfs Hkf) as (f & Hf & Hin).
  exists f. split; [exact Hin|].
  unfold function_record in Hf. cbn [attr] in Hattr. rewrite Hattr in Hf.
  cbn [bind] in Hf.
  repeat (apply bind_ok in Hf as (? & _ & Hf)).
  injection Hf as <-. reflexivity.
Qed.

(** X3 on the class [K] of [src_shapes] and its method [m]. *)
Lemma methods_also_in_functions_witness :
  exists s c,
    get_structure sample_runtime
      {| source_code := src_shapes; tree := Some tree_shapes; errors := [] |}
    = Ok (Report s)
    /\ classes s = [c]
    /\ cl_methods c = [VPrim (PStr "m")]
    /\ exists f, In f (functions s) /\ fn_name f = VPrim (PStr "m").
Proof.
  eexists. eexists. split; [vm_compute; reflexivity|].
  split; [reflexivity|]. split; [reflexivity|].
  eapply (methods_also_in_functions sample_runtime
            {| source_code := src_shapes; tree := Some tree_shapes;
               errors := [] |}).
  - vm_compute. reflexivity.
  - left. reflexivity.
  - left. reflexivity.
Defined.

(** X4: [import_count] counts the import statements, while the list
    [imports] has one entry for each name a statement lists; so the count is
    at most the length of the list when every statement lists a name, and
    the two differ as soon as one statement lists two. *)
Theorem import_count_counts_statements (py : runtime) (self : ASTAnalyzer)
    (t : node) (s : structure) :
  tree self = Some t ->
  get_structure py self = Ok (Report s) ->
  exists m,
    get_metrics self = Report m
    /\ import_count m = List.length (filter is_import (walk t))
    /\ import_count m
       = count_class "Import" (walk t) + count_class "ImportFrom" (walk t)
    /\ List.length (imports s)
       = list_sum (map alias_count (filter is_import (walk t)))
    /\ ((forall n, In n (walk t) -> is_import n = true -> 1 <= alias_count n) ->
        import_count m <= List.length (imports s)).
Proof.
  intros Ht Hs. unfold get_metrics. rewrite Ht.
  eexists. split; [reflexivity|].
  assert (Hcount : import_count
                     (set_max_nesting_depth
                        (fold_left metrics_step (walk t)
                           {| total_lines := List.length (splitlines (source_code self));
                              code_lines := _count_code_lines self;
                              comment_lines := _count_comment_lines self;
                              blank_lines := _count_blank_lines self;
                              function_count := 0; class_count := 0;
                              import_count := 0; max_nesting_depth := 0 |})
                        (_calculate_max_depth t 0))
                   = List.length (filter is_import (walk t))).
  { unfold set_max_nesting_depth. cbn [import_count].
    rewrite metrics_loop_imports. reflexivity. }
  assert (Hlen : List.length (imports s)
                 = list_sum (map alias_count (filter is_import (walk t)))).
  { unfold get_structure in Hs. rewrite Ht in Hs.
    apply bind_ok in Hs as (s' & Hloop & Hs). injection Hs as <-.
    apply structure_loop_records in Hloop as (_ & _ & _ & groups & Hgroups & Hi).
    cbn [imports app] in Hi. rewrite Hi, length_concat.
    f_equal. apply (map_result_map _ _ _ _ _ Hgroups).
    intros n new _ Hnew. apply (import_records_length py n new Hnew). }
  rewrite Hcount. split; [reflexivity|].
  split; [|split; [exact Hlen|]].
  - unfold is_import, count_class. apply filter_or_length.
    intros n Hn. apply class_tests in Hn. unfold isinstance. rewrite Hn.
    reflexivity.
  - intros Hone. rewrite Hlen. apply list_sum_at_least.
    intros n Hn. apply filter_In in Hn as (Hn & Himp). apply Hone; assumption.
Qed.

(** X4 on [src_import_two]: two statements, three names. *)
Lemma import_count_counts_statements_witness :
  exists s m,
    get_structure sample_runtime
      {| source_code := src_import_two; tree := Some tree_import_two;
         errors := [] |}
    = Ok (Report s)
    /\ get_metrics
         {| source_code := src_import_two; tree := Some tree_import_two;
            errors := [] |}
       = Report m
    /\ import_count m = 2
    /\ List.length (imports s) = 3
    /\ List.length (imports s)
       = list_sum (map alias_count (filter is_import (walk tree_import_two))).
Proof.
  pose (self := {| source_code := src_import_two; tree := Some tree_import_two;
                   errors := [] |}).
  eexists. eexists. split; [vm_compute; reflexivity|].
  split; [vm_compute; reflexivity|].
  split; [reflexivity|]. split; [reflexivity|].
  match goal with
  | |- List.length (imports ?s) = _ =>
      destruct (import_count_counts_statements sample_runtime self
                  tree_import_two s eq_refl)
        as (m & _ & _ & _ & Hlen & _);
      [vm_compute; reflexivity | exact Hlen]
  end.
Defined.

(** ** The serialized tree *)

Lemma dict_get_set_same {V : Type} (d : list (string * V)) (key : string)
    (v : V) :
  dict_get (dict_set d key v) key = Some v.
Proof.
  induction d as [|[k w] d IH]; cbn [dict_set dict_get].
  - rewrite String.eqb_refl. reflexivity.
  - destruct (k =? key)%string eqn:Hk; cbn [dict_get]; rewrite Hk;
      [reflexivity | exact IH].
Qed.

Lemma dict_get_set_other {V : Type} (d : list (string * V)) (key key' : string)
    (v : V) :
  key <> key' -> dict_get (dict_set d key v) key' = dict_get d key'.
Proof.
  intros Hne. induction d as [|[k w] d IH]; cbn [dict_set dict_get].
  - destruct (key =? key')%string eqn:Hk; [|reflexivity].
    apply String.eqb_eq in Hk. contradiction.
  - destruct (k =? key)%string eqn:Hk; cbn [dict_get].
    + apply String.eqb_eq in Hk. subst k.
      destruct (key =? key')%string eqn:Hk'; [|reflexivity].
      apply String.eqb_eq in Hk'. contradiction.
    + destruct (k =? key')%string; [reflexivity | exact IH].
Qed.

Lemma dict_set_keys_new {V : Type} (d : list (string * V)) (key : string)
    (v : V) :
  ~ In key (map fst d) -> map fst (dict_set d key v) = map fst d ++ [key].
Proof.
  induction d as [|[k w] d IH]; intros Hnot; cbn [dict_set map fst app].
  - reflexivity.
  - destruct (k =? key)%string eqn:Hk.
    + apply String.eqb_eq in Hk. subst k. exfalso. apply Hnot. left. reflexivity.
    + cbn [map fst]. rewrite IH; [reflexivity|].
      intros Hin. apply Hnot. right. exact Hin.
Qed.

(** [_ast_to_dict] sets the keys of the position, then one key for each
    field, in the order of the fields. *)
Lemma ast_to_dict_unfold (n : node) :
  _ast_to_dict n
  = fold_left (fun result f => dict_set result (fst f) (field_to_obj (snd f)))
      (node_fields n)
      (let result := [("type", ORaw (VPrim (PStr (node_cls n))))] in
       let result :=
         match node_lineno n with
         | Some l => dict_set result "lineno" (ORaw (VPrim (PInt l)))
         | None => result
         end in
       match node_col_offset n with
       | Some c => dict_set result "col_offset" (ORaw (VPrim (PInt c)))
       | None => result
       end).
Proof.
  destruct n as [cls l c fields].
  cbn [_ast_to_dict node_fields node_cls node_lineno node_col_offset].
  apply fold_left_pointwise. intros result [name v]. cbn [fst snd].
  destruct v as [m | items | p]; [reflexivity | reflexivity |].
  destruct p; reflexivity.
Qed.

Lemma fold_set_other {V A : Type} (g : A -> V) (fields : list (string * A))
    (d : list (string * V)) (key : string) :
  ~ In key (map fst fields) ->
  dict_get (fold_left (fun result f => dict_set result (fst f) (g (snd f)))
              fields d) key
  = dict_get d key.
Proof.
  revert d. induction fields as [|[k w] fields IH]; intros d Hnot.
  - reflexivity.
  - cbn [fold_left fst snd]. rewrite IH.
    + apply dict_get_set_other. intros ->. apply Hnot. left. reflexivity.
    + intros Hin. apply Hnot. right. exact Hin.
Qed.

Lemma fold_set_lookup {V A : Type} (g : A -> V) (fields : list (string * A))
    (d : list (string * V)) (key : string) (v : A) :
  NoDup (map fst fields) -> In (key, v) fields ->
  dict_get (fold_left (fun result f => dict_set result (fst f) (g (snd f)))
              fields d) key
  = Some (g v).
Proof.
  revert d. induction fields as [|[k w] fields IH]; intros d Hnd Hin.
  - destruct Hin.
  - cbn [map fst] in Hnd. inversion Hnd as [|? ? Hnot Hnd']; subst.
    cbn [fold_left fst snd]. destruct Hin as [Heq | Hin].
    + injection Heq as -> ->. rewrite (fold_set_other g fields _ key Hnot).
      apply dict_get_set_same.
    + apply IH; assumption.
Qed.

Lemma fold_set_keys {V A : Type} (g : A -> V) (fields : list (string * A))
    (d : list (string * V)) :
  NoDup (map fst fields) ->
  (forall key, In key (map fst fields) -> ~ In key (map fst d)) ->
  map fst (fold_left (fun result f => dict_set result (fst f) (g (snd f)))
             fields d)
  = map fst d ++ map fst fields.
Proof.
  revert d. induction fields as [|[k w] fields IH]; intros d Hnd Hfresh.
  - cbn. rewrite app_nil_r. reflexivity.
  - cbn [map fst] in Hnd. inversion Hnd as [|? ? Hnot Hnd']; subst.
    cbn [fold_left fst snd map]. rewrite IH.
    + rewrite dict_set_keys_new.
      * rewrite <- app_assoc. reflexivity.
      * apply Hfresh. left. reflexivity.
    + exact Hnd'.
    + intros key Hkey. rewrite dict_set_keys_new.
      * intros Hin. apply in_app_or in Hin as [Hin | [<- | []]].
        -- apply (Hfresh key); [right; exact Hkey | exact Hin].
        -- apply Hnot. exact Hkey.
      * apply Hfresh. left. reflexivity.
Qed.

Lemma position_keys_spec (n : node) :
  map fst
    (let result := [("type", ORaw (VPrim (PStr (node_cls n))))] in
     let result :=
       match node_lineno n with
       | Some l => dict_set result "lineno" (ORaw (VPrim (PInt l)))
       | None => result
       end in
     match node_col_offset n with
     | Some c => dict_set result "col_offset" (ORaw (VPrim (PInt c)))
     | None => result
     end)
  = position_keys n.
Proof.
  unfold position_keys.
  destruct (node_lineno n), (node_col_offset n); reflexivity.
Qed.

Lemma position_type (n : node) :
  dict_get
    (let result := [("type", ORaw (VPrim (PStr (node_cls n))))] in
     let result :=
       match node_lineno n with
       | Some l => dict_set result "lineno" (ORaw (VPrim (PInt l)))
       | None => result
       end in
     match node_col_offset n with
     | Some c => dict_set result "col_offset" (ORaw (VPrim (PInt c)))
     | None => result
     end) "type"
  = Some (ORaw (VPrim (PStr (node_cls n)))).
Proof.
  destruct (node_lineno n), (node_col_offset n); reflexivity.
Qed.

(** X5: whatever the parser, the text and the tree, [analyze_code] returns
    one of two dicts and raises nothing: a failure, [success] false with
    exactly one message under [errors] and no other key, or a success with
    the keys [structure], [metrics] and [ast].  An exception raised after
    the text is parsed, while the structure is extracted or the tree is
    serialized, is caught and gives the failure with its text. *)
Theorem analyze_code_two_shapes (py : runtime) (src : string) :
  ((exists message,
       analyze_code py src
       = [("success", EBool false); ("errors", EErrors [message])])
   \/ (exists t s m,
         ast_parse py src = Parsed t
         /\ analyze_code py src
            = [("success", EBool true); ("structure", EStructure (Report s));
               ("metrics", EMetrics (Report m));
               ("ast", EAst (ODict (_ast_to_dict t)))]))
  /\ (forall t e,
        ast_parse py src = Parsed t ->
        get_structure py {| source_code := src; tree := Some t; errors := [] |}
        = Raise e ->
        analyze_code py src
        = [("success", EBool false); ("errors", EErrors [exc_str e])])
  /\ (forall t s e,
        ast_parse py src = Parsed t ->
        get_structure py {| source_code := src; tree := Some t; errors := [] |}
        = Ok s ->
        get_ast_json {| source_code := src; tree := Some t; errors := [] |}
        = Raise e ->
        analyze_code py src
        = [("success", EBool false); ("errors", EErrors [exc_str e])]).
Proof.
  unfold analyze_code, parse, init.
  cbn [source_code errors tree app].
  destruct (ast_parse py src) as [t | l msg | text] eqn:Hparse.
  - cbn [negb].
    split; [|split].
    + destruct (get_structure py _) as [s | e] eqn:Hs; cbn [bind].
      2: { left. eexists. reflexivity. }
      unfold get_ast_json, get_metrics. cbn [tree].
      destruct (obj_serializable (ODict (_ast_to_dict t))) eqn:Hser; cbn [bind].
      2: { left. eexists. reflexivity. }
      unfold json_dumps.
      match goal with
      | |- context [forallb ?p ?d] => destruct (forallb p d) eqn:Hd
      end.
      2: { left. eexists. reflexivity. }
      right.
      assert (Hrep : exists s', s = Report s').
      { unfold get_structure in Hs. cbn [tree] in Hs.
        apply bind_ok in Hs as (s' & _ & Hs). injection Hs as <-.
        exists s'. reflexivity. }
      destruct Hrep as (s' & ->).
      exists t, s'. eexists. split; reflexivity.
    + intros t' e Ht' Hs. injection Ht' as <-. rewrite Hs. reflexivity.
    + intros t' s e Ht' Hs Hj. injection Ht' as <-. rewrite Hs. cbn [bind].
      rewrite Hj. reflexivity.
  - cbn [negb]. split; [left; eexists; reflexivity|].
    split; intros; discriminate.
  - cbn [negb]. split; [left; eexists; reflexivity|].
    split; intros; discriminate.
Qed.

(** X5 when [ast.unparse] raises on the base of the class of [src_shapes]: the
    text of the exception is the message. *)
Lemma analyze_code_two_shapes_witness :
  analyze_code failing_unparse_runtime src_shapes
  = [("success", EBool false); ("errors", EErrors ["cannot unparse"])].
Proof.
  apply (proj1 (proj2 (analyze_code_two_shapes failing_unparse_runtime
                         src_shapes))
           tree_shapes (TypeError "cannot unparse")).
  - reflexivity.
  - vm_compute. reflexivity.
Defined.

(** X6: an analyzer whose [parse] has returned False holds no tree and one
    message, and each of [get_structure], [get_metrics] and [get_ast_json]
    then returns the dict with its own [error] text, without raising. *)
Theorem getters_without_tree (py : runtime) (src : string) :
  fst (parse py (init src)) = false ->
  tree (snd (parse py (init src))) = None
  /\ List.length (errors (snd (parse py (init src)))) = 1
  /\ source_code (snd (parse py (init src))) = src
  /\ get_structure py (snd (parse py (init src)))
     = Ok (NoAst "No AST available. Call parse() first.")
  /\ get_metrics (snd (parse py (init src))) = NoAst "No AST available"
  /\ get_ast_json (snd (parse py (init src)))
     = Ok (ODict [("error", ORaw (VPrim (PStr "No AST available")))]).
Proof.
  unfold parse, init. cbn [source_code tree errors app].
  destruct (ast_parse py src); cbn [fst snd]; intros H;
    [discriminate H | |]; repeat split.
Qed.

(** X6 on a text the parser rejects. *)
Lemma getters_without_tree_witness :
  get_structure sample_runtime (snd (parse sample_runtime (init src_bad_syntax)))
  = Ok (NoAst "No AST available. Call parse() first.")
  /\ get_metrics (snd (parse sample_runtime (init src_bad_syntax)))
     = NoAst "No AST available".
Proof.
  destruct (getters_without_tree sample_runtime src_bad_syntax eq_refl)
    as (_ & _ & _ & Hs & Hm & _).
  split; [exact Hs | exact Hm].
Defined.

(** X7: in the dict [_ast_to_dict] returns for a node whose fields have
    different names, every field is a key, and what it holds is the dict of
    the node the field holds, the list of a list with the dicts of its
    nodes, [None] for [None], and the text of [str()] for another constant;
    when no field is called [type], [lineno] or [col_offset], the keys are
    [type], then [lineno] and [col_offset] if the node has them, then the
    fields in their order. *)
Theorem ast_to_dict_field_lookup (n : node) :
  NoDup (map fst (node_fields n)) ->
  (forall name v,
      In (name, v) (node_fields n) ->
      dict_get (_ast_to_dict n) name = Some (field_to_obj v))
  /\ ((forall key, In key (map fst (node_fields n)) ->
                   ~ In key ["type"; "lineno"; "col_offset"]) ->
      map fst (_ast_to_dict n) = position_keys n ++ map fst (node_fields n)).
Proof.
  intros Hnd. rewrite ast_to_dict_unfold. split.
  - intros name v Hin. apply fold_set_lookup; assumption.
  - intros Hfresh. rewrite fold_set_keys.
    + rewrite position_keys_spec. reflexivity.
    + exact Hnd.
    + intros key Hkey. rewrite position_keys_spec. intros Hin.
      apply (Hfresh key Hkey). unfold position_keys in Hin.
      destruct (node_lineno n), (node_col_offset n); cbn in Hin; cbn; tauto.
Qed.

(** X7 on the call [eval(x)]. *)
Lemma ast_to_dict_field_lookup_witness :
  dict_get (_ast_to_dict call_eval_x) "func"
  = Some (ODict (_ast_to_dict (mk_Name 1 0 "eval" "Load")))
  /\ map fst (_ast_to_dict call_eval_x)
     = ["type"; "lineno"; "col_offset"; "func"; "args"; "keywords"].
Proof.
  assert (Hnd : NoDup (map fst (node_fields call_eval_x))).
  { repeat constructor; cbn; intuition discriminate. }
  destruct (ast_to_dict_field_lookup call_eval_x Hnd) as (Hget & Hkeys).
  split.
  - apply (Hget "func" (VNode (mk_Name 1 0 "eval" "Load"))). left. reflexivity.
  - apply Hkeys. intros key Hkey Hin. cbn in Hkey, Hin.
    destruct Hkey as [<- | [<- | [<- | []]]];
      destruct Hin as [H | [H | [H | []]]]; discriminate H.
Defined.

(** X8: the key [type] holds the name of the class of the node only when
    the node has no field called [type].  A node with such a field, as an
    [ExceptHandler] has, loses the name of its class: the key holds what the
    field gives, the dict of the exception named or [None]. *)
Theorem ast_to_dict_type_key (n : node) :
  (~ In "type" (map fst (node_fields n)) ->
   dict_get (_ast_to_dict n) "type"
   = Some (ORaw (VPrim (PStr (node_cls n)))))
  /\ (forall v,
        NoDup (map fst (node_fields n)) ->
        In ("type", v) (node_fields n) ->
        dict_get (_ast_to_dict n) "type" = Some (field_to_obj v)
        /\ (v = VPrim PNone \/ is_node v = true ->
            dict_get (_ast_to_dict n) "type"
            <> Some (ORaw (VPrim (PStr (node_cls n))))))
  /\ forall l c type name body,
       dict_get (_ast_to_dict (mk_ExceptHandler l c (VNode type) name body))
         "type"
       = Some (ODict (_ast_to_dict type)).
Proof.
  split; [|split].
  - intros Hnot. rewrite ast_to_dict_unfold, fold_set_other by exact Hnot.
    apply position_type.
  - intros v Hnd Hin.
    assert (Hget : dict_get (_ast_to_dict n) "type" = Some (field_to_obj v)).
    { rewrite ast_to_dict_unfold. apply fold_set_lookup; assumption. }
    split; [exact Hget|].
    intros Hv. rewrite Hget.
    destruct Hv as [-> | Hv]; [cbn [field_to_obj]; discriminate|].
    destruct v; try discriminate Hv. cbn [field_to_obj]. discriminate.
  - intros l c type name body.
    rewrite ast_to_dict_unfold.
    apply (fold_set_lookup field_to_obj _ _ "type" (VNode type)).
    + repeat constructor; cbn; intuition discriminate.
    + left. reflexivity.
Qed.

(** X8 on the handler [except E]: the key [type] holds the dict of the name
    [E]. *)
Lemma ast_to_dict_type_key_witness :
  dict_get (_ast_to_dict handler_except_E) "type"
  = Some (ODict (_ast_to_dict (mk_Name 3 7 "E" "Load")))
  /\ dict_get (_ast_to_dict handler_except_E) "type"
     <> Some (ORaw (VPrim (PStr (node_cls handler_except_E)))).
Proof.
  assert (Hnd : NoDup (map fst (node_fields handler_except_E))).
  { repeat constructor; cbn; intuition discriminate. }
  destruct (proj1 (proj2 (ast_to_dict_type_key handler_except_E))
              (VNode (mk_Name 3 7 "E" "Load")) Hnd (or_introl eq_refl))
    as (Hget & Hlost).
  split; [exact Hget | apply Hlost; right; reflexivity].
Defined.

(** X9: [_ast_to_dict] keeps a constant other than [None] as the text
    [str()] gives for it, so two [Constant] nodes whose values have the same
    text get the same dict, as the number 1 and the text of the digit 1 do;
    [None] is kept apart from the text that spells it. *)
Theorem ast_to_dict_constants_as_text :
  (forall (l c : Z) (p q : prim),
      p <> PNone -> q <> PNone -> prim_str p = prim_str q ->
      _ast_to_dict (mk_Constant l c p) = _ast_to_dict (mk_Constant l c q))
  /\ (forall (l c z : Z),
        _ast_to_dict (mk_Constant l c (PInt z))
        = _ast_to_dict (mk_Constant l c (PStr (str_of_Z z))))
  /\ forall l c : Z,
       _ast_to_dict (mk_Constant l c PNone)
       <> _ast_to_dict (mk_Constant l c (PStr "None")).
Proof.
  assert (Hsame : forall (l c : Z) (p q : prim),
             p <> PNone -> q <> PNone -> prim_str p = prim_str q ->
             _ast_to_dict (mk_Constant l c p) = _ast_to_dict (mk_Constant l c q)).
  { intros l c p q Hp Hq Hstr.
    unfold mk_Constant, at_position.
    cbn [_ast_to_dict fold_left snd fst].
    destruct p; try contradiction; destruct q; try contradiction;
      try reflexivity; rewrite Hstr; reflexivity. }
  split; [exact Hsame|]. split.
  - intros l c z. apply Hsame; [discriminate | discriminate | reflexivity].
  - intros l c H. unfold mk_Constant, at_position in H.
    cbn in H. discriminate H.
Qed.

(** X9 on the constant [True] and the text that spells it. *)
Lemma ast_to_dict_constants_as_text_witness :
  _ast_to_dict (mk_Constant 1 0 (PBool true))
  = _ast_to_dict (mk_Constant 1 0 (PStr "True")).
Proof.
  apply (proj1 ast_to_dict_constants_as_text 1%Z 0%Z (PBool true) (PStr "True"));
    [discriminate | discriminate | reflexivity].
Defined.

(** ** Depth, lines and white space *)

Lemma list_max_shift {A : Type} (f : A -> nat) (d : nat) (l : list A) :
  l <> [] ->
  list_max (map (fun x => d + f x) l) = d + list_max (map f l).
Proof.
  induction l as [|x l IH]; intros Hne; [contradiction|].
  destruct l as [|y l].
  - cbn. lia.
  - change (Nat.max (d + f x) (list_max (map (fun x => d + f x) (y :: l)))
            = d + Nat.max (f x) (list_max (map f (y :: l)))).
    rewrite IH by discriminate. lia.
Qed.

Lemma filter_flat_map_bound {A B : Type} (p : B -> bool) (f : A -> list B)
    (x : A) (l : list A) :
  In x l ->
  List.length (filter p (f x)) <= List.length (filter p (flat_map f l)).
Proof.
  induction l as [|y l IH]; intros Hin; [destruct Hin|].
  cbn [flat_map]. rewrite filter_app, length_app.
  destruct Hin as [-> | Hin]; [lia|].
  specialize (IH Hin). lia.
Qed.

(** The nodes of a path below its first one that open a level are nodes of
    the tree below its root. *)
Lemma nesting_count_bound (n : node) :
  forall p,
    In p (paths n) ->
    nesting_count (tl p)
    <= List.length (filter is_nesting (tl (descendants n))).
Proof.
  induction n as [n IH] using node_induction. intros p Hp.
  rewrite paths_unfold in Hp. rewrite descendants_unfold. cbn [tl].
  destruct Hp as [<- | Hp]; [cbn; lia|].
  apply in_map_iff in Hp as (q & <- & Hq). cbn [tl].
  apply in_flat_map in Hq as (c & Hc & Hq).
  destruct (paths_begin c q Hq) as (q' & ->).
  specialize (IH c Hc _ Hq). cbn [tl] in IH.
  rewrite nesting_count_cons.
  pose proof (filter_flat_map_bound is_nesting descendants c
                (iter_child_nodes n) Hc) as Hbound.
  rewrite (descendants_unfold c) in Hbound at 1.
  rewrite (descendants_unfold c) in IH. cbn [tl] in IH.
  cbn [filter] in Hbound.
  destruct (is_nesting c); cbn [List.length] in Hbound; lia.
Qed.

Lemma walk_root_first (t : node) : exists rest, walk t = t :: rest.
Proof.
  unfold walk. destruct t as [cls l c fields].
  cbn [node_size walk_queue]. eexists. reflexivity.
Qed.

Lemma walk_below_root (t : node) :
  Permutation (tl (walk t)) (tl (descendants t)).
Proof.
  pose proof (walk_permutation t) as Hperm.
  destruct (walk_root_first t) as (rest & Hw). rewrite Hw in *.
  rewrite descendants_unfold in *. cbn [tl].
  apply (Permutation_cons_inv Hperm).
Qed.

Lemma filter_length_permutation {A : Type} (p : A -> bool) (l l' : list A) :
  Permutation l l' ->
  List.length (filter p l) = List.length (filter p l').
Proof.
  intros H. induction H as [| x l l' _ IH | x y l | l l' l'' _ IH1 _ IH2].
  - reflexivity.
  - cbn [filter]. destruct (p x); cbn [List.length]; rewrite IH; reflexivity.
  - cbn [filter]. destruct (p x), (p y); reflexivity.
  - rewrite IH1. exact IH2.
Qed.

(** [str.splitlines] on a text that ends with a character that is no line
    boundary: a line feed put at the end adds no line. *)
Lemma splitlines_final_newline (k : nat) :
  forall (body line : string) (c : ascii),
    String.length body <= k ->
    is_line_boundary c = false ->
    splitlines_from line (body +++ String c newline)
    = splitlines_from line (body +++ String c "").
Proof.
  induction k as [|k IH]; intros body line c Hlen Hc.
  - destruct body; [|cbn in Hlen; lia].
    cbn [String.append splitlines_from]. rewrite Hc.
    unfold newline.
    change (splitlines_from (line +++ String c "")
              (String (ascii_of_nat 10) ""))
      with ((line +++ String c "") :: splitlines_from "" "").
    cbn [splitlines_from].
    destruct (line +++ String c "") eqn:Heq; [|reflexivity].
    destruct line; discriminate Heq.
  - destruct body as [|d body].
    { apply (IH "" line c); [cbn; lia | exact Hc]. }
    cbn [String.length] in Hlen.
    cbn [String.append splitlines_from].
    destruct (is_line_boundary d) eqn:Hd.
    + destruct body as [|e body].
      * cbn [String.append].
        assert (Hlf : is_LF c = false).
        { unfold is_LF. unfold is_line_boundary in Hc.
          destruct (nat_of_ascii c =? 10) eqn:H10; [|reflexivity].
          apply Nat.eqb_eq in H10. rewrite H10 in Hc. discriminate Hc. }
        rewrite Hlf, andb_false_r.
        f_equal. apply (IH "" "" c); [cbn; lia | exact Hc].
      * cbn [String.append].
        destruct (is_CR d && is_LF e).
        -- f_equal. apply IH; [cbn [String.length] in Hlen; lia | exact Hc].
        -- f_equal. apply (IH (String e body) "" c); [lia | exact Hc].
    + apply IH; [lia | exact Hc].
Qed.

Lemma lstrip_drop_spaces (s : string) :
  list_ascii_of_string (lstrip s) = drop_spaces (list_ascii_of_string s).
Proof.
  induction s as [|c s IH]; [reflexivity|].
  cbn [lstrip list_ascii_of_string drop_spaces].
  destruct (is_space c); [exact IH | reflexivity].
Qed.

Lemma strip_drop_spaces (s : string) :
  list_ascii_of_string (strip s)
  = drop_spaces (rev (drop_spaces (rev (list_ascii_of_string s)))).
Proof.
  unfold strip, rstrip, reverse.
  rewrite lstrip_drop_spaces, list_ascii_of_string_of_list_ascii.
  rewrite lstrip_drop_spaces, list_ascii_of_string_of_list_ascii.
  reflexivity.
Qed.

Lemma drop_spaces_cases (l : list ascii) :
  (forallb is_space l = true /\ drop_spaces l = [])
  \/ exists w c r,
       l = w ++ c :: r /\ forallb is_space w = true /\ is_space c = false
       /\ drop_spaces l = c :: r.
Proof.
  induction l as [|c l IH].
  - left. split; reflexivity.
  - cbn [forallb drop_spaces]. destruct (is_space c) eqn:Hc.
    + destruct IH as [[Hall Hdrop] | (w & c' & r & -> & Hw & Hc' & Hdrop)].
      * left. split; assumption.
      * right. exists (c :: w), c', r. cbn [forallb app]. rewrite Hc, Hw.
        repeat split; assumption.
    + right. exists [], c, l. repeat split. exact Hc.
Qed.

Lemma drop_spaces_app (w rest : list ascii) :
  forallb is_space w = true -> drop_spaces (w ++ rest) = drop_spaces rest.
Proof.
  induction w as [|c w IH]; intros Hw; [reflexivity|].
  cbn [forallb] in Hw. apply andb_true_iff in Hw as [Hc Hw].
  cbn [app drop_spaces]. rewrite Hc. apply IH. exact Hw.
Qed.

Lemma forallb_rev {A : Type} (p : A -> bool) (l : list A) :
  forallb p (rev l) = forallb p l.
Proof.
  induction l as [|x l IH]; [reflexivity|].
  cbn [rev forallb]. rewrite forallb_app, IH. cbn [forallb].
  rewrite andb_true_r. apply andb_comm.
Qed.

(** What is left of a text when white space is taken from both ends: nothing
    when the text is white space, and otherwise a text that starts with the
    first character that is none. *)
Lemma strip_cases (s : string) :
  (all_spaces s = true /\ strip s = "" /\ lstrip s = "")
  \/ exists c r r',
       all_spaces s = false /\ is_space c = false
       /\ lstrip s = String c r /\ strip s = String c r'.
Proof.
  unfold all_spaces.
  destruct (drop_spaces_cases (list_ascii_of_string s))
    as [[Hall Hdrop] | (w & c & r & Hs & Hw & Hc & Hdrop)].
  - left. split; [exact Hall|].
    assert (Hstrip : list_ascii_of_string (strip s) = []).
    { rewrite strip_drop_spaces.
      rewrite <- (app_nil_r (rev (list_ascii_of_string s))).
      rewrite drop_spaces_app by (rewrite forallb_rev; exact Hall).
      reflexivity. }
    assert (Hl : list_ascii_of_string (lstrip s) = []).
    { rewrite lstrip_drop_spaces. exact Hdrop. }
    split.
    + destruct (strip s); [reflexivity | discriminate Hstrip].
    + destruct (lstrip s); [reflexivity | discriminate Hl].
  - right.
    assert (Hrev : exists x,
               drop_spaces (rev (list_ascii_of_string s))
               = x ++ c :: rev w).
    { rewrite Hs, rev_app_distr. cbn [rev]. rewrite <- app_assoc. cbn [app].
      destruct (drop_spaces_cases (rev r))
        as [[Hall Hd] | (w' & c' & r' & Hr & Hw' & Hc' & Hd)].
      - exists []. rewrite drop_spaces_app by exact Hall.
        cbn [drop_spaces app]. rewrite Hc. reflexivity.
      - exists (c' :: r'). rewrite Hr, <- app_assoc.
        rewrite drop_spaces_app by exact Hw'.
        cbn [app drop_spaces]. rewrite Hc'. reflexivity. }
    destruct Hrev as (x & Hrev).
    assert (Hstrip : list_ascii_of_string (strip s) = c :: rev x).
    { rewrite strip_drop_spaces, Hrev, rev_app_distr. cbn [rev].
      rewrite rev_involutive, <- app_assoc. cbn [app].
      rewrite drop_spaces_app by exact Hw.
      cbn [drop_spaces]. rewrite Hc. reflexivity. }
    assert (Hl : list_ascii_of_string (lstrip s) = c :: r).
    { rewrite lstrip_drop_spaces. exact Hdrop. }
    exists c, (string_of_list_ascii r), (string_of_list_ascii (rev x)).
    split.
    { rewrite Hs, forallb_app. cbn [forallb]. rewrite Hc.
      rewrite andb_false_r. reflexivity. }
    split; [exact Hc|]. split.
    + rewrite <- (string_of_list_ascii_of_string (lstrip s)), Hl. reflexivity.
    + rewrite <- (string_of_list_ascii_of_string (strip s)), Hstrip.
      reflexivity.
Qed.

Lemma line_kinds_first_character (line : string) :
  negb (nonempty (strip line)) = all_spaces line
  /\ startswith (strip line) "#" = hash_first line
  /\ nonempty (strip line) && negb (startswith (strip line) "#")
     = negb (all_spaces line) && negb (hash_first line).
Proof.
  unfold hash_first.
  destruct (strip_cases line)
    as [(Hall & Hstrip & Hl) | (c & r & r' & Hall & Hc & Hl & Hstrip)];
    rewrite Hall, Hstrip, Hl.
  - repeat split.
  - assert (Hsame : startswith (String c r') "#" = startswith (String c r) "#").
    { unfold startswith. cbn [String.prefix].
      destruct (ascii_dec "#" c); [|reflexivity].
      destruct r, r'; reflexivity. }
    rewrite Hsame. repeat split.
Qed.

(** X10: the depth [_calculate_max_depth] returns is the depth it starts
    from plus the depth it finds from 0, and the depth found from 0 is at
    most the number of nodes below the root that are of a kind that opens a
    level. *)
Theorem max_depth_shift_and_bound (n : node) (d : nat) :
  _calculate_max_depth n d = d + _calculate_max_depth n 0
  /\ d <= _calculate_max_depth n d
  /\ _calculate_max_depth n 0
     <= List.length (filter is_nesting (tl (walk n))).
Proof.
  assert (Hshift : _calculate_max_depth n d = d + _calculate_max_depth n 0).
  { rewrite (max_depth_paths n d), (max_depth_paths n 0).
    rewrite (list_max_shift (fun p => nesting_count (tl p)) d).
    - reflexivity.
    - rewrite paths_unfold. discriminate. }
  split; [exact Hshift|]. split; [lia|].
  rewrite (max_depth_paths n 0).
  rewrite (filter_length_permutation is_nesting _ _ (walk_below_root n)).
  apply list_max_le. apply Forall_forall. intros x Hx.
  apply in_map_iff in Hx as (p & <- & Hp). cbn [Nat.add].
  apply nesting_count_bound. exact Hp.
Qed.

(** X11: a line feed at the end of a text that ends with a character that
    is no line boundary changes none of the metrics: the last line is
    counted once, with or without the line feed after it. *)
Theorem metrics_ignore_final_newline (body : string) (c : ascii)
    (t : option node) (errs : list string) :
  is_line_boundary c = false ->
  splitlines (body +++ String c newline) = splitlines (body +++ String c "")
  /\ get_metrics {| source_code := body +++ String c newline; tree := t;
                    errors := errs |}
     = get_metrics {| source_code := body +++ String c ""; tree := t;
                      errors := errs |}.
Proof.
  intros Hc.
  assert (Hlines : splitlines (body +++ String c newline)
                   = splitlines (body +++ String c "")).
  { unfold splitlines.
    apply (splitlines_final_newline (String.length body)); [apply le_n | exact Hc]. }
  split; [exact Hlines|].
  unfold get_metrics, _count_code_lines, _count_comment_lines,
    _count_blank_lines.
  cbn [tree source_code]. rewrite Hlines. reflexivity.
Qed.

(** X11 on [src_eval_x]. *)
Lemma metrics_ignore_final_newline_witness :
  get_metrics {| source_code := src_eval_x +++ newline;
                 tree := Some tree_eval_x; errors := [] |}
  = get_metrics {| source_code := src_eval_x; tree := Some tree_eval_x;
                   errors := [] |}.
Proof.
  apply (proj2 (metrics_ignore_final_newline "eval(x" ")" (Some tree_eval_x) []
                  eq_refl)).
Defined.

(** X12: the three counters sort the lines by their first character that is
    no white space: a line without one is blank, a line where it is a hash
    sign is a comment, and any other line is code, whatever follows on the
    line. *)
Theorem line_counters_by_first_character (self : ASTAnalyzer) :
  _count_blank_lines self
  = count_lines all_spaces (splitlines (source_code self))
  /\ _count_comment_lines self
     = count_lines hash_first (splitlines (source_code self))
  /\ _count_code_lines self
     = count_lines (fun line => negb (all_spaces line) && negb (hash_first line))
         (splitlines (source_code self)).
Proof.
  unfold _count_blank_lines, _count_comment_lines, _count_code_lines.
  split; [|split]; apply count_lines_ext; intros line;
    apply (line_kinds_first_character line).
Qed.

(** ** What the rules look at *)

Lemma for_each_skip {A S : Type} (xs : list A) (body : A -> S -> result S)
    (s : S) :
  (forall x s, In x xs -> body x s = Ok s) -> for_each xs body s = Ok s.
Proof.
  induction xs as [|x xs IH]; intros Hskip; [reflexivity|].
  cbn [for_each]. rewrite (Hskip x s (or_introl eq_refl)). cbn [bind].
  apply IH. intros y s' Hy. apply Hskip. right. exact Hy.
Qed.

Lemma contains_string_loop_spec (children : list node) (b : bool) :
  contains_string_loop children = Ok b ->
  b = existsb is_text_constant children.
Proof.
  induction children as [|child rest IH]; cbn [contains_string_loop existsb].
  - intros H. injection H as <-. reflexivity.
  - unfold is_text_constant at 1.
    destruct (isinstance (VNode child) "Constant"); cbn [andb orb].
    + destruct (getattr child "value") as [v | e]; cbn [bind]; [|discriminate].
      destruct (is_str v); cbn [orb]; [|exact IH].
      intros H. injection H as <-. reflexivity.
    + exact IH.
Qed.

Lemma contains_string_loop_total (children : list node) :
  (forall c, In c children -> isinstance (VNode c) "Constant" = true ->
             exists v, getattr c "value" = Ok v) ->
  contains_string_loop children = Ok (existsb is_text_constant children).
Proof.
  induction children as [|child rest IH]; intros Hvalue;
    cbn [contains_string_loop existsb]; [reflexivity|].
  assert (IH' : contains_string_loop rest = Ok (existsb is_text_constant rest)).
  { apply IH. intros c Hc. apply Hvalue. right. exact Hc. }
  unfold is_text_constant at 1.
  destruct (isinstance (VNode child) "Constant") eqn:Hcls; cbn [andb orb].
  - destruct (Hvalue child (or_introl eq_refl) Hcls) as (v & Hv).
    rewrite Hv. cbn [bind]. destruct (is_str v); [reflexivity | exact IH'].
  - exact IH'.
Qed.

(** X13: [_contains_string] looks at every node of the tree below the node
    it is given, not only at the operands of the node: when it returns, it
    has returned True exactly when some [Constant] node of that tree holds a
    text; and it returns when every [Constant] node has its [value]. *)
Theorem contains_string_searches_subtree (n : node) :
  (forall b,
      _contains_string (VNode n) = Ok b ->
      b = existsb is_text_constant (walk n))
  /\ ((forall c, In c (walk n) -> isinstance (VNode c) "Constant" = true ->
                 exists v, getattr c "value" = Ok v) ->
      _contains_string (VNode n) = Ok (existsb is_text_constant (walk n))).
Proof.
  cbn [_contains_string]. split.
  - intros b. apply contains_string_loop_spec.
  - apply contains_string_loop_total.
Qed.

(** X13 on the sum of [src_sql_open]. *)
Lemma contains_string_searches_subtree_witness :
  _contains_string
    (VNode (mk_BinOp 1 15
              (mk_Constant 1 15 (PStr "SELECT * FROM t WHERE id = ")) "Add"
              (mk_Name 1 47 "uid" "Load")))
  = Ok true.
Proof.
  apply (proj2 (contains_string_searches_subtree
                  (mk_BinOp 1 15
                     (mk_Constant 1 15 (PStr "SELECT * FROM t WHERE id = "))
                     "Add" (mk_Name 1 47 "uid" "Load")))).
  intros c Hc Hcls. vm_compute in Hc.
  repeat (destruct Hc as [<- | Hc];
          [first [discriminate Hcls | eexists; reflexivity]|]).
  destruct Hc.
Defined.

(** X14: for a call [<something>.execute(first, ...)], the SQL rule adds one
    HIGH finding at the line of the call when the first argument is an
    f-string, and one when it is a sum that has a text constant anywhere
    inside it; it adds nothing for a sum without a text constant, for
    another operator such as the percent sign, and for a first argument of
    any other kind. *)
Theorem sql_execute_findings (call callee first : node) (rest : list value)
    (line : Z) :
  isinstance (VNode call) "Call" = true ->
  getattr call "func" = Ok (VNode callee) ->
  isinstance (VNode callee) "Attribute" = true ->
  getattr callee "attr" = Ok (VPrim (PStr "execute")) ->
  getattr call "args" = Ok (VList (VNode first :: rest)) ->
  node_lineno call = Some line ->
  (isinstance (VNode first) "JoinedStr" = true ->
   (forall issues,
       sql_injection_step call issues = Ok (issues ++ [sql_fstring_issue line]))
   /\ forall t out,
        In call (walk t) -> _check_sql_injection t [] = Ok out ->
        In (sql_fstring_issue line) out)
  /\ (forall op found,
        isinstance (VNode first) "BinOp" = true ->
        getattr first "op" = Ok op ->
        isinstance op "Add" = true ->
        _contains_string (VNode first) = Ok found ->
        (forall issues,
            sql_injection_step call issues
            = Ok (if found then issues ++ [sql_concat_issue line] else issues))
        /\ (found = true ->
            forall t out,
              In call (walk t) -> _check_sql_injection t [] = Ok out ->
              In (sql_concat_issue line) out))
  /\ (forall op,
        isinstance (VNode first) "BinOp" = true ->
        getattr first "op" = Ok op ->
        isinstance op "Add" = false ->
        forall issues, sql_injection_step call issues = Ok issues)
  /\ (isinstance (VNode first) "JoinedStr" = false ->
      isinstance (VNode first) "BinOp" = false ->
      forall issues, sql_injection_step call issues = Ok issues).
Proof.
  intros Hcall Hfunc Hattribute Hattr Hargs Hline.
  assert (Hstep : forall issues,
             sql_injection_step call issues
             = (if isinstance (VNode first) "JoinedStr" then
                  Ok (issues ++ [sql_fstring_issue line])
                else
                  is_concat <- (if isinstance (VNode first) "BinOp"
                                then op <- attr (VNode first) "op" ;;
                                     Ok (isinstance op "Add")
                                else Ok false) ;;
                  if is_concat then
                    has_string <- _contains_string (VNode first) ;;
                    if has_string
                    then Ok (issues ++ [sql_concat_issue line])
                    else Ok issues
                  else Ok issues)).
  { intro issues. unfold sql_injection_step.
    rewrite Hcall, Hfunc. cbn [bind]. rewrite Hattribute.
    cbn [attr]. rewrite Hattr. cbn [bind].
    change (eq_str (VPrim (PStr "execute")) "execute") with true.
    cbn iota. rewrite Hargs. cbn [bind truthy first_item].
    unfold lineno_of. rewrite Hline. cbn [bind].
    destruct (isinstance (VNode first) "JoinedStr"); [reflexivity|].
    destruct (isinstance (VNode first) "BinOp"); cbn [bind]; [|reflexivity].
    cbn [attr].
    destruct (getattr first "op") as [op|e]; cbn [bind]; [|reflexivity].
    destruct (isinstance op "Add"); [|reflexivity].
    destruct (_contains_string (VNode first)) as [[|]|e]; reflexivity. }
  split; [|split; [|split]].
  - intros Hjoined.
    assert (Hone : forall issues,
               sql_injection_step call issues
               = Ok (issues ++ [sql_fstring_issue line])).
    { intro issues. rewrite Hstep, Hjoined. reflexivity. }
    split; [exact Hone|].
    intros t out Hwalk Hrun.
    apply (for_each_includes (walk t) sql_injection_step
             sql_injection_step_appends call _ out Hwalk (Hone []) Hrun).
    left. reflexivity.
  - intros op found Hbin Hop Hadd Hfound.
    assert (Hjoined : isinstance (VNode first) "JoinedStr" = false).
    { apply (isinstance_unique first "BinOp" "JoinedStr" Hbin). discriminate. }
    assert (Hone : forall issues,
               sql_injection_step call issues
               = Ok (if found then issues ++ [sql_concat_issue line]
                     else issues)).
    { intro issues. rewrite Hstep, Hjoined, Hbin. cbn [attr]. rewrite Hop.
      cbn [bind]. rewrite Hadd, Hfound. cbn [bind].
      destruct found; reflexivity. }
    split; [exact Hone|].
    intros -> t out Hwalk Hrun.
    apply (for_each_includes (walk t) sql_injection_step
             sql_injection_step_appends call _ out Hwalk (Hone []) Hrun).
    left. reflexivity.
  - intros op Hbin Hop Hadd issues.
    assert (Hjoined : isinstance (VNode first) "JoinedStr" = false).
    { apply (isinstance_unique first "BinOp" "JoinedStr" Hbin). discriminate. }
    rewrite Hstep, Hjoined, Hbin. cbn [attr]. rewrite Hop. cbn [bind].
    rewrite Hadd. reflexivity.
  - intros Hjoined Hbin issues. rewrite Hstep, Hjoined, Hbin. reflexivity.
Qed.

(** X14 on the calls of [execute] with a sum and with the percent sign. *)
Lemma sql_execute_findings_witness :
  In call_execute_concat (walk tree_sql_open)
  /\ _contains_string
       (VNode (mk_BinOp 1 15
                 (mk_Constant 1 15 (PStr "SELECT * FROM t WHERE id = ")) "Add"
                 (mk_Name 1 47 "uid" "Load")))
     = Ok true
  /\ (forall issues,
         sql_injection_step call_execute_concat issues
         = Ok (issues ++ [sql_concat_issue 1]))
  /\ (forall issues,
         sql_injection_step call_execute_percent issues = Ok issues).
Proof.
  split; [vm_compute; tauto|]. split; [reflexivity|]. split.
  - refine (proj1 (proj1 (proj2 (sql_execute_findings call_execute_concat
                      (mk_Attribute 1 0 (mk_Name 1 0 "cursor" "Load")
                         "execute" "Load")
                      _ [] 1%Z eq_refl eq_refl eq_refl eq_refl eq_refl eq_refl))
                    (mk_marker "Add") true eq_refl eq_refl eq_refl eq_refl)).
  - refine (proj1 (proj2 (proj2 (sql_execute_findings call_execute_percent
                      (mk_Attribute 1 0 (mk_Name 1 0 "cursor" "Load")
                         "execute" "Load")
                      _ [] 1%Z eq_refl eq_refl eq_refl eq_refl eq_refl eq_refl)))
              (mk_marker "Mod") eq_refl eq_refl eq_refl).
Defined.

(** X15: the SQL rule looks only at calls of a method called [execute] that
    have a positional argument: it adds nothing for a method of another
    name, [executemany] included, for a callee that is no attribute, and
    for a call whose arguments are all given by keyword. *)
Theorem sql_rule_only_execute (call callee : node) :
  isinstance (VNode call) "Call" = true ->
  getattr call "func" = Ok (VNode callee) ->
  (isinstance (VNode callee) "Attribute" = false ->
   forall issues, sql_injection_step call issues = Ok issues)
  /\ (forall method,
        isinstance (VNode callee) "Attribute" = true ->
        getattr callee "attr" = Ok (VPrim (PStr method)) ->
        method <> "execute" ->
        forall issues, sql_injection_step call issues = Ok issues)
  /\ (isinstance (VNode callee) "Attribute" = true ->
      getattr callee "attr" = Ok (VPrim (PStr "execute")) ->
      getattr call "args" = Ok (VList []) ->
      forall issues, sql_injection_step call issues = Ok issues).
Proof.
  intros Hcall Hfunc. split; [|split].
  - intros Hattribute issues. unfold sql_injection_step.
    rewrite Hcall, Hfunc. cbn [bind]. rewrite Hattribute. reflexivity.
  - intros method Hattribute Hattr Hother issues. unfold sql_injection_step.
    rewrite Hcall, Hfunc. cbn [bind]. rewrite Hattribute.
    cbn [attr]. rewrite Hattr. cbn [bind eq_str].
    apply String.eqb_neq in Hother. rewrite Hother. reflexivity.
  - intros Hattribute Hattr Hargs issues. unfold sql_injection_step.
    rewrite Hcall, Hfunc. cbn [bind]. rewrite Hattribute.
    cbn [attr]. rewrite Hattr. cbn [bind].
    change (eq_str (VPrim (PStr "execute")) "execute") with true.
    cbn iota. rewrite Hargs. reflexivity.
Qed.

(** X15 on the call [open(path)], whose callee is a bare name. *)
Lemma sql_rule_only_execute_witness :
  In call_open_path (walk tree_sql_open)
  /\ forall issues, sql_injection_step call_open_path issues = Ok issues.
Proof.
  split; [vm_compute; tauto|].
  apply (proj1 (sql_rule_only_execute call_open_path
                  (mk_Name 2 4 "open" "Load") eq_refl eq_refl)).
  reflexivity.
Defined.

(** X16: for a call of a bare name, the path rule adds one MEDIUM finding
    at the line of the call exactly when the name is [open], [read] or
    [write] and the first positional argument is a name or a binary
    operation; a first argument of another kind, a call without a
    positional argument, another name, and a callee that is no bare name
    give nothing. *)
Theorem path_traversal_findings (call callee : node) (line : Z) :
  isinstance (VNode call) "Call" = true ->
  getattr call "func" = Ok (VNode callee) ->
  node_lineno call = Some line ->
  (isinstance (VNode callee) "Name" = false ->
   forall issues, path_traversal_step call issues = Ok issues)
  /\ forall name,
       isinstance (VNode callee) "Name" = true ->
       getattr callee "id" = Ok (VPrim (PStr name)) ->
       (~ In name ["open"; "read"; "write"] ->
        forall issues, path_traversal_step call issues = Ok issues)
       /\ (In name ["open"; "read"; "write"] ->
           forall items,
             getattr call "args" = Ok (VList items) ->
             (forall issues,
                 path_traversal_step call issues
                 = Ok (match items with
                       | first :: _ =>
                           if isinstance first "Name"
                              || isinstance first "BinOp"
                           then issues ++ [path_traversal_issue line]
                           else issues
                       | [] => issues
                       end))
             /\ forall first rest t out,
                  items = first :: rest ->
                  isinstance first "Name" || isinstance first "BinOp" = true ->
                  In call (walk t) -> _check_path_traversal t [] = Ok out ->
                  In (path_traversal_issue line) out).
Proof.
  intros Hcall Hfunc Hline. split.
  - intros Hname issues. unfold path_traversal_step.
    rewrite Hcall, Hfunc. cbn [bind]. rewrite Hname. reflexivity.
  - intros name Hname Hid. split.
    + intros Hother issues. unfold path_traversal_step.
      rewrite Hcall, Hfunc. cbn [bind]. rewrite Hname.
      cbn [attr]. rewrite Hid. cbn [bind in_tuple existsb eq_str].
      destruct (name =? "open")%string eqn:H1;
        [apply String.eqb_eq in H1; exfalso; apply Hother; left; congruence|].
      destruct (name =? "read")%string eqn:H2;
        [apply String.eqb_eq in H2; exfalso; apply Hother; right; left;
         congruence|].
      destruct (name =? "write")%string eqn:H3;
        [apply String.eqb_eq in H3; exfalso; apply Hother; right; right; left;
         congruence|].
      reflexivity.
    + intros Hin items Hargs.
      assert (Htuple : in_tuple (VPrim (PStr name)) ["open"; "read"; "write"]
                       = true).
      { destruct Hin as [<- | [<- | [<- | []]]]; reflexivity. }
      assert (Hstep : forall issues,
                 path_traversal_step call issues
                 = Ok (match items with
                       | first :: _ =>
                           if isinstance first "Name"
                              || isinstance first "BinOp"
                           then issues ++ [path_traversal_issue line]
                           else issues
                       | [] => issues
                       end)).
      { intro issues. unfold path_traversal_step.
        rewrite Hcall, Hfunc. cbn [bind]. rewrite Hname.
        cbn [attr]. rewrite Hid. cbn [bind]. rewrite Htuple, Hargs.
        cbn [bind]. unfold lineno_of. rewrite Hline.
        destruct items as [|first rest]; [reflexivity|].
        cbn [truthy first_item bind].
        destruct (isinstance first "Name" || isinstance first "BinOp");
          reflexivity. }
      split; [exact Hstep|].
      intros first rest t out -> Hflag Hwalk Hrun.
      specialize (Hstep []). rewrite Hflag in Hstep.
      apply (for_each_includes (walk t) path_traversal_step
               path_traversal_step_appends call _ out Hwalk Hstep Hrun).
      left. reflexivity.
Qed.

(** X16 on the call [open(path)] of [src_sql_open]. *)
Lemma path_traversal_findings_witness :
  In call_open_path (walk tree_sql_open)
  /\ forall issues,
       path_traversal_step call_open_path issues
       = Ok (issues ++ [path_traversal_issue 2]).
Proof.
  split; [vm_compute; tauto|].
  refine (proj1 (proj2 (proj2 (path_traversal_findings call_open_path
                          (mk_Name 2 4 "open" "Load") 2%Z
                          eq_refl eq_refl eq_refl)
                          "open" eq_refl eq_refl)
                   (or_introl eq_refl)
                   [VNode (mk_Name 2 9 "path" "Load")] eq_refl)).
Defined.

(** X17: for a call [<name>.<algorithm>(...)], the rule on weak hashes adds
    one MEDIUM finding at the line of the call exactly when the name is
    [hashlib] and the algorithm is [md5] or [sha1]; its description spells
    the algorithm in capitals.  A call of a bare name, as after
    [from hashlib import md5], gives nothing. *)
Theorem weak_crypto_findings (call callee : node) (line : Z) :
  isinstance (VNode call) "Call" = true ->
  getattr call "func" = Ok (VNode callee) ->
  node_lineno call = Some line ->
  (isinstance (VNode callee) "Attribute" = false ->
   forall issues, weak_crypto_step call issues = Ok issues)
  /\ (forall object module algorithm,
        isinstance (VNode callee) "Attribute" = true ->
        getattr callee "value" = Ok (VNode object) ->
        isinstance (VNode object) "Name" = true ->
        getattr object "id" = Ok (VPrim (PStr module)) ->
        getattr callee "attr" = Ok (VPrim (PStr algorithm)) ->
        (forall issues,
            weak_crypto_step call issues
            = Ok (if (module =? "hashlib")%string
                     && existsb (String.eqb algorithm) ["md5"; "sha1"]
                  then issues ++ [weak_crypto_issue algorithm line]
                  else issues))
        /\ (module = "hashlib" -> In algorithm ["md5"; "sha1"] ->
            forall t out,
              In call (walk t) -> _check_weak_crypto t [] = Ok out ->
              In (weak_crypto_issue algorithm line) out))
  /\ description (weak_crypto_issue "md5" line) = "MD5 is cryptographically weak"
  /\ description (weak_crypto_issue "sha1" line)
     = "SHA1 is cryptographically weak".
Proof.
  intros Hcall Hfunc Hline. split; [|split].
  - intros Hattribute issues. unfold weak_crypto_step.
    rewrite Hcall, Hfunc. cbn [bind]. rewrite Hattribute. reflexivity.
  - intros object module algorithm Hattribute Hvalue Hname Hid Hattr.
    assert (Htest : is_attribute_of (VNode callee) "hashlib"
                    = Ok (module =? "hashlib")%string).
    { unfold is_attribute_of. cbn [attr]. rewrite Hvalue. cbn [bind].
      rewrite Hname. cbn [attr]. rewrite Hid. reflexivity. }
    assert (Hstep : forall issues,
               weak_crypto_step call issues
               = Ok (if (module =? "hashlib")%string
                        && existsb (String.eqb algorithm) ["md5"; "sha1"]
                     then issues ++ [weak_crypto_issue algorithm line]
                     else issues)).
    { intro issues. unfold weak_crypto_step.
      rewrite Hcall, Hfunc. cbn [bind]. rewrite Hattribute, Htest.
      cbn [bind]. destruct (module =? "hashlib")%string; [|reflexivity].
      cbn [attr andb]. rewrite Hattr. cbn [bind].
      unfold weak_algorithms, lineno_of. rewrite Hline.
      destruct (existsb (String.eqb algorithm) ["md5"; "sha1"]); reflexivity. }
    split; [exact Hstep|].
    intros -> Hin t out Hwalk Hrun.
    specialize (Hstep []).
    assert (Hweak : existsb (String.eqb algorithm) ["md5"; "sha1"] = true).
    { destruct Hin as [<- | [<- | []]]; reflexivity. }
    rewrite Hweak in Hstep. cbn [String.eqb andb] in Hstep.
    change ("hashlib" =? "hashlib")%string with true in Hstep.
    cbn iota in Hstep.
    apply (for_each_includes (walk t) weak_crypto_step
             weak_crypto_step_appends call _ out Hwalk Hstep Hrun).
    left. reflexivity.
  - split; reflexivity.
Qed.

(** X17 on the call [hashlib.md5(x)] of [src_mixed]. *)
Lemma weak_crypto_findings_witness :
  In call_hashlib_md5 (walk tree_mixed)
  /\ forall issues,
       weak_crypto_step call_hashlib_md5 issues
       = Ok (issues ++ [weak_crypto_issue "md5" 1]).
Proof.
  split; [vm_compute; tauto|].
  refine (proj1 (proj1 (proj2 (weak_crypto_findings call_hashlib_md5
                         (mk_Attribute 1 4 (mk_Name 1 4 "hashlib" "Load")
                            "md5" "Load") 1%Z eq_refl eq_refl eq_refl))
                   (mk_Name 1 4 "hashlib" "Load") "hashlib" "md5"
                   eq_refl eq_refl eq_refl eq_refl eq_refl)).
Defined.

(** X18: the rule on dangerous functions looks only at calls of a bare name
    of its table: a call of an attribute, such as [builtins.eval(x)], and a
    call of another name, such as a variable that holds [eval], give
    nothing. *)
Theorem dangerous_rule_only_bare_names (call callee : node) :
  isinstance (VNode call) "Call" = true ->
  getattr call "func" = Ok (VNode callee) ->
  (isinstance (VNode callee) "Name" = false ->
   forall issues, dangerous_functions_step call issues = Ok issues)
  /\ (forall name,
        isinstance (VNode callee) "Name" = true ->
        getattr callee "id" = Ok (VPrim (PStr name)) ->
        ~ In name ["eval"; "exec"; "compile"; "__import__"] ->
        forall issues, dangerous_functions_step call issues = Ok issues)
  /\ forall t,
       (forall n, In n (walk t) -> isinstance (VNode n) "Call" = true ->
                  exists f, getattr n "func" = Ok (VNode f)
                            /\ isinstance (VNode f) "Name" = false) ->
       forall issues, _check_dangerous_functions t issues = Ok issues.
Proof.
  intros Hcall Hfunc. split; [|split].
  - intros Hname issues. unfold dangerous_functions_step.
    rewrite Hcall, Hfunc. cbn [bind]. rewrite Hname. reflexivity.
  - intros name Hname Hid Hother issues. unfold dangerous_functions_step.
    rewrite Hcall, Hfunc. cbn [bind]. rewrite Hname.
    cbn [attr]. rewrite Hid. cbn [bind].
    destruct (dict_get dangerous_funcs name) as [[level desc]|] eqn:Hentry;
      [|reflexivity].
    exfalso. apply Hother. apply dangerous_funcs_levels in Hentry.
    cbn [In]. destruct Hentry as [([-> | ->] & _) | ([-> | ->] & _)]; tauto.
  - intros t Hnone issues. unfold _check_dangerous_functions.
    apply for_each_skip. intros n s Hn. unfold dangerous_functions_step.
    destruct (isinstance (VNode n) "Call") eqn:Hc; [|reflexivity].
    destruct (Hnone n Hn Hc) as (f & Hf & Hname).
    rewrite Hf. cbn [bind]. rewrite Hname. reflexivity.
Qed.

(** X18 on the call [hashlib.md5(x)], whose callee is an attribute. *)
Lemma dangerous_rule_only_bare_names_witness :
  In call_hashlib_md5 (walk tree_mixed)
  /\ forall issues,
       dangerous_functions_step call_hashlib_md5 issues = Ok issues.
Proof.
  split; [vm_compute; tauto|].
  apply (proj1 (dangerous_rule_only_bare_names call_hashlib_md5
                  (mk_Attribute 1 4 (mk_Name 1 4 "hashlib" "Load") "md5" "Load")
                  eq_refl eq_refl)).
  reflexivity.
Defined.

(** ** The findings of a scan and the calls of the tree *)

(** A check that only appends gives, node after node, what its body gives for
    each node alone. *)
Lemma for_each_concat {A : Type} (xs : list A)
    (step : A -> list issue -> result (list issue)) :
  appends step ->
  forall out,
    for_each xs step [] = Ok out ->
    exists per,
      map_result (fun x => step x []) xs = Ok per /\ out = List.concat per.
Proof.
  intros Happ. induction xs as [|x xs IH]; intros out H.
  - injection H as <-. exists []. split; reflexivity.
  - cbn [for_each] in H. apply bind_ok in H as (new & Hnew & H).
    rewrite (for_each_appends xs step Happ new) in H.
    apply bind_ok in H as (rest & Hrest & H). injection H as <-.
    destruct (IH rest Hrest) as (per & Hper & ->).
    exists (new :: per). cbn [map_result]. rewrite Hnew, Hper.
    split; reflexivity.
Qed.

Lemma in_tuple_true (v : value) (l : list string) :
  in_tuple v l = true -> exists s, v = VPrim (PStr s) /\ In s l.
Proof.
  unfold in_tuple. intros H. apply existsb_exists in H as (s & Hin & Heq).
  destruct v as [| |p]; try discriminate Heq.
  destruct p; try discriminate Heq.
  cbn [eq_str] in Heq. apply String.eqb_eq in Heq. subst.
  eexists. split; [reflexivity | exact Hin].
Qed.

Lemma eq_str_true (v : value) (s : string) :
  eq_str v s = true -> v = VPrim (PStr s).
Proof.
  destruct v as [| |p]; try discriminate. destruct p; try discriminate.
  cbn [eq_str]. intros H. apply String.eqb_eq in H. subst. reflexivity.
Qed.

Ltac fires_not := left; reflexivity.

Ltac fires_once :=
  right; eexists; split; [reflexivity|];
  cbn [lineno severity];
  split; [repeat split; auto|].

Lemma attribute_is_no_name (func : value) :
  isinstance func "Attribute" = true -> isinstance func "Name" = false.
Proof.
  intros H. destruct (isinstance_node _ _ H) as (f & -> & _).
  apply (isinstance_unique f "Attribute" "Name" H). discriminate.
Qed.

Lemma dangerous_functions_step_shape (n : node) :
  match dangerous_functions_step n [] with
  | Ok new => one_at_call 0 n new
  | Raise _ => True
  end.
Proof.
  unfold dangerous_functions_step, one_at_call, at_call, call_target,
    lineno_of, _add_issue.
  destruct (isinstance (VNode n) "Call") eqn:Hcall; [|fires_not].
  destruct (getattr n "func") as [func|]; cbn [bind]; [|exact I].
  destruct (isinstance func "Name") eqn:Hname; [|fires_not].
  destruct (attr func "id") as [v|]; cbn [bind]; [|exact I].
  destruct v as [| |p]; [fires_not | exact I |].
  destruct p; try fires_not.
  destruct (dict_get dangerous_funcs s) as [[level desc]|] eqn:Hentry;
    [|fires_not].
  destruct (node_lineno n) as [l|]; cbn [bind]; [|exact I].
  apply dangerous_funcs_levels in Hentry.
  destruct Hentry as [([-> | ->] & ->) | ([-> | ->] & ->)];
    fires_once; reflexivity.
Qed.

Lemma sql_injection_step_shape (n : node) :
  match sql_injection_step n [] with
  | Ok new => one_at_call 1 n new
  | Raise _ => True
  end.
Proof.
  unfold sql_injection_step, one_at_call, at_call, call_target,
    lineno_of, _add_issue.
  destruct (isinstance (VNode n) "Call") eqn:Hcall; [|fires_not].
  destruct (getattr n "func") as [func|]; cbn [bind]; [|exact I].
  destruct (isinstance func "Attribute") eqn:Hattribute; [|fires_not].
  rewrite (attribute_is_no_name func Hattribute).
  destruct (attr func "attr") as [a|]; cbn [bind]; [|exact I].
  destruct (eq_str a "execute") eqn:Hexecute.
  2: { cbn [bind truthy]. fires_not. }
  apply eq_str_true in Hexecute. subst a.
  destruct (getattr n "args") as [args|]; cbn [bind]; [|exact I].
  destruct (truthy args); [|fires_not].
  destruct (first_item args) as [first|]; cbn [bind]; [|exact I].
  destruct (isinstance first "JoinedStr").
  { destruct (node_lineno n) as [l|]; cbn [bind]; [|exact I].
    fires_once. reflexivity. }
  destruct (isinstance first "BinOp"); cbn [bind]; [|fires_not].
  destruct (attr first "op") as [op|]; cbn [bind]; [|exact I].
  destruct (isinstance op "Add"); [|fires_not].
  destruct (_contains_string first) as [[|]|]; cbn [bind];
    [|fires_not|exact I].
  destruct (node_lineno n) as [l|]; cbn [bind]; [|exact I].
  fires_once. reflexivity.
Qed.

Lemma path_traversal_step_shape (n : node) :
  match path_traversal_step n [] with
  | Ok new => one_at_call 2 n new
  | Raise _ => True
  end.
Proof.
  unfold path_traversal_step, one_at_call, at_call, call_target,
    lineno_of, _add_issue.
  destruct (isinstance (VNode n) "Call") eqn:Hcall; [|fires_not].
  destruct (getattr n "func") as [func|]; cbn [bind]; [|exact I].
  destruct (isinstance func "Name") eqn:Hname; [|fires_not].
  destruct (attr func "id") as [v|]; cbn [bind]; [|exact I].
  destruct (in_tuple v ["open"; "read"; "write"]) eqn:Hin; [|fires_not].
  apply in_tuple_true in Hin as (s & -> & Hin).
  destruct (getattr n "args") as [args|]; cbn [bind]; [|exact I].
  destruct (truthy args); cbn [bind]; [|fires_not].
  destruct (first_item args) as [first|]; cbn [bind]; [|exact I].
  destruct (isinstance first "Name" || isinstance first "BinOp");
    [|fires_not].
  destruct (node_lineno n) as [l|]; cbn [bind]; [|exact I].
  destruct Hin as [<- | [<- | [<- | []]]]; fires_once; reflexivity.
Qed.

Lemma unsafe_deserialization_step_shape (n : node) :
  match unsafe_deserialization_step n [] with
  | Ok new => one_at_call 3 n new
  | Raise _ => True
  end.
Proof.
  unfold unsafe_deserialization_step, one_at_call, at_call, call_target,
    lineno_of, _add_issue.
  destruct (isinstance (VNode n) "Call") eqn:Hcall; [|fires_not].
  destruct (getattr n "func") as [func|]; cbn [bind]; [|exact I].
  destruct (isinstance func "Attribute") eqn:Hattribute; [|fires_not].
  rewrite (attribute_is_no_name func Hattribute).
  destruct (is_attribute_of func "pickle") as [[|]|]; cbn [bind];
    [|fires_not|exact I].
  destruct (attr func "attr") as [a|]; cbn [bind]; [|exact I].
  destruct (in_tuple a ["loads"; "load"]) eqn:Hin; [|fires_not].
  apply in_tuple_true in Hin as (s & -> & Hin).
  destruct (node_lineno n) as [l|]; cbn [bind]; [|exact I].
  destruct Hin as [<- | [<- | []]]; fires_once; reflexivity.
Qed.

Lemma weak_crypto_step_shape (n : node) :
  match weak_crypto_step n [] with
  | Ok new => one_at_call 5 n new
  | Raise _ => True
  end.
Proof.
  unfold weak_crypto_step, one_at_call, at_call, call_target,
    lineno_of, _add_issue.
  destruct (isinstance (VNode n) "Call") eqn:Hcall; [|fires_not].
  destruct (getattr n "func") as [func|]; cbn [bind]; [|exact I].
  destruct (isinstance func "Attribute") eqn:Hattribute; [|fires_not].
  rewrite (attribute_is_no_name func Hattribute).
  destruct (is_attribute_of func "hashlib") as [[|]|]; cbn [bind];
    [|fires_not|exact I].
  destruct (attr func "attr") as [a|]; cbn [bind]; [|exact I].
  destruct a as [| |p]; [fires_not | exact I |].
  destruct p; try fires_not.
  destruct (existsb (String.eqb s) weak_algorithms) eqn:Hweak; [|fires_not].
  destruct (node_lineno n) as [l|]; cbn [bind]; [|exact I].
  apply existsb_exists in Hweak as (a & Hin & Heq).
  apply String.eqb_eq in Heq. subst a.
  destruct Hin as [<- | [<- | []]]; fires_once; reflexivity.
Qed.

Lemma shell_injection_step_shape (n : node) :
  match shell_injection_step n [] with
  | Ok new => one_at_call 6 n new
  | Raise _ => True
  end.
Proof.
  unfold shell_injection_step, one_at_call, at_call, call_target,
    lineno_of, _add_issue.
  destruct (isinstance (VNode n) "Call") eqn:Hcall; [|fires_not].
  destruct (getattr n "func") as [func|]; cbn [bind]; [|exact I].
  destruct (isinstance func "Attribute") eqn:Hattribute; [|fires_not].
  rewrite (attribute_is_no_name func Hattribute).
  destruct (is_attribute_of func "os") as [[|]|]; cbn [bind];
    [|fires_not|exact I].
  destruct (attr func "attr") as [a|]; cbn [bind]; [|exact I].
  destruct (eq_str a "system") eqn:Hsystem; [|fires_not].
  apply eq_str_true in Hsystem. subst a.
  destruct (node_lineno n) as [l|]; cbn [bind]; [|exact I].
  fires_once. reflexivity.
Qed.

(** What a check over the nodes of the tree returns is made of findings at
    calls of the tree. *)
Lemma check_at_calls (tag : nat)
    (step : node -> list issue -> result (list issue)) (l : list node)
    (out : list issue) :
  appends step ->
  (forall n, match step n [] with
             | Ok new => one_at_call tag n new
             | Raise _ => True
             end) ->
  for_each l step [] = Ok out ->
  Forall (fun x => exists n, In n l /\ at_call n x) out.
Proof.
  intros Happ Hshape Hrun.
  destruct (for_each_concat l step Happ out Hrun) as (per & Hper & ->).
  apply Forall_forall. intros x Hx.
  apply in_concat in Hx as (new & Hnew & Hx).
  destruct (map_result_in _ _ _ _ Hper Hnew) as (n & Hn & Hstep).
  specialize (Hshape n). rewrite Hstep in Hshape.
  destruct Hshape as [-> | (y & -> & Hat & _)]; [destruct Hx|].
  destruct Hx as [<- | []]. exists n. split; assumption.
Qed.

Lemma rule_outputs_parts (src : string) (t : node)
    (outputs : list (list issue)) :
  rule_outputs src t = Ok outputs ->
  exists d q p u h w s,
    outputs = [d; q; p; u; h; w; s]
    /\ _check_dangerous_functions t [] = Ok d
    /\ _check_sql_injection t [] = Ok q
    /\ _check_path_traversal t [] = Ok p
    /\ _check_unsafe_deserialization t [] = Ok u
    /\ _check_hardcoded_secrets src [] = Ok h
    /\ _check_weak_crypto t [] = Ok w
    /\ _check_shell_injection t [] = Ok s.
Proof.
  unfold rule_outputs. intros H.
  apply bind_ok in H as (d & Hd & H). apply bind_ok in H as (q & Hq & H).
  apply bind_ok in H as (p & Hp & H). apply bind_ok in H as (u & Hu & H).
  apply bind_ok in H as (h & Hh & H). apply bind_ok in H as (w & Hw & H).
  apply bind_ok in H as (s & Hs & H). injection H as <-.
  exists d, q, p, u, h, w, s. repeat split; assumption.
Qed.

(** The findings [scan] returns are the findings of the rules, put one
    severity after the other. *)
Lemma scan_buckets (src : string) (t : node) (fs : list issue) :
  scan src t = Ok fs ->
  exists outputs,
    rule_outputs src t = Ok outputs
    /\ Permutation fs (List.concat outputs)
    /\ fs = flat_map (fun s => of_severity s (List.concat outputs))
              severity_order.
Proof.
  intros Hscan. apply scan_unfold in Hscan as (outputs & Hout & ->).
  exists outputs. split; [exact Hout|].
  split; [apply sort_by_key_permutation|].
  assert (Hsorted : StronglySorted
                      (fun a b => rank_of (severity a) <= rank_of (severity b))
                      (sort_by_key severity_rank (List.concat outputs))).
  { pose proof (sort_by_key_sorted severity_rank (List.concat outputs))
      as Hsorted.
    revert Hsorted. apply StronglySorted_ind.
    - constructor.
    - intros x l _ IH Hall. constructor; [exact IH|].
      apply (Forall_impl _ (P := by_key severity_rank x)); [|exact Hall].
      intros y Hxy. unfold by_key in Hxy.
      rewrite !severity_rank_rank_of in Hxy. exact Hxy. }
  rewrite (sorted_by_severity _ Hsorted) at 1.
  apply flat_map_ext. intros s. unfold of_severity.
  apply sort_by_key_stable. apply of_severity_one_key.
Qed.

(** ** The findings of the rule on secrets *)

Lemma secret_patterns_shape (line_number : Z) (line : string)
    (patterns : list (regex * string)) (out : list issue) :
  for_each patterns (secret_pattern_step line_number line) [] = Ok out ->
  List.length out <= List.length patterns
  /\ Forall (fun x => severity x = CRITICAL /\ lineno x = line_number) out.
Proof.
  revert out. induction patterns as [|[pattern secret_type] patterns IH];
    intros out H.
  - injection H as <-. split; [apply le_n | constructor].
  - cbn [for_each] in H. apply bind_ok in H as (new & Hnew & H).
    rewrite (for_each_appends patterns _
               (secret_pattern_step_appends line_number line) new) in H.
    apply bind_ok in H as (rest & Hrest & H). injection H as <-.
    destruct (IH rest Hrest) as (Hlen & Hall).
    unfold secret_pattern_step, _add_issue in Hnew.
    destruct (re_search pattern line); injection Hnew as <-;
      cbn [app List.length].
    + split; [lia|]. constructor; [split; reflexivity | exact Hall].
    + split; [lia | exact Hall].
Qed.

Lemma enumerate_numbers {A : Type} (l : list A) (start : Z) (k : Z) (x : A) :
  In (k, x) (enumerate l start) ->
  (start <= k < start + Z.of_nat (List.length l))%Z.
Proof.
  revert start. induction l as [|y l IH]; intros start Hin; [destruct Hin|].
  cbn [enumerate List.length] in *. destruct Hin as [Heq | Hin].
  - injection Heq as <- <-. lia.
  - apply IH in Hin. lia.
Qed.

Lemma secrets_lines_shape (numbered : list (Z * string)) (out : list issue) :
  for_each numbered
    (fun numbered issues =>
       for_each secret_patterns
         (secret_pattern_step (fst numbered) (snd numbered)) issues) []
  = Ok out ->
  List.length out <= 5 * List.length numbered
  /\ Forall (fun x => severity x = CRITICAL
                      /\ exists line, In (lineno x, line) numbered) out
  /\ (StronglySorted (fun a b => (fst a <= fst b)%Z) numbered ->
      StronglySorted (fun a b => (lineno a <= lineno b)%Z) out).
Proof.
  revert out. induction numbered as [|[k line] numbered IH]; intros out H.
  - injection H as <-. split; [apply le_n|]. split; constructor.
  - cbn [for_each fst snd] in H. apply bind_ok in H as (new & Hnew & H).
    rewrite (for_each_appends numbered _ secret_line_step_appends new) in H.
    apply bind_ok in H as (rest & Hrest & H). injection H as <-.
    destruct (IH rest Hrest) as (Hlen & Hall & Hsorted).
    destruct (secret_patterns_shape k line secret_patterns new Hnew)
      as (Hlen' & Hall').
    change (List.length secret_patterns) with 5 in Hlen'.
    split; [rewrite length_app; cbn [List.length]; lia|].
    split.
    + apply Forall_app. split.
      * apply (Forall_impl _ (P := fun x => severity x = CRITICAL
                                           /\ lineno x = k)); [|exact Hall'].
        intros x (Hx & Hk). split; [exact Hx|].
        exists line. left. rewrite Hk. reflexivity.
      * apply (Forall_impl _ (P := fun x => severity x = CRITICAL
                                 /\ exists line, In (lineno x, line) numbered));
          [|exact Hall].
        intros x (Hx & line' & Hin). split; [exact Hx|].
        exists line'. right. exact Hin.
    + intros Hnum. inversion Hnum as [|? ? Hnum' Hfirst]; subst.
      specialize (Hsorted Hnum').
      clear Hnew Hlen' IH Hrest Hlen.
      induction new as [|x new IHnew]; [exact Hsorted|].
      inversion Hall' as [|? ? (Hx & Hk) Hall'']; subst.
      cbn [app]. constructor; [apply IHnew; exact Hall''|].
      apply Forall_app. split.
      * apply Forall_forall. intros y Hy.
        rewrite Forall_forall in Hall''. destruct (Hall'' y Hy) as (_ & Hy').
        lia.
      * apply Forall_forall. intros y Hy.
        rewrite Forall_forall in Hall. destruct (Hall y Hy) as (_ & line' & Hin).
        rewrite Forall_forall in Hfirst. specialize (Hfirst _ Hin).
        cbn [fst] in Hfirst. lia.
Qed.

Lemma enumerate_sorted {A : Type} (l : list A) (start : Z) :
  StronglySorted (fun a b : Z * A => (fst a <= fst b)%Z) (enumerate l start).
Proof.
  revert start. induction l as [|x l IH]; intros start; cbn [enumerate].
  - constructor.
  - constructor; [apply IH|].
    apply Forall_forall. intros [k y] Hin. apply enumerate_numbers in Hin.
    cbn [fst]. lia.
Qed.

Lemma enumerate_length {A : Type} (l : list A) (start : Z) :
  List.length (enumerate l start) = List.length l.
Proof.
  revert start. induction l as [|x l IH]; intros start; cbn [enumerate List.length].
  - reflexivity.
  - rewrite IH. reflexivity.
Qed.

Lemma of_severity_all (s : severity_level) (l : list issue) :
  Forall (fun x => severity x = s) l -> of_severity s l = l.
Proof.
  induction 1 as [|x l Hx _ IH]; [reflexivity|].
  rewrite of_severity_cons, IH, Hx.
  destruct s; reflexivity.
Qed.

Lemma of_severity_other (s : severity_level) (l : list issue) :
  Forall (fun x => severity x <> s) l -> of_severity s l = [].
Proof.
  induction 1 as [|x l Hx _ IH]; [reflexivity|].
  rewrite of_severity_cons, IH.
  destruct (severity_eqb (severity x) s) eqn:Heq; [|reflexivity].
  apply severity_eqb_eq in Heq. contradiction.
Qed.

Lemma of_severity_app (s : severity_level) (l l' : list issue) :
  of_severity s (l ++ l') = of_severity s l ++ of_severity s l'.
Proof. apply filter_app. Qed.

Lemma at_calls_not_critical (l : list node) (out : list issue) :
  Forall (fun x => exists n, In n l /\ at_call n x) out ->
  Forall (fun x => severity x = HIGH \/ severity x = MEDIUM) out.
Proof.
  apply Forall_impl. intros x (n & _ & _ & _ & Hx). exact Hx.
Qed.

Lemma filter_none {A : Type} (p : A -> bool) (l : list A) :
  Forall (fun x => p x = false) l -> filter p l = [].
Proof.
  induction 1 as [|x l Hx _ IH]; [reflexivity|].
  cbn [filter]. rewrite Hx, IH. reflexivity.
Qed.

Lemma of_severity_members (s : severity_level) (l : list issue) (x : issue) :
  In x (of_severity s l) -> In x l /\ severity x = s.
Proof.
  unfold of_severity. intros H. apply filter_In in H as (Hin & Heq).
  apply severity_eqb_eq in Heq. split; assumption.
Qed.

(** A sort leaves a list whose keys are all the same as it is. *)
Lemma sort_by_key_constant {A : Type} (key : A -> nat) (k : nat) (l : list A) :
  Forall (fun x => key x = k) l -> sort_by_key key l = l.
Proof.
  induction 1 as [|x l Hx Hall IH]; [reflexivity|].
  cbn [sort_by_key]. rewrite IH.
  destruct Hall as [|y l Hy _]; [reflexivity|].
  cbn [insert_by_key]. rewrite Hx, Hy, Nat.leb_refl. reflexivity.
Qed.

(** The six rules that look at the nodes of the tree add, all together, at
    most one finding for a node, and none for a node that is no call. *)
Lemma one_call_one_finding (n : node) (d q p u w s : list issue) :
  dangerous_functions_step n [] = Ok d ->
  sql_injection_step n [] = Ok q ->
  path_traversal_step n [] = Ok p ->
  unsafe_deserialization_step n [] = Ok u ->
  weak_crypto_step n [] = Ok w ->
  shell_injection_step n [] = Ok s ->
  List.length d + List.length q + List.length p + List.length u
  + List.length w + List.length s
  <= (if isinstance (VNode n) "Call" then 1 else 0).
Proof.
  intros Hd Hq Hp Hu Hw Hs.
  pose proof (dangerous_functions_step_shape n) as Sd. rewrite Hd in Sd.
  pose proof (sql_injection_step_shape n) as Sq. rewrite Hq in Sq.
  pose proof (path_traversal_step_shape n) as Sp. rewrite Hp in Sp.
  pose proof (unsafe_deserialization_step_shape n) as Su. rewrite Hu in Su.
  pose proof (weak_crypto_step_shape n) as Sw. rewrite Hw in Sw.
  pose proof (shell_injection_step_shape n) as Ss. rewrite Hs in Ss.
  clear Hd Hq Hp Hu Hw Hs.
  unfold one_at_call, at_call in *.
  destruct Sd as [-> | (xd & -> & (Hcd & _) & Td)];
    destruct Sq as [-> | (xq & -> & (Hcq & _) & Tq)];
    destruct Sp as [-> | (xp & -> & (Hcp & _) & Tp)];
    destruct Su as [-> | (xu & -> & (Hcu & _) & Tu)];
    destruct Sw as [-> | (xw & -> & (Hcw & _) & Tw)];
    destruct Ss as [-> | (xs & -> & (Hcs & _) & Ts)];
    cbn [List.length];
    try (destruct (isinstance (VNode n) "Call"); lia);
    try (rewrite ?Hcd, ?Hcq, ?Hcp, ?Hcu, ?Hcw, ?Hcs;
         destruct (call_target n) as [[cls v]|]; try contradiction; lia).
Qed.

Lemma calls_bound (l : list node) :
  forall pd pq pp pu pw ps : list (list issue),
    map_result (fun n => dangerous_functions_step n []) l = Ok pd ->
    map_result (fun n => sql_injection_step n []) l = Ok pq ->
    map_result (fun n => path_traversal_step n []) l = Ok pp ->
    map_result (fun n => unsafe_deserialization_step n []) l = Ok pu ->
    map_result (fun n => weak_crypto_step n []) l = Ok pw ->
    map_result (fun n => shell_injection_step n []) l = Ok ps ->
    List.length (List.concat pd) + List.length (List.concat pq)
    + List.length (List.concat pp) + List.length (List.concat pu)
    + List.length (List.concat pw) + List.length (List.concat ps)
    <= count_class "Call" l.
Proof.
  induction l as [|n l IH]; intros pd pq pp pu pw ps Hd Hq Hp Hu Hw Hs.
  - injection Hd as <-. injection Hq as <-. injection Hp as <-.
    injection Hu as <-. injection Hw as <-. injection Hs as <-.
    cbn. lia.
  - cbn [map_result] in *.
    apply bind_ok in Hd as (d & Hd & Hd'). apply bind_ok in Hd' as (pd' & Hpd & Hd').
    apply bind_ok in Hq as (q & Hq & Hq'). apply bind_ok in Hq' as (pq' & Hpq & Hq').
    apply bind_ok in Hp as (p & Hp & Hp'). apply bind_ok in Hp' as (pp' & Hpp & Hp').
    apply bind_ok in Hu as (u & Hu & Hu'). apply bind_ok in Hu' as (pu' & Hpu & Hu').
    apply bind_ok in Hw as (w & Hw & Hw'). apply bind_ok in Hw' as (pw' & Hpw & Hw').
    apply bind_ok in Hs as (s & Hs & Hs'). apply bind_ok in Hs' as (ps' & Hps & Hs').
    injection Hd' as <-. injection Hq' as <-. injection Hp' as <-.
    injection Hu' as <-. injection Hw' as <-. injection Hs' as <-.
    cbn [List.concat]. rewrite !length_app, count_class_cons.
    pose proof (one_call_one_finding n d q p u w s Hd Hq Hp Hu Hw Hs).
    pose proof (IH pd' pq' pp' pu' pw' ps' Hpd Hpq Hpp Hpu Hpw Hps).
    lia.
Qed.

Lemma tree_checks_at_calls (src : string) (t : node)
    (d q p u h w s : list issue) :
  _check_dangerous_functions t [] = Ok d ->
  _check_sql_injection t [] = Ok q ->
  _check_path_traversal t [] = Ok p ->
  _check_unsafe_deserialization t [] = Ok u ->
  _check_weak_crypto t [] = Ok w ->
  _check_shell_injection t [] = Ok s ->
  Forall (fun x => exists n, In n (walk t) /\ at_call n x)
    (d ++ q ++ p ++ u ++ w ++ s).
Proof.
  intros Hd Hq Hp Hu Hw Hs.
  repeat (apply Forall_app; split).
  - apply (check_at_calls 0 dangerous_functions_step (walk t) d
             dangerous_functions_step_appends dangerous_functions_step_shape Hd).
  - apply (check_at_calls 1 sql_injection_step (walk t) q
             sql_injection_step_appends sql_injection_step_shape Hq).
  - apply (check_at_calls 2 path_traversal_step (walk t) p
             path_traversal_step_appends path_traversal_step_shape Hp).
  - apply (check_at_calls 3 unsafe_deserialization_step (walk t) u
             unsafe_deserialization_step_appends
             unsafe_deserialization_step_shape Hu).
  - apply (check_at_calls 5 weak_crypto_step (walk t) w
             weak_crypto_step_appends weak_crypto_step_shape Hw).
  - apply (check_at_calls 6 shell_injection_step (walk t) s
             shell_injection_step_appends shell_injection_step_shape Hs).
Qed.

Lemma enumerate_increasing {A : Type} (l : list A) (start : Z) :
  StronglySorted (fun a b : Z * A => (fst a < fst b)%Z) (enumerate l start).
Proof.
  revert start. induction l as [|x l IH]; intros start; cbn [enumerate].
  - constructor.
  - constructor; [apply IH|].
    apply Forall_forall. intros [k y] Hin. apply enumerate_numbers in Hin.
    cbn [fst]. lia.
Qed.

(** The rule on secrets gives at most five findings for one line. *)
Lemma secrets_per_line (numbered : list (Z * string)) (out : list issue) :
  for_each numbered
    (fun numbered issues =>
       for_each secret_patterns
         (secret_pattern_step (fst numbered) (snd numbered)) issues) []
  = Ok out ->
  StronglySorted (fun a b => (fst a < fst b)%Z) numbered ->
  forall k, List.length (filter (fun x => (lineno x =? k)%Z) out) <= 5.
Proof.
  revert out. induction numbered as [|[k0 line] numbered IH];
    intros out H Hnum k.
  - injection H as <-. cbn. lia.
  - cbn [for_each fst snd] in H. apply bind_ok in H as (new & Hnew & H).
    rewrite (for_each_appends numbered _ secret_line_step_appends new) in H.
    apply bind_ok in H as (rest & Hrest & H). injection H as <-.
    inversion Hnum as [|? ? Hnum' Hfirst]; subst.
    destruct (secret_patterns_shape k0 line secret_patterns new Hnew)
      as (Hlen & Hall).
    change (List.length secret_patterns) with 5 in Hlen.
    destruct (secrets_lines_shape numbered rest Hrest) as (_ & Hlines & _).
    rewrite filter_app, length_app.
    destruct (Z.eq_dec k k0) as [-> | Hne].
    + assert (Hnone : filter (fun x => (lineno x =? k0)%Z) rest = []).
      { apply filter_none. apply Forall_forall. intros x Hx.
        rewrite Forall_forall in Hlines.
        destruct (Hlines x Hx) as (_ & line' & Hin).
        rewrite Forall_forall in Hfirst. specialize (Hfirst _ Hin).
        cbn [fst] in Hfirst. apply Z.eqb_neq. lia. }
      rewrite Hnone. cbn [List.length].
      pose proof (filter_length_le (fun x => (lineno x =? k0)%Z) new). lia.
    + assert (Hnone : filter (fun x => (lineno x =? k)%Z) new = []).
      { apply filter_none. apply Forall_forall. intros x Hx.
        rewrite Forall_forall in Hall. destruct (Hall x Hx) as (_ & Hk).
        apply Z.eqb_neq. lia. }
      rewrite Hnone. cbn [List.length]. apply (IH rest Hrest Hnum').
Qed.

Lemma secrets_shape (src : string) (h : list issue) :
  _check_hardcoded_secrets src [] = Ok h ->
  List.length h <= 5 * List.length (splitlines src)
  /\ Forall (fun x => severity x = CRITICAL
                      /\ (1 <= lineno x <= Z.of_nat (List.length (splitlines src)))%Z)
       h
  /\ StronglySorted (fun a b => (lineno a <= lineno b)%Z) h.
Proof.
  unfold _check_hardcoded_secrets. intros H.
  apply secrets_lines_shape in H as (Hlen & Hall & Hsorted).
  rewrite enumerate_length in Hlen.
  split; [exact Hlen|]. split.
  - apply (Forall_impl _ (P := fun x => severity x = CRITICAL
                /\ exists line, In (lineno x, line)
                                  (enumerate (splitlines src) 1%Z)));
      [|exact Hall].
    intros x (Hx & line & Hin). split; [exact Hx|].
    apply enumerate_numbers in Hin. lia.
  - apply Hsorted. apply enumerate_sorted.
Qed.

(** X19: the CRITICAL findings of a scan are what the rule on secrets finds
    in the text, whatever the tree: they come first in the result, in the
    order of the lines, each with the number of a line of the text, at most
    five for a line; all other findings are HIGH or MEDIUM. *)
Theorem critical_findings_from_text (src : string) (t : node)
    (fs : list issue) :
  scan src t = Ok fs ->
  exists secrets rest,
    _check_hardcoded_secrets src [] = Ok secrets
    /\ fs = secrets ++ rest
    /\ of_severity CRITICAL fs = secrets
    /\ Forall (fun x => severity x = HIGH \/ severity x = MEDIUM) rest
    /\ Forall (fun x => severity x = CRITICAL
                        /\ (1 <= lineno x
                            <= Z.of_nat (List.length (splitlines src)))%Z)
         secrets
    /\ StronglySorted (fun a b => (lineno a <= lineno b)%Z) secrets
    /\ List.length secrets <= 5 * List.length (splitlines src)
    /\ forall k,
         List.length (filter (fun x => (lineno x =? k)%Z) secrets) <= 5.
Proof.
  intros Hscan.
  apply scan_buckets in Hscan as (outputs & Hout & _ & ->).
  apply rule_outputs_parts in Hout
    as (d & q & p & u & h & w & s & -> & Hd & Hq & Hp & Hu & Hh & Hw & Hs).
  pose proof (tree_checks_at_calls src t d q p u h w s Hd Hq Hp Hu Hw Hs)
    as Hcalls.
  apply at_calls_not_critical in Hcalls.
  destruct (secrets_shape src h Hh) as (Hlen & Hall & Hsorted).
  assert (Hcrit : Forall (fun x => severity x = CRITICAL) h).
  { apply (Forall_impl _ (P := fun x => severity x = CRITICAL
               /\ (1 <= lineno x <= Z.of_nat (List.length (splitlines src)))%Z));
      [|exact Hall].
    intros x (Hx & _). exact Hx. }
  assert (Hd' : Forall (fun x => severity x = HIGH \/ severity x = MEDIUM) d
                /\ Forall (fun x => severity x = HIGH \/ severity x = MEDIUM) q
                /\ Forall (fun x => severity x = HIGH \/ severity x = MEDIUM) p
                /\ Forall (fun x => severity x = HIGH \/ severity x = MEDIUM) u
                /\ Forall (fun x => severity x = HIGH \/ severity x = MEDIUM) w
                /\ Forall (fun x => severity x = HIGH \/ severity x = MEDIUM) s).
  { repeat (apply Forall_app in Hcalls as (? & Hcalls)).
    repeat split; assumption. }
  destruct Hd' as (Fd & Fq & Fp & Fu & Fw & Fs).
  assert (Hother : forall l,
             Forall (fun x => severity x = HIGH \/ severity x = MEDIUM) l ->
             of_severity CRITICAL l = []).
  { intros l Hl. apply of_severity_other.
    apply (Forall_impl _ (P := fun x => severity x = HIGH \/ severity x = MEDIUM));
      [|exact Hl].
    intros x [Hx | Hx]; rewrite Hx; discriminate. }
  set (all := List.concat [d; q; p; u; h; w; s]).
  assert (Hfront : of_severity CRITICAL all = h).
  { unfold all. cbn [List.concat]. rewrite !of_severity_app.
    rewrite (Hother d Fd), (Hother q Fq), (Hother p Fp), (Hother u Fu),
      (Hother w Fw), (Hother s Fs), (of_severity_all CRITICAL h Hcrit).
    cbn [of_severity filter app]. rewrite app_nil_r. reflexivity. }
  assert (Hmembers : forall x,
             In x all ->
             severity x = CRITICAL \/ severity x = HIGH \/ severity x = MEDIUM).
  { intros x Hx. unfold all in Hx. cbn [List.concat] in Hx.
    rewrite Forall_forall in Fd, Fq, Fp, Fu, Fw, Fs, Hcrit.
    repeat (apply in_app_or in Hx as [Hx | Hx]); auto.
    destruct Hx. }
  exists h.
  exists (of_severity HIGH all ++ of_severity MEDIUM all
          ++ of_severity LOW all ++ of_severity INFO all ++ []).
  split; [exact Hh|].
  assert (Hrest : Forall (fun x => severity x = HIGH \/ severity x = MEDIUM)
                    (of_severity HIGH all ++ of_severity MEDIUM all
                     ++ of_severity LOW all ++ of_severity INFO all ++ [])).
  { apply Forall_forall. intros x Hx.
    repeat (apply in_app_or in Hx as [Hx | Hx]);
      try (apply of_severity_members in Hx as (Hin & Hsev);
           destruct (Hmembers x Hin) as [H | H]; [congruence | exact H]).
    destruct Hx. }
  split.
  { cbn [flat_map severity_order]. rewrite Hfront. reflexivity. }
  split.
  { cbn [flat_map severity_order]. rewrite Hfront.
    rewrite of_severity_app, (of_severity_all CRITICAL h Hcrit).
    rewrite (Hother _ Hrest). apply app_nil_r. }
  split; [exact Hrest|]. split; [exact Hall|].
  split; [exact Hsorted|]. split; [exact Hlen|].
  apply (secrets_per_line (enumerate (splitlines src) 1%Z) h Hh).
  apply enumerate_increasing.
Qed.

(** X19 on [src_mixed]. *)
Lemma critical_findings_from_text_witness :
  exists fs,
    scan src_mixed tree_mixed = Ok fs
    /\ exists secrets rest,
         _check_hardcoded_secrets src_mixed [] = Ok secrets
         /\ fs = secrets ++ rest
         /\ of_severity CRITICAL fs = secrets
         /\ Forall (fun x => severity x = HIGH \/ severity x = MEDIUM) rest
         /\ Forall (fun x => severity x = CRITICAL
                             /\ (1 <= lineno x
                                 <= Z.of_nat
                                      (List.length (splitlines src_mixed)))%Z)
              secrets
         /\ StronglySorted (fun a b => (lineno a <= lineno b)%Z) secrets
         /\ List.length secrets <= 5 * List.length (splitlines src_mixed)
         /\ forall k,
              List.length (filter (fun x => (lineno x =? k)%Z) secrets) <= 5.
Proof.
  eexists. split; [vm_compute; reflexivity|].
  apply (critical_findings_from_text src_mixed tree_mixed).
  vm_compute. reflexivity.
Defined.

(** X20: every finding of a scan that is not CRITICAL is located at a call
    of the tree: some [Call] node the walk visits has the line of the
    finding, and the finding is HIGH or MEDIUM. *)
Theorem findings_at_call_nodes (src : string) (t : node) (fs : list issue) :
  scan src t = Ok fs ->
  Forall (fun x =>
            severity x = CRITICAL
            \/ exists call,
                 In call (walk t)
                 /\ isinstance (VNode call) "Call" = true
                 /\ node_lineno call = Some (lineno x)
                 /\ (severity x = HIGH \/ severity x = MEDIUM))
    fs.
Proof.
  intros Hscan.
  apply scan_buckets in Hscan as (outputs & Hout & Hperm & _).
  apply rule_outputs_parts in Hout
    as (d & q & p & u & h & w & s & -> & Hd & Hq & Hp & Hu & Hh & Hw & Hs).
  pose proof (tree_checks_at_calls src t d q p u h w s Hd Hq Hp Hu Hw Hs)
    as Hcalls.
  destruct (secrets_shape src h Hh) as (_ & Hall & _).
  rewrite Forall_forall in Hcalls, Hall. apply Forall_forall. intros x Hx.
  apply (Permutation_in _ Hperm) in Hx. cbn [List.concat] in Hx.
  assert (Hcases : In x h \/ In x (d ++ q ++ p ++ u ++ w ++ s)).
  { rewrite !in_app_iff. repeat rewrite in_app_iff in Hx. cbn [In] in Hx. tauto. }
  destruct Hcases as [Hx' | Hx'].
  - left. apply (Hall x Hx').
  - right. destruct (Hcalls x Hx') as (n & Hn & Hcall & Hline & Hsev).
    exists n. repeat split; assumption.
Qed.

(** X20 on [src_sql_open]: the two findings are at the calls of lines 1 and 2.
    *)
Lemma findings_at_call_nodes_witness :
  exists fs,
    scan src_sql_open tree_sql_open = Ok fs
    /\ map lineno fs = [1%Z; 2%Z]
    /\ Forall (fun x =>
                 severity x = CRITICAL
                 \/ exists call,
                      In call (walk tree_sql_open)
                      /\ isinstance (VNode call) "Call" = true
                      /\ node_lineno call = Some (lineno x)
                      /\ (severity x = HIGH \/ severity x = MEDIUM))
         fs.
Proof.
  eexists. split; [vm_compute; reflexivity|]. split; [reflexivity|].
  apply (findings_at_call_nodes src_sql_open tree_sql_open).
  vm_compute. reflexivity.
Defined.

(** X21: on a tree without a [Call] node, whatever else it holds, the six
    rules that walk the tree add nothing and raise nothing: the scan returns
    what the rule on secrets finds in the text. *)
Theorem scan_without_calls (src : string) (t : node) :
  (forall n, In n (walk t) -> isinstance (VNode n) "Call" = false) ->
  scan src t = _check_hardcoded_secrets src []
  /\ exists secrets,
       scan src t = Ok secrets
       /\ Forall (fun x => severity x = CRITICAL) secrets.
Proof.
  intros Hnone.
  assert (Hskip : forall step : node -> list issue -> result (list issue),
             (forall n s, isinstance (VNode n) "Call" = false -> step n s = Ok s) ->
             forall s, for_each (walk t) step s = Ok s).
  { intros step Hstep s. apply for_each_skip.
    intros n s' Hn. apply Hstep. apply Hnone. exact Hn. }
  destruct (check_hardcoded_secrets_returns src []) as (h & Hh).
  destruct (secrets_shape src h Hh) as (_ & Hall & _).
  assert (Hcrit : Forall (fun x => severity x = CRITICAL) h).
  { apply (Forall_impl _ (P := fun x => severity x = CRITICAL
               /\ (1 <= lineno x <= Z.of_nat (List.length (splitlines src)))%Z));
      [|exact Hall].
    intros x (Hx & _). exact Hx. }
  assert (Hscan : scan src t = Ok h).
  { unfold scan, run_checks, _check_dangerous_functions, _check_sql_injection,
      _check_path_traversal, _check_unsafe_deserialization,
      _check_weak_crypto, _check_shell_injection.
    rewrite (Hskip dangerous_functions_step)
      by (intros n s Hc; unfold dangerous_functions_step; rewrite Hc;
          reflexivity).
    cbn [bind].
    rewrite (Hskip sql_injection_step)
      by (intros n s Hc; unfold sql_injection_step; rewrite Hc; reflexivity).
    cbn [bind].
    rewrite (Hskip path_traversal_step)
      by (intros n s Hc; unfold path_traversal_step; rewrite Hc; reflexivity).
    cbn [bind].
    rewrite (Hskip unsafe_deserialization_step)
      by (intros n s Hc; unfold unsafe_deserialization_step; rewrite Hc;
          reflexivity).
    cbn [bind]. rewrite Hh. cbn [bind].
    rewrite (Hskip weak_crypto_step)
      by (intros n s Hc; unfold weak_crypto_step; rewrite Hc; reflexivity).
    cbn [bind].
    rewrite (Hskip shell_injection_step)
      by (intros n s Hc; unfold shell_injection_step; rewrite Hc; reflexivity).
    cbn [bind]. f_equal.
    apply (sort_by_key_constant severity_rank 0).
    apply (Forall_impl _ (P := fun x => severity x = CRITICAL));
      [|exact Hcrit].
    intros x Hx. unfold severity_rank. rewrite Hx. reflexivity. }
  split; [rewrite Hscan, Hh; reflexivity|].
  exists h. split; [exact Hscan | exact Hcrit].
Qed.

(** X21 on [src_import_two], a text without a call. *)
Lemma scan_without_calls_witness :
  scan src_import_two tree_import_two
  = _check_hardcoded_secrets src_import_two [].
Proof.
  apply (proj1 (scan_without_calls src_import_two tree_import_two
                  ltac:(intros n Hn; vm_compute in Hn;
                        repeat (destruct Hn as [<- | Hn]; [reflexivity|]);
                        destruct Hn))).
Defined.

(** X22: the six rules that walk the tree report a call at most once between
    them, so a scan returns at most as many findings that are not CRITICAL
    as the tree has [Call] nodes. *)
Theorem call_reported_at_most_once (src : string) (t : node)
    (fs : list issue) :
  scan src t = Ok fs ->
  List.length (filter below_critical fs) <= count_class "Call" (walk t)
  /\ forall (n : node) (d q p u w s : list issue),
       dangerous_functions_step n [] = Ok d ->
       sql_injection_step n [] = Ok q ->
       path_traversal_step n [] = Ok p ->
       unsafe_deserialization_step n [] = Ok u ->
       weak_crypto_step n [] = Ok w ->
       shell_injection_step n [] = Ok s ->
       List.length d + List.length q + List.length p + List.length u
       + List.length w + List.length s
       <= (if isinstance (VNode n) "Call" then 1 else 0).
Proof.
  intros Hscan. split; [|exact one_call_one_finding].
  apply scan_buckets in Hscan as (outputs & Hout & Hperm & _).
  apply rule_outputs_parts in Hout
    as (d & q & p & u & h & w & s & -> & Hd & Hq & Hp & Hu & Hh & Hw & Hs).
  rewrite (filter_length_permutation below_critical _ _ Hperm).
  destruct (secrets_shape src h Hh) as (_ & Hall & _).
  assert (Hcrit : filter below_critical h = []).
  { apply filter_none.
    apply (Forall_impl _ (P := fun x => severity x = CRITICAL
               /\ (1 <= lineno x <= Z.of_nat (List.length (splitlines src)))%Z));
      [|exact Hall].
    intros x (Hx & _). unfold below_critical. rewrite Hx. reflexivity. }
  destruct (for_each_concat (walk t) _ dangerous_functions_step_appends d Hd)
    as (pd & Hpd & ->).
  destruct (for_each_concat (walk t) _ sql_injection_step_appends q Hq)
    as (pq & Hpq & ->).
  destruct (for_each_concat (walk t) _ path_traversal_step_appends p Hp)
    as (pp & Hpp & ->).
  destruct (for_each_concat (walk t) _ unsafe_deserialization_step_appends u Hu)
    as (pu & Hpu & ->).
  destruct (for_each_concat (walk t) _ weak_crypto_step_appends w Hw)
    as (pw & Hpw & ->).
  destruct (for_each_concat (walk t) _ shell_injection_step_appends s Hs)
    as (ps & Hps & ->).
  pose proof (calls_bound (walk t) pd pq pp pu pw ps Hpd Hpq Hpp Hpu Hpw Hps)
    as Hbound.
  cbn [List.concat]. rewrite !filter_app, !length_app, Hcrit.
  cbn [filter List.length].
  pose proof (filter_length_le below_critical (List.concat pd)).
  pose proof (filter_length_le below_critical (List.concat pq)).
  pose proof (filter_length_le below_critical (List.concat pp)).
  pose proof (filter_length_le below_critical (List.concat pu)).
  pose proof (filter_length_le below_critical (List.concat pw)).
  pose proof (filter_length_le below_critical (List.concat ps)).
  lia.
Qed.

(** X22 on [src_mixed]: three findings, one of them CRITICAL, and two calls.
    *)
Lemma call_reported_at_most_once_witness :
  exists fs,
    scan src_mixed tree_mixed = Ok fs
    /\ List.length fs = 3
    /\ count_class "Call" (walk tree_mixed) = 2
    /\ List.length (filter below_critical fs)
       <= count_class "Call" (walk tree_mixed).
Proof.
  eexists. split; [vm_compute; reflexivity|].
  split; [reflexivity|]. split; [reflexivity|].
  refine (proj1 (call_reported_at_most_once src_mixed tree_mixed _ _)).
  vm_compute. reflexivity.
Defined.

(** ** The patterns of the rule on secrets *)

Lemma append_nil_r (s : string) : s +++ "" = s.
Proof. induction s as [|c s IH]; cbn; [reflexivity | rewrite IH; reflexivity]. Qed.

Lemma append_assoc (a b c : string) : (a +++ b) +++ c = a +++ (b +++ c).
Proof.
  induction a as [|x a IH]; cbn; [reflexivity | rewrite IH; reflexivity].
Qed.

Lemma append_empty (a b : string) : a +++ b = "" -> a = "" /\ b = "".
Proof. destruct a; cbn; [intros ->; split; reflexivity | discriminate]. Qed.

Lemma nullable_matches (r : regex) : nullable r = true <-> matches r "".
Proof.
  induction r as [| | p | r1 IH1 r2 IH2 | r1 IH1 r2 IH2 | r IH]; cbn [nullable].
  - split; [discriminate | intros H; inversion H].
  - split; [intros _; constructor | reflexivity].
  - split; [discriminate | intros H; inversion H].
  - rewrite andb_true_iff, IH1, IH2. split.
    + intros [H1 H2]. apply (matches_seq r1 r2 "" "" H1 H2).
    + intros H. inversion H as [| | ? ? s1 s2 H1 H2 | | | |]; subst.
      match goal with
      | Heq : _ +++ _ = "" |- _ => apply append_empty in Heq as [-> ->]
      end.
      split; assumption.
  - rewrite orb_true_iff, IH1, IH2. split.
    + intros [H | H]; [apply matches_alt_left | apply matches_alt_right];
        exact H.
    + intros H. inversion H; subst; [left | right]; assumption.
  - split; [intros _; constructor | reflexivity].
Qed.

Lemma matches_seq_smart (r1 r2 : regex) (s : string) :
  matches (seq r1 r2) s <-> matches (RSeq r1 r2) s.
Proof.
  assert (Hfail_l : forall r, matches (RSeq RFail r) s <-> matches RFail s).
  { intros r. split; intros H; inversion H; subst.
    match goal with H : matches RFail _ |- _ => inversion H end. }
  assert (Hfail_r : forall r, matches (RSeq r RFail) s <-> matches RFail s).
  { intros r. split; intros H; inversion H; subst.
    match goal with H : matches RFail _ |- _ => inversion H end. }
  assert (Hempty_l : forall r, matches (RSeq REmpty r) s <-> matches r s).
  { intros r. split.
    - intros H. inversion H as [| | ? ? s1 s2 H1 H2 | | | |]; subst.
      inversion H1; subst. exact H2.
    - intros H. apply (matches_seq REmpty r "" s matches_empty H). }
  assert (Hempty_r : forall r, matches (RSeq r REmpty) s <-> matches r s).
  { intros r. split.
    - intros H. inversion H as [| | ? ? s1 s2 H1 H2 | | | |]; subst.
      inversion H2; subst. rewrite append_nil_r. exact H1.
    - intros H. rewrite <- (append_nil_r s).
      apply (matches_seq r REmpty s "" H matches_empty). }
  destruct r1, r2; cbn [seq];
    rewrite ?Hfail_l, ?Hfail_r, ?Hempty_l, ?Hempty_r; reflexivity.
Qed.

Lemma matches_alt_smart (r1 r2 : regex) (s : string) :
  matches (alt r1 r2) s <-> matches (RAlt r1 r2) s.
Proof.
  assert (Hl : forall r, matches (RAlt RFail r) s <-> matches r s).
  { intros r. split.
    - intros H. inversion H; subst; [|assumption].
      match goal with H : matches RFail _ |- _ => inversion H end.
    - apply matches_alt_right. }
  assert (Hr : forall r, matches (RAlt r RFail) s <-> matches r s).
  { intros r. split.
    - intros H. inversion H; subst; [assumption|].
      match goal with H : matches RFail _ |- _ => inversion H end.
    - apply matches_alt_left. }
  destruct r1, r2; cbn [alt]; rewrite ?Hl, ?Hr; reflexivity.
Qed.

(** A repetition that matches a text with a first character starts with a
    turn that takes this character. *)
Lemma matches_star_first (r : regex) (c : ascii) (s : string) :
  matches (RStar r) (String c s) ->
  exists s1 s2,
    s = s1 +++ s2 /\ matches r (String c s1) /\ matches (RStar r) s2.
Proof.
  intros H. remember (RStar r) as r' eqn:Hr. remember (String c s) as t eqn:Ht.
  revert s Ht.
  induction H as [| | | | | |r0 s1 s2 H1 _ H2 IH2]; intros s' Ht;
    try discriminate.
  injection Hr as ->.
  destruct s1 as [|d s1].
  - cbn in Ht. apply (IH2 eq_refl s' Ht).
  - cbn in Ht. injection Ht as Hc Hs. subst.
    exists s1, s2. repeat split; assumption.
Qed.

Lemma deriv_matches (r : regex) :
  forall (c : ascii) (s : string),
    matches (deriv c r) s <-> matches r (String c s).
Proof.
  induction r as [| | p | r1 IH1 r2 IH2 | r1 IH1 r2 IH2 | r IH]; intros c s;
    cbn [deriv].
  - split; intros H; inversion H.
  - split; intros H; inversion H.
  - destruct (p c) eqn:Hp.
    + split; intros H; inversion H; subst; [constructor; exact Hp | constructor].
    + split; intros H; inversion H; subst. congruence.
  - assert (Hfirst : matches (seq (deriv c r1) r2) s
                     <-> exists s1 s2,
                           s = s1 +++ s2 /\ matches r1 (String c s1)
                           /\ matches r2 s2).
    { rewrite matches_seq_smart. split.
      - intros H. inversion H as [| | ? ? s1 s2 H1 H2 | | | |]; subst.
        exists s1, s2. rewrite <- IH1. repeat split; assumption.
      - intros (s1 & s2 & -> & H1 & H2). apply matches_seq; [|exact H2].
        rewrite IH1. exact H1. }
    assert (Hseq : matches (RSeq r1 r2) (String c s)
                   <-> (exists s1 s2,
                           s = s1 +++ s2 /\ matches r1 (String c s1)
                           /\ matches r2 s2)
                       \/ (matches r1 "" /\ matches r2 (String c s))).
    { split.
      - intros H. inversion H as [| | ? ? s1 s2 H1 H2 | | | |]; subst.
        match goal with
        | Heq : _ +++ _ = String _ _ |- _ => rename Heq into Hparts
        end.
        destruct s1 as [|d s1].
        + right. cbn in Hparts. subst. split; assumption.
        + left. cbn in Hparts. injection Hparts as -> <-.
          exists s1, s2. repeat split; assumption.
      - intros [(s1 & s2 & -> & H1 & H2) | (H1 & H2)].
        + apply (matches_seq r1 r2 (String c s1) s2 H1 H2).
        + apply (matches_seq r1 r2 "" (String c s) H1 H2). }
    rewrite Hseq. destruct (nullable r1) eqn:Hnull.
    + rewrite matches_alt_smart. apply nullable_matches in Hnull. split.
      * intros H. inversion H; subst.
        -- left. apply Hfirst. assumption.
        -- right. split; [exact Hnull|]. apply IH2. assumption.
      * intros [H | (_ & H)].
        -- apply matches_alt_left. apply Hfirst. exact H.
        -- apply matches_alt_right. apply IH2. exact H.
    + rewrite Hfirst. split; [intros H; left; exact H|].
      intros [H | (H & _)]; [exact H|].
      apply nullable_matches in H. congruence.
  - rewrite matches_alt_smart. split.
    + intros H. inversion H; subst;
        [apply matches_alt_left; apply IH1 | apply matches_alt_right; apply IH2];
        assumption.
    + intros H. inversion H; subst;
        [apply matches_alt_left; apply IH1 | apply matches_alt_right; apply IH2];
        assumption.
  - rewrite matches_seq_smart. split.
    + intros H. inversion H as [| | ? ? s1 s2 H1 H2 | | | |]; subst.
      apply (matches_star_more r (String c s1) s2); [apply IH; exact H1 | exact H2].
    + intros H. apply matches_star_first in H as (s1 & s2 & -> & H1 & H2).
      apply matches_seq; [apply IH; exact H1 | exact H2].
Qed.

(** [re.match] finds a match exactly when the pattern matches a text the
    line starts with. *)
Lemma re_match_spec (s : string) :
  forall r,
    re_match r s = true <-> exists m rest, s = m +++ rest /\ matches r m.
Proof.
  induction s as [|c s IH]; intros r; cbn [re_match].
  - rewrite orb_false_r, nullable_matches. split.
    + intros H. exists "", "". split; [reflexivity | exact H].
    + intros (m & rest & Heq & H). symmetry in Heq.
      apply append_empty in Heq as [-> _]. exact H.
  - rewrite orb_true_iff, nullable_matches, IH. split.
    + intros [H | (m & rest & -> & H)].
      * exists "", (String c s). split; [reflexivity | exact H].
      * exists (String c m), rest. split; [reflexivity|].
        apply deriv_matches. exact H.
    + intros (m & rest & Heq & H). destruct m as [|d m].
      * left. exact H.
      * right. cbn in Heq. injection Heq as <- ->.
        exists m, rest. split; [reflexivity|]. apply deriv_matches. exact H.
Qed.

(** [re.search] finds a match exactly when the pattern matches some part of
    the line. *)
Lemma re_search_spec (r : regex) (s : string) :
  re_search r s = true
  <-> exists before m rest, s = before +++ m +++ rest /\ matches r m.
Proof.
  induction s as [|c s IH]; cbn [re_search].
  - rewrite orb_false_r, re_match_spec. split.
    + intros (m & rest & Heq & H). exists "", m, rest. split; assumption.
    + intros (before & m & rest & Heq & H). symmetry in Heq.
      apply append_empty in Heq as [-> Heq]. exists m, rest.
      split; [symmetry; exact Heq | exact H].
  - rewrite orb_true_iff, re_match_spec, IH. split.
    + intros [(m & rest & Heq & H) | (before & m & rest & -> & H)].
      * exists "", m, rest. split; assumption.
      * exists (String c before), m, rest. split; [reflexivity | exact H].
    + intros (before & m & rest & Heq & H). destruct before as [|d before].
      * left. exists m, rest. split; assumption.
      * right. cbn in Heq. injection Heq as <- ->.
        exists before, m, rest. split; [reflexivity | exact H].
Qed.

Lemma list_of_append (a b : string) :
  list_ascii_of_string (a +++ b)
  = list_ascii_of_string a ++ list_ascii_of_string b.
Proof.
  induction a as [|c a IH]; cbn; [reflexivity | rewrite IH; reflexivity].
Qed.

Lemma has_char_append (c : ascii) (a b : string) :
  has_char c (a +++ b) = has_char c a || has_char c b.
Proof. unfold has_char. rewrite list_of_append. apply existsb_app. Qed.

Lemma has_quote_append (a b : string) :
  existsb is_quote (list_ascii_of_string (a +++ b))
  = existsb is_quote (list_ascii_of_string a)
    || existsb is_quote (list_ascii_of_string b).
Proof. rewrite list_of_append. apply existsb_app. Qed.

Lemma lit_equals (x : ascii) :
  Ascii.eqb (to_lower x) (to_lower "=") = true -> x = "="%char.
Proof.
  destruct x as [[] [] [] [] [] [] [] []]; vm_compute; intros H;
    first [reflexivity | discriminate H].
Qed.

(** A text the end of a pattern matches holds an equals sign and a quote. *)
Lemma matches_assigned_literal (extra m : string) :
  matches (assigned_literal extra) m ->
  has_char "=" m = true
  /\ existsb is_quote (list_ascii_of_string m) = true.
Proof.
  unfold assigned_literal, lit. intros H.
  inversion H as [| | ? ? ws1 m1 _ H1 | | | |]; subst. clear H.
  inversion H1 as [| | ? ? eq m2 Heq H2 | | | |]; subst. clear H1.
  inversion Heq as [| ? c Hc | | | | |]; subst. clear Heq.
  apply lit_equals in Hc. subst c.
  inversion H2 as [| | ? ? ws2 m3 _ H3 | | | |]; subst. clear H2.
  inversion H3 as [| | ? ? q m4 Hq _ | | | |]; subst. clear H3.
  inversion Hq as [| ? c Hc | | | | |]; subst. clear Hq.
  split.
  - rewrite !has_char_append.
    assert (Heq : has_char "=" (String "=" "") = true) by reflexivity.
    rewrite Heq. cbn [orb]. apply orb_true_r.
  - rewrite !has_quote_append.
    cbn [list_ascii_of_string existsb]. rewrite Hc.
    cbn [orb]. rewrite !orb_true_r. reflexivity.
Qed.

Lemma matches_seq_end (r1 r2 : regex) (m : string) (P : string -> Prop) :
  (forall b, matches r2 b -> P b) ->
  (forall a b, P b -> P (a +++ b)) ->
  matches (RSeq r1 r2) m -> P m.
Proof.
  intros Hend Hgrow H.
  inversion H as [| | ? ? a b _ Hb | | | |]; subst.
  apply Hgrow, Hend, Hb.
Qed.

(** Each of the five patterns needs an equals sign and a quote. *)
Lemma secret_pattern_needs (pattern : regex) (secret_type m : string) :
  In (pattern, secret_type) secret_patterns ->
  matches pattern m ->
  has_char "=" m = true
  /\ existsb is_quote (list_ascii_of_string m) = true.
Proof.
  set (P := fun m => has_char "=" m = true
                     /\ existsb is_quote (list_ascii_of_string m) = true).
  assert (Hgrow : forall a b, P b -> P (a +++ b)).
  { intros a b (Hb1 & Hb2). split.
    - rewrite has_char_append, Hb1. apply orb_true_r.
    - rewrite has_quote_append, Hb2. apply orb_true_r. }
  assert (Hend : forall extra b, matches (assigned_literal extra) b -> P b).
  { intros extra b. apply matches_assigned_literal. }
  intros Hin. change (matches pattern m -> P m).
  unfold secret_patterns in Hin.
  destruct Hin as [H | [H | [H | [H | [H | []]]]]]; injection H as <- _.
  - apply matches_seq_end; [apply Hend | exact Hgrow].
  - apply matches_seq_end; [|exact Hgrow]. intros b.
    apply matches_seq_end; [|exact Hgrow]. intros b'.
    apply matches_seq_end; [apply Hend | exact Hgrow].
  - apply matches_seq_end; [|exact Hgrow]. intros b.
    apply matches_seq_end; [|exact Hgrow]. intros b'.
    apply matches_seq_end; [apply Hend | exact Hgrow].
  - apply matches_seq_end; [apply Hend | exact Hgrow].
  - apply matches_seq_end; [|exact Hgrow]. intros b.
    apply matches_seq_end; [|exact Hgrow]. intros b'.
    apply matches_seq_end; [apply Hend | exact Hgrow].
Qed.

Lemma search_needs (pattern : regex) (secret_type line : string) :
  In (pattern, secret_type) secret_patterns ->
  re_search pattern line = true ->
  has_char "=" line = true
  /\ existsb is_quote (list_ascii_of_string line) = true.
Proof.
  intros Hin Hsearch.
  apply re_search_spec in Hsearch as (before & m & rest & -> & Hm).
  destruct (secret_pattern_needs pattern secret_type m Hin Hm) as (H1 & H2).
  split.
  - rewrite !has_char_append, H1. cbn [orb]. apply orb_true_r.
  - rewrite !has_quote_append, H2. cbn [orb]. apply orb_true_r.
Qed.

Lemma matches_word (w name : string) :
  same_letters name w = true -> matches (word w) name.
Proof.
  revert name. induction w as [|c w IH]; intros name H.
  - destruct name; [constructor | discriminate H].
  - destruct name as [|d name]; [discriminate H|].
    cbn [same_letters] in H. apply andb_true_iff in H as [Hd Hrest].
    cbn [word].
    apply (matches_seq (lit c) (word w) (String d "") name).
    + constructor. exact Hd.
    + apply IH. exact Hrest.
Qed.

Lemma matches_star_set (p : ascii -> bool) (s : string) :
  all_chars p s = true -> matches (RStar (RSet p)) s.
Proof.
  unfold all_chars. induction s as [|c s IH]; intros H.
  - constructor.
  - cbn [list_ascii_of_string forallb] in H.
    apply andb_true_iff in H as [Hc Hs].
    apply (matches_star_more (RSet p) (String c "") s).
    + constructor. exact Hc.
    + apply IH. exact Hs.
Qed.

Lemma matches_plus_set (p : ascii -> bool) (s : string) :
  s <> "" -> all_chars p s = true -> matches (plus (RSet p)) s.
Proof.
  intros Hne H. destruct s as [|c s]; [contradiction|].
  unfold all_chars in H. cbn [list_ascii_of_string forallb] in H.
  apply andb_true_iff in H as [Hc Hs].
  apply (matches_seq (RSet p) (RStar (RSet p)) (String c "") s).
  - constructor. exact Hc.
  - apply matches_star_set. exact Hs.
Qed.

(** A name, an equals sign and a quoted value, white space allowed around
    the sign, is what the end of a pattern matches. *)
Lemma matches_assignment (extra ws1 ws2 value : string) (q1 q2 : ascii) :
  all_chars is_space ws1 = true -> all_chars is_space ws2 = true ->
  is_quote q1 = true -> is_quote q2 = true ->
  value <> "" ->
  all_chars (fun c => is_word_char c || has_char c extra) value = true ->
  matches (assigned_literal extra)
    (ws1 +++ "=" +++ ws2 +++ String q1 "" +++ value +++ String q2 "").
Proof.
  intros Hws1 Hws2 Hq1 Hq2 Hne Hvalue. unfold assigned_literal.
  apply matches_seq; [apply matches_star_set; exact Hws1|].
  apply (matches_seq _ _ "="); [constructor; reflexivity|].
  apply matches_seq; [apply matches_star_set; exact Hws2|].
  apply (matches_seq _ _ (String q1 "")); [constructor; exact Hq1|].
  apply matches_seq; [apply matches_plus_set; assumption|].
  constructor. exact Hq2.
Qed.

(** What the rule on secrets returns holds the finding of every pattern
    that matches a line, with the number of the line. *)
Lemma secret_reported (numbered : list (Z * string)) (out : list issue)
    (k : Z) (line : string) (pattern : regex) (secret_type : string) :
  for_each numbered
    (fun numbered issues =>
       for_each secret_patterns
         (secret_pattern_step (fst numbered) (snd numbered)) issues) []
  = Ok out ->
  In (k, line) numbered ->
  In (pattern, secret_type) secret_patterns ->
  re_search pattern line = true ->
  In (secret_issue secret_type k) out.
Proof.
  intros Hrun Hline Hpattern Hsearch.
  assert (Hinner : exists new,
             for_each secret_patterns (secret_pattern_step k line) [] = Ok new).
  { destruct (for_each_returns (fun _ => True) secret_patterns
                (secret_pattern_step k line)) with (s := @nil issue)
      as (new & Hnew & _); [|exact I | exists new; exact Hnew].
    intros [p ty] s _ _. unfold secret_pattern_step.
    destruct (re_search p line); eexists; split; try reflexivity; exact I. }
  destruct Hinner as (new & Hnew).
  assert (Hin : In (secret_issue secret_type k) new).
  { apply (for_each_includes secret_patterns (secret_pattern_step k line)
             (secret_pattern_step_appends k line) (pattern, secret_type)
             [secret_issue secret_type k] new Hpattern); [|exact Hnew|].
    - unfold secret_pattern_step. rewrite Hsearch. reflexivity.
    - left. reflexivity. }
  apply (for_each_includes numbered _ secret_line_step_appends (k, line)
           new out Hline Hnew Hrun). exact Hin.
Qed.

Lemma secret_found (numbered : list (Z * string)) (out : list issue) :
  for_each numbered
    (fun numbered issues =>
       for_each secret_patterns
         (secret_pattern_step (fst numbered) (snd numbered)) issues) []
  = Ok out ->
  Forall (fun x =>
            exists line pattern secret_type,
              In (lineno x, line) numbered
              /\ In (pattern, secret_type) secret_patterns
              /\ re_search pattern line = true
              /\ x = secret_issue secret_type (lineno x)) out.
Proof.
  intros Hrun.
  destruct (for_each_concat numbered _ secret_line_step_appends out Hrun)
    as (per & Hper & ->).
  apply Forall_forall. intros x Hx.
  apply in_concat in Hx as (new & Hnew & Hx).
  destruct (map_result_in _ _ _ _ Hper Hnew) as ([k line] & Hline & Hinner).
  cbn [fst snd] in Hinner.
  destruct (for_each_concat secret_patterns _
              (secret_pattern_step_appends k line) new Hinner)
    as (per' & Hper' & ->).
  apply in_concat in Hx as (one & Hone & Hx).
  destruct (map_result_in _ _ _ _ Hper' Hone)
    as ([pattern secret_type] & Hpattern & Hstep).
  unfold secret_pattern_step, _add_issue in Hstep.
  destruct (re_search pattern line) eqn:Hsearch; injection Hstep as <-;
    [|destruct Hx].
  destruct Hx as [<- | []]. cbn [lineno].
  exists line, pattern, secret_type. repeat split; assumption.
Qed.

Lemma enumerate_members {A : Type} (l : list A) (start k : Z) (x : A) :
  In (k, x) (enumerate l start) -> In x l.
Proof.
  revert start. induction l as [|y l IH]; intros start Hin; [destruct Hin|].
  cbn [enumerate] in Hin. destruct Hin as [Heq | Hin].
  - injection Heq as _ <-. left. reflexivity.
  - right. apply (IH _ Hin).
Qed.

Lemma secret_types (pattern : regex) (secret_type : string) :
  In (pattern, secret_type) secret_patterns ->
  In secret_type ["Password"; "API Key"; "Secret Key"; "Token"; "AWS Secret"].
Proof.
  unfold secret_patterns.
  intros [H | [H | [H | [H | [H | []]]]]]; injection H as _ <-; cbn; tauto.
Qed.

(** X23: a finding of the rule on secrets names a line of the text that
    holds an equals sign and a quote, single or double, and is one of the
    five kinds of the rule; a text without an equals sign, or without a
    quote, gives no such finding. *)
Theorem secrets_need_quoted_assignment (src : string) (out : list issue) :
  _check_hardcoded_secrets src [] = Ok out ->
  Forall (fun x =>
            exists line secret_type,
              In (lineno x, line) (enumerate (splitlines src) 1%Z)
              /\ In secret_type
                   ["Password"; "API Key"; "Secret Key"; "Token"; "AWS Secret"]
              /\ x = secret_issue secret_type (lineno x)
              /\ has_char "=" line = true
              /\ existsb is_quote (list_ascii_of_string line) = true)
    out
  /\ ((forall line, In line (splitlines src) ->
                    has_char "=" line = false
                    \/ existsb is_quote (list_ascii_of_string line) = false) ->
      out = []).
Proof.
  intros Hrun.
  assert (Hall : Forall (fun x =>
            exists line secret_type,
              In (lineno x, line) (enumerate (splitlines src) 1%Z)
              /\ In secret_type
                   ["Password"; "API Key"; "Secret Key"; "Token"; "AWS Secret"]
              /\ x = secret_issue secret_type (lineno x)
              /\ has_char "=" line = true
              /\ existsb is_quote (list_ascii_of_string line) = true)
            out).
  { unfold _check_hardcoded_secrets in Hrun.
    apply secret_found in Hrun. revert Hrun. apply Forall_impl.
    intros x (line & pattern & secret_type & Hline & Hpattern & Hsearch & Hx).
    destruct (search_needs pattern secret_type line Hpattern Hsearch)
      as (Heq & Hquote).
    exists line, secret_type.
    split; [exact Hline|]. split; [apply (secret_types pattern); exact Hpattern|].
    split; [exact Hx|]. split; assumption. }
  split; [exact Hall|].
  intros Hnone. destruct out as [|x out]; [reflexivity|].
  inversion Hall as [|? ? (line & ty & Hline & _ & _ & Heq & Hquote) _]; subst.
  apply enumerate_members in Hline.
  destruct (Hnone line Hline) as [H | H]; congruence.
Qed.

(** X23 on [src_mixed]: the finding of line 2. *)
Lemma secrets_need_quoted_assignment_witness :
  exists out,
    _check_hardcoded_secrets src_mixed [] = Ok out
    /\ out = [secret_issue "Password" 2]
    /\ Forall (fun x =>
                 exists line secret_type,
                   In (lineno x, line) (enumerate (splitlines src_mixed) 1%Z)
                   /\ In secret_type
                        ["Password"; "API Key"; "Secret Key"; "Token";
                         "AWS Secret"]
                   /\ x = secret_issue secret_type (lineno x)
                   /\ has_char "=" line = true
                   /\ existsb is_quote (list_ascii_of_string line) = true)
         out.
Proof.
  eexists. split; [vm_compute; reflexivity|]. split; [reflexivity|].
  apply (proj1 (secrets_need_quoted_assignment src_mixed _ eq_refl)).
Defined.

(** X24: a line that holds the word password, in any mix of capitals, then
    an equals sign with or without white space around it, then a value
    between two quotes of either kind, the value made of one or more
    letters, digits, underscores or the signs the pattern lists, is reported
    as a CRITICAL finding with the number of the line, whatever stands
    before the word and after the closing quote, a comment sign included. *)
Theorem password_assignment_reported (src : string) (out : list issue)
    (k : Z) (before name ws1 ws2 value rest : string) (q1 q2 : ascii) :
  _check_hardcoded_secrets src [] = Ok out ->
  In (k, before +++ name +++ ws1 +++ "=" +++ ws2
         +++ String q1 value +++ String q2 rest)
     (enumerate (splitlines src) 1%Z) ->
  same_letters name "password" = true ->
  all_chars is_space ws1 = true ->
  all_chars is_space ws2 = true ->
  is_quote q1 = true ->
  is_quote q2 = true ->
  value <> "" ->
  all_chars (fun c => is_word_char c || has_char c "!@#$%^&*") value = true ->
  In (secret_issue "Password" k) out.
Proof.
  intros Hrun Hline Hname Hws1 Hws2 Hq1 Hq2 Hne Hvalue.
  unfold _check_hardcoded_secrets in Hrun.
  apply (secret_reported _ out k _
           (RSeq (word "password") (assigned_literal "!@#$%^&*")) "Password"
           Hrun Hline).
  - left. reflexivity.
  - apply re_search_spec.
    exists before,
      (name +++ ws1 +++ "=" +++ ws2 +++ String q1 "" +++ value
       +++ String q2 ""),
      rest.
    split.
    + f_equal. rewrite !append_assoc. reflexivity.
    + apply matches_seq; [apply matches_word; exact Hname|].
      apply matches_assignment; assumption.
Qed.

(** X24 on line 2 of [src_mixed]. *)
Lemma password_assignment_reported_witness :
  exists out,
    _check_hardcoded_secrets src_mixed [] = Ok out
    /\ In (secret_issue "Password" 2) out.
Proof.
  eexists. split; [vm_compute; reflexivity|].
  apply (password_assignment_reported src_mixed _ 2%Z
           "" "password" " " " " "abc123" "" "'"%char "'"%char).
  - vm_compute. reflexivity.
  - vm_compute. right. left. reflexivity.
  - reflexivity.
  - reflexivity.
  - reflexivity.
  - reflexivity.
  - reflexivity.
  - discriminate.
  - reflexivity.
Defined.

(** ** The order of the walk *)

Lemma queue_size_cons (n : node) (l : list node) :
  queue_size (n :: l) = node_size n + queue_size l.
Proof. reflexivity. Qed.

Lemma walk_queue_nil (fuel : nat) : walk_queue fuel [] = [].
Proof. destruct fuel; reflexivity. Qed.

(** The loop of [ast.walk] takes the nodes that wait in the queue, then
    what is behind them, their children last. *)
Lemma walk_level (cur : list node) :
  forall (nxt : list node) (fuel : nat),
    queue_size (cur ++ nxt) <= fuel ->
    walk_queue fuel (cur ++ nxt)
    = cur ++ walk_queue (fuel - List.length cur)
               (nxt ++ flat_map iter_child_nodes cur).
Proof.
  induction cur as [|c cur IH]; intros nxt fuel Hfuel.
  - cbn [app flat_map List.length]. rewrite Nat.sub_0_r, app_nil_r.
    reflexivity.
  - cbn [app] in Hfuel. rewrite queue_size_cons in Hfuel.
    pose proof (children_size c) as Hc.
    destruct fuel as [|fuel]; [lia|].
    cbn [app walk_queue List.length flat_map Nat.sub].
    rewrite <- app_assoc. rewrite IH.
    + rewrite <- app_assoc. reflexivity.
    + rewrite !queue_size_app in *. lia.
Qed.

Lemma children_level_size (l : list node) :
  queue_size (flat_map iter_child_nodes l) + List.length l <= queue_size l.
Proof.
  induction l as [|n l IH]; [apply le_n|].
  cbn [flat_map List.length]. rewrite queue_size_app, queue_size_cons.
  pose proof (children_size n). lia.
Qed.

Lemma walk_levels (k : nat) :
  forall (level : list node) (fuel : nat),
    queue_size level <= k -> queue_size level <= fuel ->
    walk_queue fuel level = List.concat (levels k level).
Proof.
  induction k as [|k IH]; intros level fuel Hk Hfuel.
  - destruct level as [|n level].
    + rewrite walk_queue_nil. reflexivity.
    + rewrite queue_size_cons in Hk. pose proof (children_size n). lia.
  - destruct level as [|n level].
    + rewrite walk_queue_nil. reflexivity.
    + cbn [levels List.concat].
      pose proof (children_level_size (n :: level)) as Hsize.
      cbn [List.length] in Hsize.
      rewrite <- (app_nil_r (n :: level)) at 1.
      rewrite walk_level by (rewrite app_nil_r; exact Hfuel).
      cbn [app]. f_equal. f_equal. apply IH; cbn [List.length]; lia.
Qed.

Lemma walk_breadth_first (t : node) :
  walk t = List.concat (levels (node_size t) [t]).
Proof.
  unfold walk. apply walk_levels; rewrite queue_size_cons; cbn; lia.
Qed.

(** X25: the walk visits the tree level by level, the root, then its
    children, then theirs; a rule reports the calls in this order, so the
    findings of one rule stand in the order of the depth of their calls and
    not in the order of their lines: a call inside a function is reported
    after a call at the top of the module that stands on a later line. *)
Theorem findings_in_breadth_first_order (t : node) :
  walk t = List.concat (levels (node_size t) [t])
  /\ (forall out,
         _check_dangerous_functions t [] = Ok out ->
         exists per_node,
           map_result (fun n => dangerous_functions_step n [])
             (List.concat (levels (node_size t) [t]))
           = Ok per_node
           /\ out = List.concat per_node)
  /\ exists first second,
       _check_dangerous_functions tree_nested_eval [] = Ok [first; second]
       /\ scan "" tree_nested_eval = Ok [first; second]
       /\ lineno first = 3%Z /\ lineno second = 2%Z.
Proof.
  split; [apply walk_breadth_first|]. split.
  - intros out Hrun. rewrite <- walk_breadth_first.
    apply (for_each_concat (walk t) dangerous_functions_step
             dangerous_functions_step_appends out Hrun).
  - eexists. eexists. split; [vm_compute; reflexivity|].
    split; [vm_compute; reflexivity|]. split; reflexivity.
Qed.

